(** * clawish: signed-request authentication and identity core

    A shallow embedding of the TypeScript sources of the clawish API
    (utils/crypto, middleware/auth, handlers/clawfiles, handlers/plaza and
    the tables of migrations/0001_initial.sql they touch), together with
    the properties its specification states about them.  The routes of
    handlers/follows, handlers/communities and handlers/warrens, the
    listings, and the first worker of index.ts are embedded after them.

    Conventions of the embedding
    - a JavaScript string is its sequence of UTF-16 code units ([jsstring]);
    - a [Uint8Array] is a [list byte];
    - a call that can throw returns an [option] ([None] = exception);
    - [async]/[await] is sequencing; a promise that is not awaited is a
      value of its own ([Crypto.jsval]);
    - [clawfiles] and [clawfile_profiles] are finite maps keyed by their
      primary key, [plaza_messages] and [ledger_entries] lists of rows; an
      INSERT that a modelled constraint refuses throws;
    - clock readings and random draws are explicit arguments;
    - what a query leaves to the database (the row [.first()] returns
      among several, the order of rows with equal sort keys) is a
      parameter ([Sql.Engine]);
    - the platform functions [atob], [btoa], [TextEncoder] and SHA-256 are
      written out after their standards; the third-party signature library
      and the date parser are parameters ([Ed25519], [DateParser]). *)

From Stdlib Require Import ZArith NArith List Lia Bool.
From Stdlib.Strings Require Import String Ascii Byte.
From Stdlib Require Import Zify ZifyClasses ZifyBool DecimalString DecimalN.
From stdpp Require Import base option list gmap.
Import ListNotations.

Local Open Scope N_scope.

(* ===================================================================== *)
(** * Part I. The runtime: strings, base64, SHA-256                       *)
(* ===================================================================== *)

Module Js.

(** A JavaScript string: the list of its UTF-16 code units. *)
Abbreviation jsstring := (list N).

(** An ASCII literal of the source, as a [jsstring]. *)
Definition js (s : string) : jsstring :=
  map N_of_ascii (list_ascii_of_string s).

(** [s.startsWith(p)]. *)
Fixpoint startsWith (p s : jsstring) : bool :=
  match p, s with
  | [], _ => true
  | _ :: _, [] => false
  | a :: p', b :: s' => N.eqb a b && startsWith p' s'
  end.

(** [s.indexOf(p)]: the position of the first occurrence, [None] for -1. *)
Fixpoint indexOf (p s : jsstring) : option nat :=
  if startsWith p s then Some O
  else match s with
       | [] => None
       | _ :: s' => option_map S (indexOf p s')
       end.

(** The loop of [s.split(sep)] for a non-empty separator: [skip] counts the
    code units of a matched separator still to be passed over, [cur] is the
    piece being collected (reversed). *)
Fixpoint splitGo (sep s : jsstring) (skip : nat) (cur : jsstring)
  : list jsstring :=
  match s with
  | [] => [rev cur]
  | c :: s' =>
      match skip with
      | S k => splitGo sep s' k cur
      | O =>
          if startsWith sep s
          then rev cur :: splitGo sep s' (Nat.pred (length sep)) []
          else splitGo sep s' O (c :: cur)
      end
  end.

(** [s.split(sep)], for the non-empty separators the sources use
    (':' and '/api'). *)
Definition split (sep s : jsstring) : list jsstring := splitGo sep s O [].

(** [s.replace(pat, rep)] with a string pattern and a replacement without
    '$' patterns: only the first occurrence is replaced. *)
Definition replace (pat rep s : jsstring) : jsstring :=
  match indexOf pat s with
  | None => s
  | Some i => take i s ++ rep ++ drop (i + length pat) s
  end.

(** [String(n)] for a non-negative integer. *)
Definition ofNat (n : N) : jsstring :=
  js (DecimalString.NilZero.string_of_uint (N.to_uint n)).

(** [String(z)] for an integer (below 10^21 in magnitude, where
    JavaScript prints all digits). *)
Definition ofInt (z : Z) : jsstring :=
  match z with
  | Zneg p => js "-" ++ ofNat (Npos p)
  | _ => ofNat (Z.to_N z)
  end.

#[export] Instance byte_eq_decision : EqDecision byte := Byte.byte_eq_dec.

(** The byte of value [n mod 256]. *)
Definition byteOf (n : N) : byte :=
  match Byte.of_N (n mod 256) with
  | Some b => b
  | None => x00
  end.

(** [Uint8Array.from(s, c => c.charCodeAt(0))]: each code unit is stored
    modulo 256. *)
Definition bytesOfChars (s : jsstring) : list byte := map byteOf s.

(** [String.fromCharCode(...bytes)]. *)
Definition fromCharCode (bs : list byte) : jsstring := map Byte.to_N bs.

Definition isHighSurrogate (c : N) : bool := (0xD800 <=? c) && (c <=? 0xDBFF).
Definition isLowSurrogate (c : N) : bool := (0xDC00 <=? c) && (c <=? 0xDFFF).

(** The UTF-8 bytes of one code point. *)
Definition utf8CodePoint (cp : N) : list byte :=
  if cp <? 0x80 then [byteOf cp]
  else if cp <? 0x800 then
    [byteOf (0xC0 + cp / 64); byteOf (0x80 + cp mod 64)]
  else if cp <? 0x10000 then
    [byteOf (0xE0 + cp / 4096); byteOf (0x80 + (cp / 64) mod 64);
     byteOf (0x80 + cp mod 64)]
  else
    [byteOf (0xF0 + cp / 262144); byteOf (0x80 + (cp / 4096) mod 64);
     byteOf (0x80 + (cp / 64) mod 64); byteOf (0x80 + cp mod 64)].

(** [new TextEncoder().encode(s)]: UTF-8, a surrogate pair is one code
    point, a lone surrogate is replaced by U+FFFD. *)
Fixpoint textEncode (s : jsstring) : list byte :=
  match s with
  | [] => []
  | c :: r =>
      if isHighSurrogate c then
        match r with
        | d :: r' =>
            if isLowSurrogate d
            then utf8CodePoint (0x10000 + (c - 0xD800) * 1024 + (d - 0xDC00))
                   ++ textEncode r'
            else utf8CodePoint 0xFFFD ++ textEncode r
        | [] => utf8CodePoint 0xFFFD
        end
      else if isLowSurrogate c then utf8CodePoint 0xFFFD ++ textEncode r
      else utf8CodePoint c ++ textEncode r
  end.

(** The lowercase hexadecimal digit of a value below 16. *)
Definition hexDigit (n : N) : N :=
  if n <? 10 then 48 + n else 87 + n.

(** [b.toString(16).padStart(2, '0')] for a byte. *)
Definition hexByte (b : byte) : jsstring :=
  [hexDigit (Byte.to_N b / 16); hexDigit (Byte.to_N b mod 16)].

(** [Array.from(bytes).map(b => b.toString(16).padStart(2,'0')).join('')]. *)
Definition hexOf (bs : list byte) : jsstring := concat (map hexByte bs).

End Js.
Export Js.

(** ** base64: [btoa] and [atob] *)

Module Base64.

Definition alphabet : jsstring :=
  js "ABCDEFGHIJKLMNOPQRSTUVWXYZabcdefghijklmnopqrstuvwxyz0123456789+/".

Definition pad : N := 61.

(** The character of a 6-bit value. *)
Definition charOf (n : N) : N := nth (N.to_nat n) alphabet 0.

(** The 6-bit value of a character of the alphabet. *)
Definition indexOfChar (c : N) : option N :=
  if (65 <=? c) && (c <=? 90) then Some (c - 65)
  else if (97 <=? c) && (c <=? 122) then Some (c - 71)
  else if (48 <=? c) && (c <=? 57) then Some (c + 4)
  else if c =? 43 then Some 62
  else if c =? 47 then Some 63
  else None.

(** Base64 of a byte sequence (given as numbers below 256), with padding. *)
Fixpoint encode (l : list N) : jsstring :=
  match l with
  | [] => []
  | [a] =>
      let n := a * 16 in
      [charOf (n / 64); charOf (n mod 64); pad; pad]
  | [a; b] =>
      let n := (a * 256 + b) * 4 in
      [charOf (n / 4096); charOf ((n / 64) mod 64); charOf (n mod 64); pad]
  | a :: b :: c :: r =>
      let n := (a * 256 + b) * 256 + c in
      charOf (n / 262144) :: charOf ((n / 4096) mod 64)
        :: charOf ((n / 64) mod 64) :: charOf (n mod 64) :: encode r
  end.

(** The encoding without its padding, and the padding alone. *)
Fixpoint encodeBody (l : list N) : jsstring :=
  match l with
  | [] => []
  | [a] =>
      let n := a * 16 in
      [charOf (n / 64); charOf (n mod 64)]
  | [a; b] =>
      let n := (a * 256 + b) * 4 in
      [charOf (n / 4096); charOf ((n / 64) mod 64); charOf (n mod 64)]
  | a :: b :: c :: r =>
      let n := (a * 256 + b) * 256 + c in
      charOf (n / 262144) :: charOf ((n / 4096) mod 64)
        :: charOf ((n / 64) mod 64) :: charOf (n mod 64) :: encodeBody r
  end.

Fixpoint padding (l : list N) : jsstring :=
  match l with
  | [] => []
  | [_] => [pad; pad]
  | [_; _] => [pad]
  | _ :: _ :: _ :: r => padding r
  end.

(** [btoa(s)]: throws when a code unit is above 255. *)
Definition btoa (s : jsstring) : option jsstring :=
  if forallb (fun c => c <=? 255) s then Some (encode s) else None.

Definition isAsciiWhitespace (c : N) : bool :=
  (c =? 9) || (c =? 10) || (c =? 12) || (c =? 13) || (c =? 32).

(** Step 2 of the forgiving decode: one or two trailing '=' are dropped. *)
Definition stripPadding (s : jsstring) : jsstring :=
  match rev s with
  | a :: r =>
      if a =? pad then
        match r with
        | b :: r' => if b =? pad then rev r' else rev r
        | [] => rev r
        end
      else s
  | [] => s
  end.

(** The 6-bit values of a string, [None] when a character is outside the
    alphabet. *)
Fixpoint sextets (s : jsstring) : option (list N) :=
  match s with
  | [] => Some []
  | c :: r =>
      match indexOfChar c, sextets r with
      | Some v, Some vs => Some (v :: vs)
      | _, _ => None
      end
  end.

(** The bytes of a sequence of 6-bit values: 24 bits give three bytes; a
    rest of 18 bits gives two and a rest of 12 bits one, the surplus bits
    being discarded. *)
Fixpoint decode (l : list N) : list N :=
  match l with
  | s1 :: s2 :: s3 :: s4 :: r =>
      let n := ((s1 * 64 + s2) * 64 + s3) * 64 + s4 in
      n / 65536 :: (n / 256) mod 256 :: n mod 256 :: decode r
  | [s1; s2; s3] =>
      let n := ((s1 * 64 + s2) * 64 + s3) / 4 in
      [n / 256; n mod 256]
  | [s1; s2] => [(s1 * 64 + s2) / 16]
  | _ => []
  end.

(** [atob(s)], the forgiving-base64 decode: ASCII whitespace is removed,
    padding is dropped when the length is a multiple of four, a length of
    1 modulo 4 or a character outside the alphabet throws. *)
Definition atob (s : jsstring) : option jsstring :=
  let d := filter (fun c => isAsciiWhitespace c = false) s in
  let d := if (length d mod 4 =? 0)%nat then stripPadding d else d in
  if (length d mod 4 =? 1)%nat then None
  else match sextets d with
       | Some vs => Some (decode vs)
       | None => None
       end.

End Base64.

(** ** SHA-256 ([crypto.subtle.digest('SHA-256', bytes)], FIPS 180-4) *)

Module Sha256.

Definition mask32 (x : N) : N := x mod 4294967296.
Definition add32 (x y : N) : N := mask32 (x + y).
Definition rotr (n x : N) : N :=
  N.lor (N.shiftr x n) (mask32 (N.shiftl x (32 - n))).
Definition shr (n x : N) : N := N.shiftr x n.
Definition not32 (x : N) : N := 4294967295 - x.

Definition Ch (x y z : N) : N := N.lxor (N.land x y) (N.land (not32 x) z).
Definition Maj (x y z : N) : N :=
  N.lxor (N.lxor (N.land x y) (N.land x z)) (N.land y z).
Definition bigSigma0 (x : N) : N :=
  N.lxor (N.lxor (rotr 2 x) (rotr 13 x)) (rotr 22 x).
Definition bigSigma1 (x : N) : N :=
  N.lxor (N.lxor (rotr 6 x) (rotr 11 x)) (rotr 25 x).
Definition smallSigma0 (x : N) : N :=
  N.lxor (N.lxor (rotr 7 x) (rotr 18 x)) (shr 3 x).
Definition smallSigma1 (x : N) : N :=
  N.lxor (N.lxor (rotr 17 x) (rotr 19 x)) (shr 10 x).

(** Primality by trial division. *)
Definition isPrime (n : N) : bool :=
  forallb (fun d => negb (n mod N.of_nat d =? 0)) (seq 2 (N.to_nat n - 2)).

Definition primes : list N := filter (fun n => isPrime n = true)
                                     (map N.of_nat (seq 2 310)).

(** The largest [r' >= r], built from the [bits] low bits, with
    [r' ^ k <= n]. *)
Fixpoint rootBits (k : N) (bits : nat) (n r : N) : N :=
  match bits with
  | O => r
  | S b =>
      let r' := r + 2 ^ N.of_nat b in
      rootBits k b n (if r' ^ k <=? n then r' else r)
  end.

(** The first 32 bits of the fractional part of the [k]-th root of [p]. *)
Definition fracRoot (k p : N) : N :=
  mask32 (rootBits k 36 (p * 2 ^ (32 * k)) 0).

(** The round constants and the initial hash value of the standard: the
    fractional parts of the cube roots of the first 64 primes and of the
    square roots of the first 8. *)

Definition K : list N := Eval vm_compute in map (fracRoot 3) primes.

Definition H0 : list N := Eval vm_compute in map (fracRoot 2) (firstn 8 primes).

(** The padded message: the bytes, 0x80, zeros up to 56 modulo 64, and the
    bit length as a 64-bit big-endian number. *)
Definition be (k : nat) (x : N) : list N :=
  map (fun i => (x / 256 ^ N.of_nat i) mod 256) (rev (seq 0 k)).

Definition padded (m : list N) : list N :=
  let len := N.of_nat (length m) in
  let zeros := N.to_nat ((64 - (len + 9) mod 64) mod 64) in
  m ++ [0x80] ++ repeat 0 zeros ++ be 8 (8 * len).

(** Big-endian 32-bit words of a byte sequence. *)
Fixpoint words (l : list N) : list N :=
  match l with
  | a :: b :: c :: d :: r => ((a * 256 + b) * 256 + c) * 256 + d :: words r
  | _ => []
  end.

(** The message schedule, most recent word first: [w] holds
    W(t-1), W(t-2), ... *)
Fixpoint schedule (n : nat) (w : list N) : list N :=
  match n with
  | O => w
  | S n' =>
      let g i := nth i w 0 in
      schedule n'
        (add32 (add32 (smallSigma1 (g 1%nat)) (g 6%nat))
               (add32 (smallSigma0 (g 14%nat)) (g 15%nat)) :: w)
  end.

(** One round on the working variables a..h. *)
Definition round (s : list N) (kw : N * N) : list N :=
  match s with
  | [a; b; c; d; e; f; g; h] =>
      let t1 :=
        add32 (add32 (add32 h (bigSigma1 e)) (add32 (Ch e f g) (fst kw)))
              (snd kw) in
      let t2 := add32 (bigSigma0 a) (Maj a b c) in
      [add32 t1 t2; a; b; c; add32 d t1; e; f; g]
  | _ => s
  end.

(** The compression of one 64-byte block into the hash state. *)
Definition compress (h : list N) (block : list N) : list N :=
  let w := rev (schedule 48 (rev (words block))) in
  let s := fold_left round (combine K w) h in
  map (fun p => add32 (fst p) (snd p)) (combine h s).

Fixpoint blocks (n : nat) (l : list N) : list (list N) :=
  match n with
  | O => []
  | S n' => firstn 64 l :: blocks n' (skipn 64 l)
  end.

(** The 32 bytes of the digest. *)
Definition digest (m : list byte) : list byte :=
  let p := padded (map Byte.to_N m) in
  let h := fold_left compress (blocks (length p / 64) p) H0 in
  map byteOf (concat (map (be 4) h)).

End Sha256.

(** ** The platform and library functions the sources call *)

(** [@noble/ed25519]: [ed.getPublicKey(priv)], [ed.sign(msg, priv)] and
    [ed.verify(sig, msg, pub)] on byte arrays.  [None] is a thrown
    exception (a key or signature of the wrong length, a point that does
    not decode). *)
Class Ed25519 : Type := {
  ed_getPublicKey : list byte -> option (list byte);
  ed_sign : list byte -> list byte -> option (list byte);
  ed_verify : list byte -> list byte -> list byte -> option bool
}.

(** What the library promises of a 32-byte private key: it has a public
    key, it signs every message, and the signature verifies under that
    public key. *)
Definition Ed25519Correct (E : Ed25519) : Prop :=
  forall (priv msg : list byte),
    length priv = 32%nat ->
    exists pub sg,
      ed_getPublicKey priv = Some pub /\
      ed_sign msg priv = Some sg /\
      ed_verify sg msg pub = Some true.

(** [new Date(s).getTime()]: the milliseconds since the epoch, [None] for
    NaN (a string that is not a date). *)
Class DateParser : Type := {
  dateGetTime : jsstring -> option Z
}.

(* ===================================================================== *)
(** * Part II. The sources                                                *)
(* ===================================================================== *)

(** ** utils/crypto *)

Module Crypto.

Definition nl : jsstring := [10].

(** A value interpolated into a template literal: a string, or a promise
    of one. *)
Inductive jsval : Type :=
| VString (s : jsstring)
| VPromise (fulfilment : jsstring).

(** The string a template literal makes of a value: a promise is an
    object whose [toString] is [Object.prototype.toString]. *)
Definition toTemplate (v : jsval) : jsstring :=
  match v with
  | VString s => s
  | VPromise _ => js "[object Promise]"
  end.

Record KeyPair : Type := { publicKey : jsstring; privateKey : jsstring }.

Section WithEd25519.
Context {E : Ed25519}.

(** The [try] block of [verifySignature]; [None] when it throws. *)
Definition verifyAttempt (publicKey message signature : jsstring)
  : option bool :=
  let parts := split (js ":") publicKey in
  let keyBase64 := default (js "undefined") (parts !! 0%nat) in
  let algo := parts !! 1%nat in
  if decide (algo = Some (js "ed25519")) then
    publicKeyBytes ← bytesOfChars <$> Base64.atob keyBase64;
    signatureBytes ← bytesOfChars <$> Base64.atob signature;
    let messageBytes := textEncode message in
    ed_verify signatureBytes messageBytes publicKeyBytes
  else None.

(** [verifySignature(publicKey, message, signature)]: the [catch] turns
    every exception into [false]. *)
Definition verifySignature (publicKey message signature : jsstring) : bool :=
  match verifyAttempt publicKey message signature with
  | Some b => b
  | None => false
  end.

(** [signMessage(privateKey, message)]; it has no [try], so a private key
    that is not base64 or is refused by the library throws. *)
Definition signMessage (privateKey message : jsstring) : option jsstring :=
  privateKeyBytes ← bytesOfChars <$> Base64.atob privateKey;
  let messageBytes := textEncode message in
  signature ← ed_sign messageBytes privateKeyBytes;
  Base64.btoa (fromCharCode signature).

(** [generateKeyPair()]; [seed] is the result of
    [ed.utils.randomPrivateKey()]. *)
Definition generateKeyPair (seed : list byte) : option KeyPair :=
  let privateKey := seed in
  publicKey ← ed_getPublicKey privateKey;
  pub ← Base64.btoa (fromCharCode publicKey);
  priv ← Base64.btoa (fromCharCode privateKey);
  Some {| publicKey := pub; privateKey := priv |}.

End WithEd25519.

(** [sha256(input)]: the lowercase hex digest of the UTF-8 bytes. *)
Definition sha256 (input : jsstring) : jsstring :=
  hexOf (Sha256.digest (textEncode input)).

(** [buildCanonicalString(method, path, timestamp, body)].  The function
    is not [async]: [bodyHash] is the promise returned by [.then], and the
    template literal interpolates the promise itself. *)
Definition buildCanonicalString (method path timestamp body : jsstring)
  : jsstring :=
  let bodyHash := VPromise (hexOf (Sha256.digest (textEncode body))) in
  method ++ js " " ++ path ++ nl ++ timestamp ++ nl ++ toTemplate bodyHash.

(** The canonical string as the specification words it:
    "{METHOD} {PATH}\n{TIMESTAMP}\n{hex(sha256(BODY))}". *)
Definition canonicalStringSpec (method path timestamp body : jsstring)
  : jsstring :=
  method ++ js " " ++ path ++ nl ++ timestamp ++ nl ++ sha256 body.

End Crypto.

(** ** The D1 database (migrations/0001_initial.sql) *)

Module Store.

(** A row of [clawfiles]; the primary key [public_key] is the key of the
    map that holds it.  Timestamps are instants (milliseconds since the
    epoch) standing for the ISO-8601 text the handlers store. *)
Record Clawfile : Type := {
  mention_name : jsstring;
  display_name : jsstring;
  human_parent : option jsstring;
  verification_tier : Z;
  status : jsstring;
  home_node : jsstring;
  rotated_from : option jsstring;
  rotated_to : option jsstring;
  created_at : Z;
  updated_at : Z
}.

(** A row of [clawfile_profiles] (primary key [public_key]), with the
    columns the registration writes; [profile_created_at] and
    [profile_updated_at] are its [created_at] and [updated_at]. *)
Record Profile : Type := {
  bio : option jsstring;
  principles : option jsstring;
  avatar_url : option jsstring;
  profile_created_at : Z;
  profile_updated_at : Z
}.

(** A row of [plaza_messages]; [posted_at] is its column [created_at]. *)
Record PlazaMessage : Type := {
  id : jsstring;
  author_id : jsstring;
  content : jsstring;
  content_type : jsstring;
  reply_to : option jsstring;
  community_id : option jsstring;
  visibility : jsstring;
  signature : jsstring;
  origin_node : jsstring;
  posted_at : Z
}.

(** A row of [ledger_entries]; [entry_id] and [logged_at] are its columns
    [id] and [created_at]. *)
Record LedgerEntry : Type := {
  entry_id : jsstring;
  actor_id : jsstring;
  action : jsstring;
  target_type : jsstring;
  target_id : jsstring;
  logged_at : Z
}.

(** The tables the modelled routes read and write; [communities] holds
    the ids of that table.  The triggers that keep counters and
    [updated_at] are left out: no modelled route reads what they write. *)
Record DB : Type := {
  clawfiles : gmap jsstring Clawfile;
  clawfile_profiles : gmap jsstring Profile;
  plaza_messages : list PlazaMessage;
  communities : list jsstring;
  ledger_entries : list LedgerEntry
}.

(** The lineage invariant of the identity table: a record with
    [rotated_to = X] has status "rotated", and the record at [X] points
    back with [rotated_from]. *)
Definition lineageInvariant (db : DB) : Prop :=
  forall key row next,
    clawfiles db !! key = Some row ->
    rotated_to row = Some next ->
    status row = js "rotated"
    /\ exists successor,
         clawfiles db !! next = Some successor
         /\ rotated_from successor = Some key.

(** [SELECT 1 FROM clawfiles WHERE mention_name = ?]. *)
Definition mentionTaken (db : DB) (name : jsstring) : bool :=
  bool_decide (Exists (fun kv => mention_name kv.2 = name)
                      (map_to_list (clawfiles db))).

(** [INSERT INTO clawfiles]: refused ([None], the driver throws) when the
    primary key or the unique [mention_name] is already there.  The CHECKs
    on tier, status and the form of the mention name hold of every row the
    registration writes. *)
Definition insertClawfile (db : DB) (key : jsstring) (row : Clawfile)
  : option DB :=
  match clawfiles db !! key with
  | Some _ => None
  | None =>
      if mentionTaken db (mention_name row) then None
      else Some {| clawfiles := <[key := row]> (clawfiles db);
                   clawfile_profiles := clawfile_profiles db;
                   plaza_messages := plaza_messages db;
                   communities := communities db;
                   ledger_entries := ledger_entries db |}
  end.

(** [INSERT INTO clawfile_profiles]: refused when the primary key is
    already there or no clawfile has that key (foreign key). *)
Definition insertProfile (db : DB) (key : jsstring) (row : Profile)
  : option DB :=
  match clawfile_profiles db !! key, clawfiles db !! key with
  | None, Some _ =>
      Some {| clawfiles := clawfiles db;
              clawfile_profiles := <[key := row]> (clawfile_profiles db);
              plaza_messages := plaza_messages db;
              communities := communities db;
              ledger_entries := ledger_entries db |}
  | _, _ => None
  end.

(** [SELECT 1 FROM plaza_messages WHERE id = ?]. *)
Definition postExists (db : DB) (i : jsstring) : bool :=
  existsb (fun m => bool_decide (id m = i)) (plaza_messages db).

(** The constraints of [plaza_messages] on a new row: primary key, the
    two CHECKs, and the foreign keys. *)
Definition plazaRowAccepted (db : DB) (m : PlazaMessage) : bool :=
  negb (postExists db (id m))
  && bool_decide (content_type m ∈ [js "text/plain"; js "text/markdown"])
  && bool_decide (visibility m ∈ [js "public"; js "community"; js "followers"])
  && bool_decide (is_Some (clawfiles db !! author_id m))
  && match reply_to m with
     | Some p => postExists db p
     | None => true
     end
  && match community_id m with
     | Some c => bool_decide (c ∈ communities db)
     | None => true
     end.

(** [INSERT INTO plaza_messages]. *)
Definition insertPlazaMessage (db : DB) (m : PlazaMessage) : option DB :=
  if plazaRowAccepted db m
  then Some {| clawfiles := clawfiles db;
               clawfile_profiles := clawfile_profiles db;
               plaza_messages := plaza_messages db ++ [m];
               communities := communities db;
               ledger_entries := ledger_entries db |}
  else None.

(** [INSERT INTO ledger_entries]: primary key [id], foreign key
    [actor_id]. *)
Definition insertLedgerEntry (db : DB) (e : LedgerEntry) : option DB :=
  if existsb (fun x => bool_decide (entry_id x = entry_id e)) (ledger_entries db)
     || negb (bool_decide (is_Some (clawfiles db !! actor_id e)))
  then None
  else Some {| clawfiles := clawfiles db;
               clawfile_profiles := clawfile_profiles db;
               plaza_messages := plaza_messages db;
               communities := communities db;
               ledger_entries := ledger_entries db ++ [e] |}.

(** The UTC calendar date of an instant, as the number of its day since
    the epoch.  [new Date().toISOString().split('T')[0]] and SQLite's
    [date(created_at)] both render that day as YYYY-MM-DD (years 0000 to
    9999), so two instants give the same text exactly when they give the
    same day number. *)
Definition utcDate (ms : Z) : Z := (ms / 86400000)%Z.

(** [SELECT COUNT( * ) FROM plaza_messages WHERE author_id = ? AND
    date(created_at) = ?]. *)
Definition countPostsOn (db : DB) (author : jsstring) (day : Z) : nat :=
  length (filter (fun m => author_id m = author /\ utcDate (posted_at m) = day)
                 (plaza_messages db)).

End Store.

(** ** HTTP requests and responses *)

Module Http.

(** What the middleware reads of a request: the three signature headers
    ([None] when the header is absent), the method, the full URL and the
    body text. *)
Record Request : Type := {
  method : jsstring;
  url : jsstring;
  xPublicKey : option jsstring;
  xSignature : option jsstring;
  xTimestamp : option jsstring;
  body : jsstring
}.

(** The JSON responses of the routes modelled here. *)
Inductive Response : Type :=
| ErrorJson (httpStatus : Z) (code message : jsstring)
| ClawfileCreated (public_key mention_name display_name : jsstring)
    (verification_tier : Z) (status home_node : jsstring) (created_at : Z)
| PostCreated (id author_id content content_type : jsstring)
    (reply_to community_id : option jsstring) (created_at : Z).

(** The HTTP status of a response. *)
Definition httpStatusOf (r : Response) : Z :=
  match r with
  | ErrorJson s _ _ => s
  | ClawfileCreated _ _ _ _ _ _ _ => 201
  | PostCreated _ _ _ _ _ _ _ => 201
  end.

(** The error code of a response, when it is an error. *)
Definition errorCodeOf (r : Response) : option jsstring :=
  match r with
  | ErrorJson _ c _ => Some c
  | _ => None
  end.

(** [errorHandler]: an exception that escapes a handler becomes a 500
    (the request id and the time of the body are left out). *)
Definition errorHandler : Response :=
  ErrorJson 500 (js "internal_error") (js "An unexpected error occurred").

(** A header or JSON field that JavaScript finds truthy: present and not
    the empty string. *)
Definition truthy (v : option jsstring) : option jsstring :=
  match v with
  | Some (c :: s) => Some (c :: s)
  | _ => None
  end.

End Http.

(** ** middleware/auth *)

Module Auth.
Import Http Store.

(** The [identity] of an [AuthContext]: the four columns the middleware
    selects. *)
Record Identity : Type := {
  id_mention_name : jsstring;
  id_display_name : jsstring;
  id_verification_tier : Z;
  id_status : jsstring
}.

Record AuthContext : Type := {
  authPublicKey : jsstring;
  identity : Identity
}.

(** What a middleware does with a request: answer it, or call [next()]
    with the context it has set (if any). *)
Inductive Outcome : Type :=
| Respond (r : Response)
| Next (auth : option AuthContext).

(** [Math.floor(ms / 1000)]. *)
Definition seconds (ms : Z) : Z := (ms / 1000)%Z.

(** [skew = Math.abs(now - reqTime)]; [None] is NaN. *)
Definition skewOf (nowMs : Z) (reqMs : option Z) : option Z :=
  (fun t => Z.abs (seconds nowMs - seconds t)) <$> reqMs.

(** [skew > 60]: a comparison with NaN is false. *)
Definition skewTooLarge (skew : option Z) : bool :=
  match skew with
  | Some s => (60 <? s)%Z
  | None => false
  end.

(** [`${skew}`]. *)
Definition skewText (skew : option Z) : jsstring :=
  match skew with
  | Some s => ofInt s
  | None => js "NaN"
  end.

(** [c.req.url.replace(c.req.url.split('/api')[0], '')]. *)
Definition canonicalPath (url : jsstring) : jsstring :=
  replace (default [] (split (js "/api") url !! 0%nat)) [] url.

(** The canonical string the middleware builds and verifies. *)
Definition canonicalStringOf (req : Request) (timestamp : jsstring)
  : jsstring :=
  let path := canonicalPath (url req) in
  let bodyHashHex := hexOf (Sha256.digest (textEncode (body req))) in
  method req ++ js " " ++ path ++ Crypto.nl ++ timestamp ++ Crypto.nl
    ++ bodyHashHex.

(** The last part of [authMiddleware]: the lookup of the identity by its
    public key and the check of its status. *)
Definition resolveIdentity (db : DB) (publicKey : jsstring) : Outcome :=
  match clawfiles db !! publicKey with
  | None =>
      Respond (ErrorJson 401 (js "unknown_identity")
                 (js "Public key not registered"))
  | Some row =>
      if decide (Store.status row = js "active") then
        Next (Some {| authPublicKey := publicKey;
                      identity :=
                        {| id_mention_name := Store.mention_name row;
                           id_display_name := Store.display_name row;
                           id_verification_tier := Store.verification_tier row;
                           id_status := Store.status row |} |})
      else
        Respond (ErrorJson 401 (js "inactive_identity")
                   (js "Identity status: " ++ Store.status row))
  end.

Section WithRuntime.
Context {E : Ed25519} {D : DateParser}.

(** The middle part of [authMiddleware]: the canonical string, the
    signature check, and what follows it. *)
Definition verifyAndResolve (db : DB) (req : Request)
    (publicKey signature timestamp : jsstring) : Outcome :=
  let canonicalString := canonicalStringOf req timestamp in
  let isValid := Crypto.verifySignature publicKey canonicalString signature in
  if negb isValid then
    Respond (ErrorJson 401 (js "invalid_signature")
               (js "Signature verification failed"))
  else resolveIdentity db publicKey.

(** [authMiddleware(options)] applied to a request; [nowMs] is
    [Date.now()]. *)
Definition authMiddleware (required : bool) (db : DB) (nowMs : Z)
    (req : Request) : Outcome :=
  match truthy (xPublicKey req), truthy (xSignature req),
        truthy (xTimestamp req) with
  | Some publicKey, Some signature, Some timestamp =>
      let skew := skewOf nowMs (dateGetTime timestamp) in
      if skewTooLarge skew then
        Respond (ErrorJson 401 (js "timestamp_skew")
                   (js "Timestamp skew too large (" ++ skewText skew
                      ++ js "s). Check system clock."))
      else verifyAndResolve db req publicKey signature timestamp
  | _, _, _ =>
      if required then
        Respond (ErrorJson 401 (js "missing_auth")
                   (js "X-Public-Key, X-Signature, and X-Timestamp headers required"))
      else Next None
  end.

Definition optionalAuth : DB -> Z -> Request -> Outcome :=
  authMiddleware false.

Definition requireAuth : DB -> Z -> Request -> Outcome :=
  authMiddleware true.

End WithRuntime.

End Auth.

(** ** handlers/clawfiles *)

Module Clawfiles.
Import Http Store Auth.

(** The JSON body of a registration whose fields are strings where they
    are given ([None] when a field is absent or null);
    [proof_signature] is [proof?.signature].  A body with a number, a
    boolean, an array or an object in a field is outside this type. *)
Record RegisterBody : Type := {
  public_key : option jsstring;
  mention_name : option jsstring;
  display_name : option jsstring;
  human_parent : option jsstring;
  bio : option jsstring;
  principles : option jsstring;
  avatar_url : option jsstring;
  proof_signature : option jsstring
}.

(** The body [b] with [proof.signature] replaced. *)
Definition withProof (b : RegisterBody) (sg : option jsstring) : RegisterBody :=
  {| public_key := public_key b;
     mention_name := mention_name b;
     display_name := display_name b;
     human_parent := human_parent b;
     bio := bio b;
     principles := principles b;
     avatar_url := avatar_url b;
     proof_signature := sg |}.

(** A character of the class [[a-zA-Z0-9_-]]. *)
Definition mentionChar (c : N) : bool :=
  ((97 <=? c) && (c <=? 122)) || ((65 <=? c) && (c <=? 90))
  || ((48 <=? c) && (c <=? 57)) || (c =? 95) || (c =? 45).

(** [/^[a-zA-Z0-9_-]+$/.test(s)]. *)
Definition mentionPattern (s : jsstring) : bool :=
  negb (Nat.eqb (length s) 0) && forallb mentionChar s.

(** [POST /clawfiles]; [nowMs] is the instant of [new Date()]. *)
Definition clawfilesPost (db : DB) (nowMs : Z) (b : RegisterBody)
  : Response * DB :=
  match truthy (public_key b), truthy (mention_name b),
        truthy (display_name b), truthy (proof_signature b) with
  | Some public_key, Some mention_name, Some display_name, Some _ =>
      if negb (mentionPattern mention_name)
         || (length mention_name <? 2)%nat || (32 <? length mention_name)%nat
      then (ErrorJson 400 (js "invalid_mention")
              (js "Mention name must be 2-32 alphanumeric characters, underscores, or hyphens"),
            db)
      else if mentionTaken db mention_name
      then (ErrorJson 409 (js "conflict") (js "Mention name already taken"), db)
      else
        (* TODO of the source: the proof signature is not verified *)
        let now := nowMs in
        match insertClawfile db public_key
                {| Store.mention_name := mention_name;
                   Store.display_name := display_name;
                   Store.human_parent := truthy (human_parent b);
                   Store.verification_tier := 0;
                   Store.status := js "active";
                   Store.home_node := js "clawish.com";
                   Store.rotated_from := None;
                   Store.rotated_to := None;
                   Store.created_at := now;
                   Store.updated_at := now |} with
        | None => (errorHandler, db)
        | Some db1 =>
            match insertProfile db1 public_key
                    {| Store.bio := truthy (bio b);
                       Store.principles := truthy (principles b);
                       Store.avatar_url := truthy (avatar_url b);
                       Store.profile_created_at := now;
                       Store.profile_updated_at := now |} with
            | None => (errorHandler, db1)
            | Some db2 =>
                (ClawfileCreated public_key mention_name display_name 0
                   (js "active") (js "clawish.com") now, db2)
            end
        end
  | _, _, _, _ =>
      (ErrorJson 400 (js "bad_request")
         (js "Missing required fields: public_key, mention_name, display_name, proof.signature"),
       db)
  end.

(** The handler of [POST /clawfiles/me/rotate]. *)
Definition rotateHandler (db : DB) (auth : AuthContext) : Response * DB :=
  (ErrorJson 501 (js "not_implemented") (js "Key rotation not yet implemented"),
   db).

Section WithRuntime.
Context {E : Ed25519} {D : DateParser}.

(** [POST /clawfiles/me/rotate] behind [requireAuth]. *)
Definition clawfilesRotate (db : DB) (nowMs : Z) (req : Request)
  : Response * DB :=
  match requireAuth db nowMs req with
  | Respond r => (r, db)
  | Next (Some auth) => rotateHandler db auth
  | Next None => (errorHandler, db)
  end.

End WithRuntime.

End Clawfiles.

(** ** handlers/plaza *)

Module Plaza.
Import Http Store Auth.

(** The JSON body of a post whose fields are strings where they are
    given; [None] is a field that is absent (for [content], [reply_to]
    and [community_id] also one that is null).  A null [content_type] or
    [visibility], which the route binds as NULL, and a field that is not
    a string are outside this type. *)
Record PostBody : Type := {
  content : option jsstring;
  content_type : option jsstring;
  reply_to : option jsstring;
  community_id : option jsstring;
  visibility : option jsstring
}.

Definition rateLimitMessage : jsstring :=
  js "Tier 0 users limited to 1 post per day. Get parent-vouched to unlock unlimited posting.".

(** The rate limit of unverified identities: [Some] response when the
    request is refused.  [checkMs] is the instant of the [new Date()]
    that gives [today]. *)
Definition rateLimit (db : DB) (auth : AuthContext) (checkMs : Z)
  : option Response :=
  if decide (id_verification_tier (identity auth) = 0%Z) then
    let today := utcDate checkMs in
    let postCount := countPostsOn db (authPublicKey auth) today in
    if (1 <=? postCount)%nat
    then Some (ErrorJson 429 (js "rate_limited") rateLimitMessage)
    else None
  else None.

(** The handler of [POST /plaza].  [checkMs] and [nowMs] are the two
    readings of the clock (for [today] and for [created_at]); [postId] and
    [ledgerId] are the two random UUIDs. *)
Definition postHandler (db : DB) (auth : AuthContext) (checkMs nowMs : Z)
    (postId ledgerId : jsstring) (b : PostBody) : Response * DB :=
  let content_type := default (js "text/plain") (content_type b) in
  let visibility := default (js "public") (visibility b) in
  match truthy (content b) with
  | None =>
      (ErrorJson 400 (js "bad_request")
         (js "Content required, max 5000 characters"), db)
  | Some content =>
      if (5000 <? length content)%nat then
        (ErrorJson 400 (js "bad_request")
           (js "Content required, max 5000 characters"), db)
      else
        match rateLimit db auth checkMs with
        | Some refusal => (refusal, db)
        | None =>
            if match truthy (reply_to b) with
               | Some p => negb (postExists db p)
               | None => false
               end
            then (ErrorJson 404 (js "not_found") (js "Parent post not found"), db)
            else
              let now := nowMs in
              match insertPlazaMessage db
                      {| Store.id := postId;
                         Store.author_id := authPublicKey auth;
                         Store.content := content;
                         Store.content_type := content_type;
                         Store.reply_to := truthy (reply_to b);
                         Store.community_id := truthy (community_id b);
                         Store.visibility := visibility;
                         Store.signature := js "placeholder_signature";
                         Store.origin_node := js "clawish.com";
                         Store.posted_at := now |} with
              | None => (errorHandler, db)
              | Some db1 =>
                  match insertLedgerEntry db1
                          {| entry_id := ledgerId;
                             actor_id := authPublicKey auth;
                             action := js "post.create";
                             target_type := js "post";
                             target_id := postId;
                             logged_at := now |} with
                  | None => (errorHandler, db1)
                  | Some db2 =>
                      (PostCreated postId (authPublicKey auth) content
                         content_type (reply_to b) (community_id b) now, db2)
                  end
              end
        end
  end.

Section WithRuntime.
Context {E : Ed25519} {D : DateParser}.

(** [POST /plaza] behind [requireAuth]; [authMs] is the clock reading of
    the middleware. *)
Definition plazaPost (db : DB) (authMs checkMs nowMs : Z)
    (postId ledgerId : jsstring) (req : Request) (b : PostBody)
  : Response * DB :=
  match requireAuth db authMs req with
  | Respond r => (r, db)
  | Next (Some auth) => postHandler db auth checkMs nowMs postId ledgerId b
  | Next None => (errorHandler, db)
  end.

End WithRuntime.

End Plaza.

(** ** Instances of the runtime used to exhibit concrete runs *)

Module Demo.

(** A stand-in for the signature library that meets [Ed25519Correct]: the
    public key is the digest of the private key and a signature is a pair
    of digests over the public key and the message.  It serves to run the
    sources on concrete requests; nothing is claimed about its security. *)
Definition demoTag (pub msg : list byte) : list byte :=
  Sha256.digest (pub ++ msg) ++ Sha256.digest (msg ++ pub).

#[export] Instance demoEd : Ed25519 := {|
  ed_getPublicKey priv :=
    if decide (length priv = 32%nat) then Some (Sha256.digest priv) else None;
  ed_sign msg priv :=
    if decide (length priv = 32%nat)
    then Some (demoTag (Sha256.digest priv) msg) else None;
  ed_verify sg msg pub :=
    if decide (length sg = 64%nat /\ length pub = 32%nat)
    then Some (bool_decide (sg = demoTag pub msg)) else None
|}.

(** The value of a string of decimal digits. *)
Fixpoint digitsValue (acc : Z) (s : jsstring) : option Z :=
  match s with
  | [] => Some acc
  | c :: r =>
      if (48 <=? c) && (c <=? 57)
      then digitsValue (acc * 10 + Z.of_N (c - 48))%Z r
      else None
  end.

(** Days from the epoch to a civil date of the proleptic Gregorian
    calendar. *)
Definition daysFromCivil (y m d : Z) : Z :=
  (let y' := if m <=? 2 then y - 1 else y in
   let era := y' / 400 in
   let yoe := y' - era * 400 in
   let mp := if 2 <? m then m - 3 else m + 9 in
   let doy := (153 * mp + 2) / 5 + d - 1 in
   let doe := yoe * 365 + yoe / 4 - yoe / 100 + doy in
   era * 146097 + doe - 719468)%Z.

(** A date parser for the form YYYY-MM-DDTHH:MM:SSZ; every other string
    is NaN. *)
Definition parseIso (s : jsstring) : option Z :=
  match s with
  | [y1; y2; y3; y4; 45; m1; m2; 45; d1; d2; 84; h1; h2; 58; n1; n2; 58;
     s1; s2; 90] =>
      y ← digitsValue 0 [y1; y2; y3; y4];
      m ← digitsValue 0 [m1; m2];
      d ← digitsValue 0 [d1; d2];
      h ← digitsValue 0 [h1; h2];
      n ← digitsValue 0 [n1; n2];
      sec ← digitsValue 0 [s1; s2];
      Some ((((daysFromCivil y m d * 24 + h) * 60 + n) * 60 + sec) * 1000)%Z
  | _ => None
  end.

#[export] Instance demoDate : DateParser := {| dateGetTime := parseIso |}.

(** A seed, and the key pair and the signature of "hello" that the
    sources make of it with [demoEd]. *)
Definition demoSeed : list byte := repeat x07 32.

Definition demoKeyPair : Crypto.KeyPair :=
  {| Crypto.publicKey := js "S7Bvjk46dxXSAdVz0KpCN2LlXavWGiwCJ4+lbMbSlOA=";
     Crypto.privateKey := js "BwcHBwcHBwcHBwcHBwcHBwcHBwcHBwcHBwcHBwcHBwc=" |}.

Definition demoSignature : jsstring :=
  js "QsaavinoBI+sSq4svrE2eOkUHga+xhtoDHrMs5Nu+7ennvH7wqbM2nH9yrl7iPymO3PjSr00fQX+ZwXwBR+hCQ==".

(** The public key in the form the server expects, and a store in which
    it is registered with a given status and tier. *)
Definition demoPublicKey : jsstring :=
  Crypto.publicKey demoKeyPair ++ js ":ed25519".

Definition demoClawfile (status : jsstring) (tier : Z) : Store.Clawfile :=
  {| Store.mention_name := js "alice";
     Store.display_name := js "Alice";
     Store.human_parent := None;
     Store.verification_tier := tier;
     Store.status := status;
     Store.home_node := js "clawish.com";
     Store.rotated_from := None;
     Store.rotated_to := None;
     Store.created_at := 1793491200000;
     Store.updated_at := 1793491200000 |}.

Definition demoProfile : Store.Profile :=
  {| Store.bio := None; Store.principles := None; Store.avatar_url := None;
     Store.profile_created_at := 1793491200000;
     Store.profile_updated_at := 1793491200000 |}.

Definition demoDb (status : jsstring) (tier : Z) : Store.DB :=
  {| Store.clawfiles := {[ demoPublicKey := demoClawfile status tier ]};
     Store.clawfile_profiles := {[ demoPublicKey := demoProfile ]};
     Store.plaza_messages := [];
     Store.communities := [];
     Store.ledger_entries := [] |}.

Definition emptyDb : Store.DB :=
  {| Store.clawfiles := ∅;
     Store.clawfile_profiles := ∅;
     Store.plaza_messages := [];
     Store.communities := [];
     Store.ledger_entries := [] |}.

(** 2026-11-02T00:00:00Z, the timestamp of the demo requests, and the
    instant it names. *)
Definition demoTimestamp : jsstring := js "2026-11-02T00:00:00Z".
Definition demoInstant : Z := 1793577600000.

Definition demoBody : jsstring :=
  js "{" ++ [34] ++ js "content" ++ [34] ++ js ":" ++ [34] ++ js "hi"
    ++ [34] ++ js "}".

(** A POST to [url] that carries the demo key and timestamp, signed over
    its canonical string with the demo private key. *)
Definition demoRequest (url : jsstring) : Http.Request :=
  let unsigned :=
    {| Http.method := js "POST"; Http.url := url;
       Http.xPublicKey := Some demoPublicKey;
       Http.xSignature := None;
       Http.xTimestamp := Some demoTimestamp;
       Http.body := demoBody |} in
  {| Http.method := js "POST"; Http.url := url;
     Http.xPublicKey := Some demoPublicKey;
     Http.xSignature :=
       Crypto.signMessage (E := demoEd) (Crypto.privateKey demoKeyPair)
         (Auth.canonicalStringOf unsigned demoTimestamp);
     Http.xTimestamp := Some demoTimestamp;
     Http.body := demoBody |}.

(** The same request with no signature headers at all. *)
Definition bareRequest (url : jsstring) : Http.Request :=
  {| Http.method := js "GET"; Http.url := url;
     Http.xPublicKey := None; Http.xSignature := None;
     Http.xTimestamp := None; Http.body := [] |}.

Definition demoUrl : jsstring := js "https://clawish.com/api/v1/plaza".

(** A request whose timestamp header is not a date, and one that lacks
    the timestamp header. *)
Definition undatedRequest : Http.Request :=
  {| Http.method := js "GET"; Http.url := demoUrl;
     Http.xPublicKey := Some demoPublicKey;
     Http.xSignature := Some (js "c2ln");
     Http.xTimestamp := Some (js "yesterday");
     Http.body := [] |}.

Definition unstampedRequest : Http.Request :=
  {| Http.method := js "GET"; Http.url := demoUrl;
     Http.xPublicKey := Some demoPublicKey;
     Http.xSignature := Some (js "c2ln");
     Http.xTimestamp := None;
     Http.body := [] |}.
Definition rotateUrl : jsstring :=
  js "https://clawish.com/api/v1/clawfiles/me/rotate".

(** The context the middleware sets for the demo identity at tier 0. *)
Definition demoAuth : Auth.AuthContext :=
  {| Auth.authPublicKey := demoPublicKey;
     Auth.identity :=
       {| Auth.id_mention_name := js "alice";
          Auth.id_display_name := js "Alice";
          Auth.id_verification_tier := 0;
          Auth.id_status := js "active" |} |}.

(** A post, the two rows it writes, and the store after it. *)
Definition demoPost : Plaza.PostBody :=
  {| Plaza.content := Some (js "hi");
     Plaza.content_type := None;
     Plaza.reply_to := None;
     Plaza.community_id := None;
     Plaza.visibility := None |}.




(** A registration of the demo key under another name. *)
Definition demoRegistration (key : jsstring) : Clawfiles.RegisterBody :=
  {| Clawfiles.public_key := Some key;
     Clawfiles.mention_name := Some (js "bob");
     Clawfiles.display_name := Some (js "Bob");
     Clawfiles.human_parent := None;
     Clawfiles.bio := None;
     Clawfiles.principles := None;
     Clawfiles.avatar_url := None;
     Clawfiles.proof_signature := Some (js "not-a-signature") |}.

(** A store that holds a lineage: the demo key rotated to a second key. *)
Definition successorKey : jsstring := js "bmV3a2V5:ed25519".

Definition rotatedClawfile : Store.Clawfile :=
  {| Store.mention_name := js "alice";
     Store.display_name := js "Alice";
     Store.human_parent := None;
     Store.verification_tier := 1;
     Store.status := js "rotated";
     Store.home_node := js "clawish.com";
     Store.rotated_from := None;
     Store.rotated_to := Some successorKey;
     Store.created_at := 1793491200000;
     Store.updated_at := 1793577600000 |}.

Definition successorClawfile : Store.Clawfile :=
  {| Store.mention_name := js "alice2";
     Store.display_name := js "Alice";
     Store.human_parent := None;
     Store.verification_tier := 1;
     Store.status := js "active";
     Store.home_node := js "clawish.com";
     Store.rotated_from := Some demoPublicKey;
     Store.rotated_to := None;
     Store.created_at := 1793577600000;
     Store.updated_at := 1793577600000 |}.

Definition lineageDb : Store.DB :=
  {| Store.clawfiles :=
       <[demoPublicKey := rotatedClawfile]>
         {[ successorKey := successorClawfile ]};
     Store.clawfile_profiles := ∅;
     Store.plaza_messages := [];
     Store.communities := [];
     Store.ledger_entries := [] |}.

(** The URL of the plaza with a query string. *)
Definition queryUrl : jsstring := demoUrl ++ js "?limit=5".

End Demo.

(** ** The constraints of the schema as invariants *)

Module Schema.
Import Store.

(** The CHECKs of [clawfiles] on a row, and the rule of the registration
    route on the length of a mention name. *)
Definition clawfileChecks (row : Clawfile) : Prop :=
  (0 <= verification_tier row <= 3)%Z
  /\ status row ∈ [js "active"; js "rotated"; js "suspended"; js "archived"]
  /\ Clawfiles.mentionPattern (mention_name row) = true
  /\ (2 <= length (mention_name row) <= 32)%nat.

(** [clawfiles] and [clawfile_profiles]: the CHECKs, UNIQUE on
    [mention_name], and the foreign key of the profiles. *)
Definition identityTables (db : DB) : Prop :=
  (forall key row, clawfiles db !! key = Some row -> clawfileChecks row)
  /\ (forall k1 k2 r1 r2,
        clawfiles db !! k1 = Some r1 -> clawfiles db !! k2 = Some r2 ->
        mention_name r1 = mention_name r2 -> k1 = k2)
  /\ (forall key p,
        clawfile_profiles db !! key = Some p -> is_Some (clawfiles db !! key)).

(** Every reply names a post stored before it. *)
Definition threadsGrounded (posts : list PlazaMessage) : Prop :=
  forall i m p,
    posts !! i = Some m -> reply_to m = Some p ->
    exists j n, (j < i)%nat /\ posts !! j = Some n /\ id n = p.

(** [plaza_messages]: the primary key, the foreign key of the author, the
    CHECKs, grounded threads, and the rule of the posting route on the
    length of the content. *)
Definition plazaTable (db : DB) : Prop :=
  NoDup (id <$> plaza_messages db)
  /\ threadsGrounded (plaza_messages db)
  /\ Forall (fun m =>
       is_Some (clawfiles db !! author_id m)
       /\ content_type m ∈ [js "text/plain"; js "text/markdown"]
       /\ visibility m ∈ [js "public"; js "community"; js "followers"]
       /\ (1 <= length (content m) <= 5000)%nat) (plaza_messages db).

(** [ledger_entries]: the primary key, the foreign key of the actor, and
    every "post.create" entry names a stored post of the actor. *)
Definition ledgerTable (db : DB) : Prop :=
  NoDup (entry_id <$> ledger_entries db)
  /\ Forall (fun e =>
       is_Some (clawfiles db !! actor_id e)
       /\ (action e = js "post.create" ->
           exists m, m ∈ plaza_messages db
                     /\ id m = target_id e /\ author_id m = actor_id e))
       (ledger_entries db).

End Schema.


(** ** The database engine and the JSON answers of the other routes *)

Module Sql.

(** What the engine is free to choose: the row that [.first()] returns
    when several rows match and the statement has no ORDER BY, and the
    order among rows whose sort keys are equal.  [None] of [firstRow] is
    the [null] of an empty result. *)
Class Engine : Type := {
  firstRow : forall {A : Type}, list A -> option A;
  orderByDesc : forall {A : Type}, (A -> Z) -> list A -> list A
}.

(** [l] is in descending order of [key]. *)
Definition descending {A : Type} (key : A -> Z) (l : list A) : Prop :=
  forall i j a b,
    (i < j)%nat -> l !! i = Some a -> l !! j = Some b -> (key b <= key a)%Z.

(** What SQL promises of the two choices. *)
Definition EngineSound (G : Engine) : Prop :=
  (forall (A : Type) (l : list A),
     match firstRow l with
     | Some x => x ∈ l
     | None => l = []
     end)
  /\ (forall (A : Type) (key : A -> Z) (l : list A),
        orderByDesc key l ≡ₚ l /\ descending key (orderByDesc key l)).

(** [l] is in ascending order of [key]. *)
Definition ascending {A : Type} (key : A -> Z) (l : list A) : Prop :=
  forall i j a b,
    (i < j)%nat -> l !! i = Some a -> l !! j = Some b -> (key a <= key b)%Z.

(** [ORDER BY key ASC]: the descending order of the opposite key. *)
Definition orderByAsc {G : Engine} {A : Type} (key : A -> Z) (l : list A)
  : list A :=
  orderByDesc (fun a => (- key a)%Z) l.

(** [a < b] for two TEXT values under the collation BINARY: [memcmp] on
    their UTF-8 bytes, and of two texts of which one begins the other the
    shorter comes first. *)
Fixpoint bytesLess (a b : list byte) : bool :=
  match a, b with
  | _, [] => false
  | [], _ :: _ => true
  | x :: a', y :: b' =>
      (Byte.to_N x <? Byte.to_N y)
      || ((Byte.to_N x =? Byte.to_N y) && bytesLess a' b')
  end.

Definition textLess (a b : jsstring) : bool :=
  bytesLess (textEncode a) (textEncode b).

(** [LIMIT n]: a negative [n] is no limit. *)
Definition limit {A : Type} (n : Z) (l : list A) : list A :=
  if (n <? 0)%Z then l else take (Z.to_nat n) l.

(** Insertion of a row into a list in descending order, before the rows
    with the same key. *)
Fixpoint insertDesc {A : Type} (key : A -> Z) (x : A) (l : list A) : list A :=
  match l with
  | [] => [x]
  | y :: r => if (key y <=? key x)%Z then x :: l else y :: insertDesc key x r
  end.

(** An engine that returns the first row of the scan and sorts by
    insertion. *)
Definition scanEngine : Engine := {|
  firstRow := fun A l => head l;
  orderByDesc := fun A key l => foldr (insertDesc key) [] l
|}.

End Sql.

Module Api.

(** The answer of a route: [c.json({ error: { code, message } }, status)]
    or [c.json(payload, status)]. *)
Inductive Reply (A : Type) : Type :=
| Refused (httpStatus : Z) (code message : jsstring)
| Answered (httpStatus : Z) (payload : A).
Arguments Refused {A} httpStatus code message.
Arguments Answered {A} httpStatus payload.

(** The answer [errorHandler] gives when an exception escapes a route. *)
Definition internalError {A : Type} : Reply A :=
  Refused 500 (js "internal_error") (js "An unexpected error occurred").


(** [array.slice(0, n)]: a negative [n] counts from the end. *)
Definition slice0 {A : Type} (n : Z) (l : list A) : list A :=
  if (n <? 0)%Z then take (length l - Z.to_nat (- n)) l
  else take (Z.to_nat n) l.

End Api.

(** ** The text of an instant *)

Module Iso.

(** [String(n).padStart(width, '0')] for [0 <= n < 10^width]. *)
Fixpoint digits (width : nat) (n : Z) : jsstring :=
  match width with
  | O => []
  | S w => digits w (n / 10) ++ [(48 + Z.to_N (n mod 10))%N]
  end.

(** The date of a day, counted from 1970-01-01, in the proleptic
    Gregorian calendar: year, month (1 to 12) and day of the month.  The
    count is shifted to 0000-03-01, the start of a cycle of 400 years
    (146097 days); [doe] is the day of that cycle, [yoe] its year, [doy]
    the day of the year that starts in March, [mp] its month. *)
Definition civil (days : Z) : Z * Z * Z :=
  let z := (days + 719468)%Z in
  let era := (z / 146097)%Z in
  let doe := (z mod 146097)%Z in
  let yoe := ((doe - doe / 1460 + doe / 36524 - doe / 146096) / 365)%Z in
  let doy := (doe - (365 * yoe + yoe / 4 - yoe / 100))%Z in
  let mp := ((5 * doy + 2) / 153)%Z in
  let d := (doy - (153 * mp + 2) / 5 + 1)%Z in
  let m := (if mp <? 10 then mp + 3 else mp - 9)%Z in
  let y := (yoe + era * 400 + (if m <=? 2 then 1 else 0))%Z in
  (y, m, d).

(** The year of an ISO text: four digits from 0 to 9999, else a sign
    and six digits. *)
Definition yearText (y : Z) : jsstring :=
  if (0 <=? y)%Z && (y <=? 9999)%Z then digits 4 y
  else if (y <? 0)%Z then js "-" ++ digits 6 (- y)
  else js "+" ++ digits 6 y.

(** [new Date(ms).toISOString()], for an instant that a [Date] holds
    (at most 8.64e15 ms from the epoch): YYYY-MM-DDTHH:mm:ss.sssZ. *)
Definition toISOString (ms : Z) : jsstring :=
  let '(y, m, d) := civil (ms / 86400000) in
  let t := (ms mod 86400000)%Z in
  yearText y ++ js "-" ++ digits 2 m ++ js "-" ++ digits 2 d ++ js "T"
    ++ digits 2 (t / 3600000) ++ js ":" ++ digits 2 (t / 60000 mod 60)
    ++ js ":" ++ digits 2 (t / 1000 mod 60) ++ js "."
    ++ digits 3 (t mod 1000) ++ js "Z".

(** The instants whose year has four digits: 0000-01-01T00:00:00.000Z
    to 9999-12-31T23:59:59.999Z. *)
Definition fourDigitYear (ms : Z) : Prop :=
  (-62167219200000 <= ms < 253402300800000)%Z.

(** The date of a day as one number, YYYYMMDD, and the time of day as
    one number, HHmmssSSS: the digits of the text of an instant, read
    without the separators. *)
Definition dateKey (days : Z) : Z :=
  let '(y, m, d) := civil days in (y * 10000 + m * 100 + d)%Z.

Definition timeKey (t : Z) : Z :=
  (t / 3600000 * 10000000 + t / 60000 mod 60 * 100000
   + t / 1000 mod 60 * 1000 + t mod 1000)%Z.

Definition stamp (ms : Z) : Z :=
  (dateKey (ms / 86400000) * 1000000000 + timeKey (ms mod 86400000))%Z.

(** One step of a walk through the days: the month and the day of the
    month are in their ranges, and the next day has the greater date. *)
Definition dayChecked (day : Z) : bool :=
  let '(_, m, d) := civil day in
  (1 <=? m)%Z && (m <=? 12)%Z && (1 <=? d)%Z && (d <=? 31)%Z
  && (dateKey day <? dateKey (day + 1))%Z.

Definition walk (state : bool * Z) : bool * Z :=
  (state.1 && dayChecked state.2, (state.2 + 1)%Z).

End Iso.

(** ** handlers/communities *)

Module Communities.
Import Http Store Auth Sql Api.

(** A row of [communities]; its primary key [id] is the key of the map
    that holds it. *)
Record Community : Type := {
  name : jsstring;
  slug : jsstring;
  description : option jsstring;
  owner_id : jsstring;
  avatar_url : option jsstring;
  banner_url : option jsstring;
  is_public : bool;
  require_verification : Z;
  member_count : Z;
  post_count : Z;
  created_at : Z;
  updated_at : Z
}.

(** A row of [community_members]. *)
Record Member : Type := {
  community_id : jsstring;
  member_id : jsstring;
  role : jsstring;
  joined_at : Z
}.

(** The two tables of the community routes.  The ids of [communities]
    are also in [Store.communities], where the foreign key of the posts
    reads them; an insert writes both. *)
Record Tables : Type := {
  rows : gmap jsstring Community;
  members : list Member
}.

(** The JSON body of [POST /communities]; [is_public] is a boolean when
    it is present. *)
Record CreateBody : Type := {
  body_name : option jsstring;
  body_slug : option jsstring;
  body_description : option jsstring;
  body_is_public : option bool
}.

(** The payloads of the answers. *)
Inductive Payload : Type :=
| Created (id name slug : jsstring) (description : option jsstring)
    (owner_id : jsstring) (is_public : bool) (created_at : Z)
| Message (text : jsstring)
| Details (id : jsstring) (row : Community)
    (owner_display_name owner_mention : jsstring).

(** A character of the class [[a-z0-9-]]. *)
Definition slugChar (c : N) : bool :=
  ((97 <=? c) && (c <=? 122)) || ((48 <=? c) && (c <=? 57)) || (c =? 45).

(** [/^[a-z0-9-]+$/.test(s)]. *)
Definition slugPattern (s : jsstring) : bool :=
  negb (Nat.eqb (length s) 0) && forallb slugChar s.

(** The rows of [communities WHERE id = ? OR slug = ?], both parameters
    bound to [x]. *)
Definition matching (t : Tables) (x : jsstring)
  : list (jsstring * Community) :=
  filter (fun kv => kv.1 = x \/ slug kv.2 = x) (map_to_list (rows t)).

(** [SELECT 1 FROM communities WHERE id = ? OR slug = ?]. *)
Definition slugTaken (t : Tables) (x : jsstring) : bool :=
  negb (Nat.eqb (length (matching t x)) 0).

(** [INSERT INTO communities]: primary key [id], UNIQUE [slug], foreign
    key [owner_id]. *)
Definition insertCommunity (db : DB) (t : Tables) (i : jsstring)
    (row : Community) : option (DB * Tables) :=
  if bool_decide (is_Some (rows t !! i))
     || bool_decide (Exists (fun kv => slug kv.2 = slug row)
                            (map_to_list (rows t)))
     || negb (bool_decide (is_Some (clawfiles db !! owner_id row)))
  then None
  else Some ({| clawfiles := clawfiles db;
                clawfile_profiles := clawfile_profiles db;
                plaza_messages := plaza_messages db;
                communities := communities db ++ [i];
                ledger_entries := ledger_entries db |},
             {| rows := <[i := row]> (rows t); members := members t |}).

(** [SELECT 1 FROM community_members] by primary key. *)
Definition isMember (t : Tables) (community member : jsstring) : bool :=
  existsb (fun m => bool_decide (community_id m = community
                                 /\ member_id m = member)) (members t).

(** [INSERT INTO community_members]: primary key (community, member),
    both foreign keys, and the CHECK on [role]. *)
Definition insertMember (db : DB) (t : Tables) (m : Member) : option Tables :=
  if isMember t (community_id m) (member_id m)
     || negb (bool_decide (is_Some (rows t !! community_id m)))
     || negb (bool_decide (is_Some (clawfiles db !! member_id m)))
     || negb (bool_decide (role m ∈ [js "member"; js "moderator"; js "admin"]))
  then None
  else Some {| rows := rows t; members := members t ++ [m] |}.

(** [DELETE FROM community_members WHERE community_id = ? AND
    member_id = ?]. *)
Definition deleteMember (t : Tables) (community member : jsstring) : Tables :=
  {| rows := rows t;
     members := filter (fun m => ~ (community_id m = community
                                    /\ member_id m = member)) (members t) |}.

(** [UPDATE communities SET member_count = member_count + d,
    updated_at = ? WHERE id = ?]. *)
Definition addToMemberCount (t : Tables) (i : jsstring) (d now : Z) : Tables :=
  {| rows := alter (fun c =>
                {| name := name c; slug := slug c;
                   description := description c; owner_id := owner_id c;
                   avatar_url := avatar_url c; banner_url := banner_url c;
                   is_public := is_public c;
                   require_verification := require_verification c;
                   member_count := member_count c + d;
                   post_count := post_count c;
                   created_at := created_at c;
                   updated_at := now |}) i (rows t);
     members := members t |}.

Section WithEngine.
Context {G : Engine}.

(** The handler of [GET /communities/:id]: the community joined with its
    owner's identity. *)
Definition getHandler (db : DB) (t : Tables) (i : jsstring) : Reply Payload :=
  let joined :=
    omap (fun kv => (fun cf => (kv, cf)) <$> clawfiles db !! owner_id kv.2)
         (matching t i) in
  match firstRow joined with
  | None => Refused 404 (js "not_found") (js "Community not found")
  | Some (kv, cf) =>
      Answered 200 (Details kv.1 kv.2 (Store.display_name cf)
                      (Store.mention_name cf))
  end.

(** The handler of [POST /communities]; [nowMs] is the instant of
    [new Date()]. *)
Definition createHandler (db : DB) (t : Tables) (auth : AuthContext)
    (nowMs : Z) (b : CreateBody) : Reply Payload * (DB * Tables) :=
  let is_public := default true (body_is_public b) in
  match truthy (body_name b), truthy (body_slug b) with
  | Some name, Some slug =>
      if negb (slugPattern slug) then
        (Refused 400 (js "invalid_slug")
           (js "Slug must be lowercase alphanumeric with hyphens only"),
         (db, t))
      else if slugTaken t slug then
        (Refused 409 (js "conflict") (js "Community slug already taken"),
         (db, t))
      else
        let now := nowMs in
        match insertCommunity db t slug
                {| name := name; slug := slug;
                   description := truthy (body_description b);
                   owner_id := authPublicKey auth;
                   avatar_url := None; banner_url := None;
                   is_public := is_public;
                   require_verification := 0;
                   member_count := 1; post_count := 0;
                   created_at := now; updated_at := now |} with
        | None => (internalError, (db, t))
        | Some (db1, t1) =>
            match insertMember db1 t1
                    {| community_id := slug;
                       member_id := authPublicKey auth;
                       role := js "admin";
                       joined_at := now |} with
            | None => (internalError, (db1, t1))
            | Some t2 =>
                (Answered 201
                   (Created slug name slug (body_description b)
                      (authPublicKey auth) is_public now),
                 (db1, t2))
            end
        end
  | _, _ =>
      (Refused 400 (js "bad_request") (js "Name and slug required"), (db, t))
  end.

(** The handler of [POST /communities/:id/join].  The [try] holds the
    insert and the update; a refused insert is answered 409. *)
Definition joinHandler (db : DB) (t : Tables) (auth : AuthContext)
    (nowMs : Z) (i : jsstring) : Reply Payload * Tables :=
  match firstRow (matching t i) with
  | None => (Refused 404 (js "not_found") (js "Community not found"), t)
  | Some community =>
      let now := nowMs in
      match insertMember db t
              {| community_id := community.1;
                 member_id := authPublicKey auth;
                 role := js "member";
                 joined_at := now |} with
      | None => (Refused 409 (js "conflict") (js "Already a member"), t)
      | Some t1 =>
          (Answered 200 (Message (js "Joined community")),
           addToMemberCount t1 community.1 1 now)
      end
  end.

(** The handler of [POST /communities/:id/leave]. *)
Definition leaveHandler (t : Tables) (auth : AuthContext) (nowMs : Z)
    (i : jsstring) : Reply Payload * Tables :=
  match firstRow (matching t i) with
  | None => (Refused 404 (js "not_found") (js "Community not found"), t)
  | Some community =>
      let t1 := deleteMember t community.1 (authPublicKey auth) in
      let now := nowMs in
      (Answered 200 (Message (js "Left community")),
       addToMemberCount t1 community.1 (-1) now)
  end.

End WithEngine.

(** What the routes keep of the two tables: every community has its slug
    as id, a membership names an existing community and is stored once,
    and [member_count] is the number of memberships. *)
Definition membersOf (t : Tables) (i : jsstring) : list Member :=
  filter (fun m => community_id m = i) (members t).

Definition consistent (t : Tables) : Prop :=
  (forall i c, rows t !! i = Some c -> slug c = i)
  /\ (forall m, m ∈ members t -> is_Some (rows t !! community_id m))
  /\ NoDup ((fun m => (community_id m, member_id m)) <$> members t)
  /\ (forall i c, rows t !! i = Some c ->
        member_count c = Z.of_nat (length (membersOf t i))).

End Communities.


(** ** The lookup of an identity by mention name or public key *)

Module Lookup.
Import Store Sql.

(** The rows of [clawfiles WHERE mention_name = ? OR public_key = ?],
    both parameters bound to [x]. *)
Definition byMentionOrKey (db : DB) (x : jsstring)
  : list (jsstring * Clawfile) :=
  filter (fun kv => mention_name kv.2 = x \/ kv.1 = x)
         (map_to_list (clawfiles db)).

(** [SELECT public_key FROM clawfiles WHERE mention_name = ? OR
    public_key = ?] followed by [.first()]. *)
Definition findClawfile {G : Engine} (db : DB) (x : jsstring)
  : option jsstring :=
  fst <$> firstRow (byMentionOrKey db x).

End Lookup.

(** ** handlers/follows *)

Module Follows.
Import Http Store Auth Sql Api Lookup.

(** A row of [follows]. *)
Record Follow : Type := {
  follower_id : jsstring;
  following_id : jsstring;
  created_at : Z
}.

(** A row of the listings: the other identity and the time of the
    follow.  [Listing field entries] is the object with the one property
    [field]. *)
Record Entry : Type := {
  public_key : jsstring;
  mention_name : jsstring;
  display_name : jsstring;
  avatar_url : option jsstring;
  followed_at : Z
}.

Inductive Payload : Type :=
| Followed (follower_id following_id : jsstring) (created_at : Z)
| Message (text : jsstring)
| Listing (field : jsstring) (entries : list Entry).

(** [SELECT 1 FROM follows] by primary key. *)
Definition isFollowing (fs : list Follow) (follower following : jsstring)
  : bool :=
  existsb (fun f => bool_decide (follower_id f = follower
                                 /\ following_id f = following)) fs.

(** [INSERT INTO follows]: primary key (follower, following), both
    foreign keys, and the CHECK that forbids a self-follow.  (The trigger
    that counts followers writes columns of [clawfile_profiles] that
    [Store.Profile] leaves out.) *)
Definition insertFollow (db : DB) (fs : list Follow) (f : Follow)
  : option (list Follow) :=
  if isFollowing fs (follower_id f) (following_id f)
     || negb (bool_decide (is_Some (clawfiles db !! follower_id f)))
     || negb (bool_decide (is_Some (clawfiles db !! following_id f)))
     || bool_decide (follower_id f = following_id f)
  then None
  else Some (fs ++ [f]).

(** [DELETE FROM follows WHERE follower_id = ? AND following_id = ?]. *)
Definition deleteFollow (fs : list Follow) (follower following : jsstring)
  : list Follow :=
  filter (fun f => ~ (follower_id f = follower /\ following_id f = following))
         fs.

(** The row of a listing for the identity [key]: the join with
    [clawfiles] and the left join with [clawfile_profiles]. *)
Definition entryOf (db : DB) (key : jsstring) (at_ : Z) : option Entry :=
  (fun c => {| public_key := key;
               mention_name := Store.mention_name c;
               display_name := Store.display_name c;
               avatar_url := clawfile_profiles db !! key
                             ≫= Store.avatar_url;
               followed_at := at_ |}) <$> clawfiles db !! key.

Section WithEngine.
Context {G : Engine}.

(** The rows of [follows] with [follower_id = key], each with the
    identity it follows, newest first. *)
Definition followingOf (db : DB) (fs : list Follow) (key : jsstring)
  : list Entry :=
  orderByDesc followed_at
    (omap (fun f => if decide (follower_id f = key)
                    then entryOf db (following_id f) (created_at f)
                    else None) fs).

(** The rows of [follows] with [following_id = key], each with the
    identity that follows, newest first. *)
Definition followersOf (db : DB) (fs : list Follow) (key : jsstring)
  : list Entry :=
  orderByDesc followed_at
    (omap (fun f => if decide (following_id f = key)
                    then entryOf db (follower_id f) (created_at f)
                    else None) fs).

(** The handler of [GET /follows]. *)
Definition listHandler (db : DB) (fs : list Follow) (auth : AuthContext)
  : Reply Payload :=
  Answered 200
    (Listing (js "follows") (followingOf db fs (authPublicKey auth))).

(** The handler of [POST /follows]; [target] is the field of the body. *)
Definition followHandler (db : DB) (fs : list Follow) (auth : AuthContext)
    (nowMs : Z) (target : option jsstring) : Reply Payload * list Follow :=
  match truthy target with
  | None => (Refused 400 (js "bad_request") (js "Target required"), fs)
  | Some target =>
      match findClawfile db target with
      | None => (Refused 404 (js "not_found") (js "Target not found"), fs)
      | Some targetKey =>
          if decide (targetKey = authPublicKey auth) then
            (Refused 400 (js "bad_request") (js "Cannot follow yourself"), fs)
          else
            let now := nowMs in
            match insertFollow db fs
                    {| follower_id := authPublicKey auth;
                       following_id := targetKey;
                       created_at := now |} with
            | None =>
                (Refused 409 (js "conflict") (js "Already following"), fs)
            | Some fs1 =>
                (Answered 201 (Followed (authPublicKey auth) targetKey now),
                 fs1)
            end
      end
  end.

(** The handler of [DELETE /follows/:target]. *)
Definition unfollowHandler (db : DB) (fs : list Follow) (auth : AuthContext)
    (target : jsstring) : Reply Payload * list Follow :=
  match findClawfile db target with
  | None => (Refused 404 (js "not_found") (js "Target not found"), fs)
  | Some targetKey =>
      (Answered 200 (Message (js "Unfollowed")),
       deleteFollow fs (authPublicKey auth) targetKey)
  end.

(** The handlers of [GET /clawfiles/:id/followers] and
    [GET /clawfiles/:id/following]: the scalar subquery is the first row
    of the lookup, and no row matches when it is empty. *)
Definition followersHandler (db : DB) (fs : list Follow) (i : jsstring)
  : Reply Payload :=
  Answered 200
    (Listing (js "followers")
       (match findClawfile db i with
        | Some key => followersOf db fs key
        | None => []
        end)).

Definition followingHandler (db : DB) (fs : list Follow) (i : jsstring)
  : Reply Payload :=
  Answered 200
    (Listing (js "following")
       (match findClawfile db i with
        | Some key => followingOf db fs key
        | None => []
        end)).

End WithEngine.

(** What the routes keep of [follows]: no pair twice, nobody follows
    themselves, and both ends are registered identities. *)
Definition wellFormed (db : DB) (fs : list Follow) : Prop :=
  NoDup ((fun f => (follower_id f, following_id f)) <$> fs)
  /\ Forall (fun f => follower_id f <> following_id f
                      /\ is_Some (clawfiles db !! follower_id f)
                      /\ is_Some (clawfiles db !! following_id f)) fs.

End Follows.


(** ** handlers/warrens *)

Module Warrens.
Import Http Store Auth Sql Api Lookup.

(** A row of [warrens]; its primary key [id] is the key of the map that
    holds it. *)
Record Warren : Type := {
  type : jsstring;
  name : option jsstring;
  avatar_url : option jsstring;
  creator_id : option jsstring;
  is_encrypted : bool;
  created_at : Z;
  updated_at : Z
}.

(** A row of [warren_members]. *)
Record Member : Type := {
  warren_id : jsstring;
  member_id : jsstring;
  public_key : option jsstring;
  joined_at : Z;
  last_read_at : option Z
}.

(** A row of [warren_messages]; [sent_in] and [sent_at] are its columns
    [warren_id] and [created_at]. *)
Record Message : Type := {
  id : jsstring;
  sent_in : jsstring;
  author_id : jsstring;
  content : jsstring;
  content_type : jsstring;
  signature : jsstring;
  encrypted_keys : option jsstring;
  sent_at : Z
}.

Record Tables : Type := {
  warrens : gmap jsstring Warren;
  members : list Member;
  messages : list Message
}.

(** The JSON body of [POST /warrens]; [body_members] is [None] when the
    field is absent or not an array, and its elements are strings. *)
Record CreateBody : Type := {
  body_type : option jsstring;
  body_name : option jsstring;
  body_members : option (list jsstring)
}.


(** A message of a listing, with the two columns of its author. *)
Record Listed : Type := {
  message : Message;
  author_mention : jsstring;
  author_display : jsstring
}.

Inductive Payload : Type :=
| Created (id type : jsstring) (name : option jsstring) (created_at : Z)
| DmExists (code message warren_id : jsstring)
| Page (messages : list Listed) (has_more : bool) (next_cursor : option Z)
| Sent (id warren_id author_id content : jsstring) (created_at : Z).

(** [SELECT 1 FROM warren_members WHERE warren_id = ? AND member_id = ?]. *)
Definition isMember (t : Tables) (warren member : jsstring) : bool :=
  existsb (fun m => bool_decide (warren_id m = warren /\ member_id m = member))
          (members t).

(** [INSERT INTO warrens]: primary key, the CHECK on [type], and the
    foreign key of the creator. *)
Definition insertWarren (db : DB) (t : Tables) (i : jsstring) (w : Warren)
  : option Tables :=
  if bool_decide (is_Some (warrens t !! i))
     || negb (bool_decide (type w ∈ [js "dm"; js "group"]))
     || match creator_id w with
        | Some c => negb (bool_decide (is_Some (clawfiles db !! c)))
        | None => false
        end
  then None
  else Some {| warrens := <[i := w]> (warrens t);
               members := members t;
               messages := messages t |}.

(** [INSERT INTO warren_members]: primary key (warren, member) and both
    foreign keys. *)
Definition insertMember (db : DB) (t : Tables) (m : Member) : option Tables :=
  if isMember t (warren_id m) (member_id m)
     || negb (bool_decide (is_Some (warrens t !! warren_id m)))
     || negb (bool_decide (is_Some (clawfiles db !! member_id m)))
  then None
  else Some {| warrens := warrens t;
               members := members t ++ [m];
               messages := messages t |}.



(** The ids of the warrens of type "dm" that have a membership of [a]
    and a membership of [b]. *)
Definition existingDms (t : Tables) (a b : jsstring) : list jsstring :=
  (filter (fun kv => type kv.2 = js "dm"
                     /\ isMember t kv.1 a = true /\ isMember t kv.1 b = true)
          (map_to_list (warrens t))).*1.

(** The members of a warren, in the order of their insertion. *)
Definition membersOf (t : Tables) (i : jsstring) : list jsstring :=
  member_id <$> filter (fun m => warren_id m = i) (members t).

Section WithEngine.
Context {G : Engine}.

(** The checks of a direct message: the target must be an identity, and
    no warren of type "dm" may hold both.  [Some] is the answer that ends
    the request. *)
Definition dmCheck (db : DB) (t : Tables) (auth : AuthContext)
    (targetMention : jsstring) : option (Reply Payload) :=
  match findClawfile db targetMention with
  | None => Some (Refused 404 (js "not_found") (js "Target not found"))
  | Some target =>
      match firstRow (existingDms t (authPublicKey auth) target) with
      | Some existingDm =>
          Some (Answered 409
                  (DmExists (js "conflict") (js "DM already exists")
                     existingDm))
      | None => None
      end
  end.

(** The loop that adds the other members: a mention that names no
    identity is passed over; a refused insert throws, and what was
    written before it stays.  The flag is [false] when it threw. *)
Fixpoint addMembers (db : DB) (t : Tables) (warrenId : jsstring) (now : Z)
    (mentions : list jsstring) : Tables * bool :=
  match mentions with
  | [] => (t, true)
  | memberMention :: rest =>
      match findClawfile db memberMention with
      | Some member =>
          match insertMember db t
                  {| warren_id := warrenId; member_id := member;
                     public_key := None; joined_at := now;
                     last_read_at := None |} with
          | Some t1 => addMembers db t1 warrenId now rest
          | None => (t, false)
          end
      | None => addMembers db t warrenId now rest
      end
  end.

(** The handler of [POST /warrens]; [warrenId] is the random UUID and
    [nowMs] the instant of [new Date()]. *)
Definition createHandler (db : DB) (t : Tables) (auth : AuthContext)
    (nowMs : Z) (warrenId : jsstring) (b : CreateBody)
  : Reply Payload * Tables :=
  match truthy (body_type b) with
  | None =>
      (Refused 400 (js "bad_request") (js "Type must be dm or group"), t)
  | Some type =>
      if negb (bool_decide (type ∈ [js "dm"; js "group"])) then
        (Refused 400 (js "bad_request") (js "Type must be dm or group"), t)
      else
        match body_members b with
        | None | Some [] =>
            (Refused 400 (js "bad_request") (js "Members required"), t)
        | Some (first :: others) =>
            let members := first :: others in
            if bool_decide (type = js "dm")
               && negb (Nat.eqb (length members) 1) then
              (Refused 400 (js "bad_request")
                 (js "DM requires exactly 1 member"), t)
            else
              match (if bool_decide (type = js "dm")
                     then dmCheck db t auth first else None) with
              | Some answer => (answer, t)
              | None =>
                  let now := nowMs in
                  match insertWarren db t warrenId
                          {| Warrens.type := type;
                             name := truthy (body_name b);
                             avatar_url := None;
                             creator_id := Some (authPublicKey auth);
                             is_encrypted := true;
                             created_at := now;
                             updated_at := now |} with
                  | None => (internalError, t)
                  | Some t1 =>
                      match insertMember db t1
                              {| warren_id := warrenId;
                                 member_id := authPublicKey auth;
                                 public_key := None; joined_at := now;
                                 last_read_at := None |} with
                      | None => (internalError, t1)
                      | Some t2 =>
                          match addMembers db t2 warrenId now members with
                          | (t3, false) => (internalError, t3)
                          | (t3, true) =>
                              (Answered 201
                                 (Created warrenId type (body_name b) now),
                               t3)
                          end
                      end
                  end
              end
        end
  end.

(** [created_at < ?] when the cursor [before] is given. *)
Definition olderThan (before : option Z) (at_ : Z) : bool :=
  match before with
  | Some b => (at_ <? b)%Z
  | None => true
  end.



End WithEngine.


(** Every membership names a stored warren (the foreign key). *)
Definition grounded (t : Tables) : Prop :=
  forall m, m ∈ members t -> is_Some (warrens t !! warren_id m).


End Warrens.


(** ** The [limit] parameter of the listings *)

Module Paging.

(** The white space and line terminators that [parseInt] skips. *)
Definition isJsWhitespace (c : N) : bool :=
  (c =? 0x09) || (c =? 0x0A) || (c =? 0x0B) || (c =? 0x0C) || (c =? 0x0D)
  || (c =? 0x20) || (c =? 0xA0) || (c =? 0x1680)
  || ((0x2000 <=? c) && (c <=? 0x200A))
  || (c =? 0x2028) || (c =? 0x2029) || (c =? 0x202F) || (c =? 0x205F)
  || (c =? 0x3000) || (c =? 0xFEFF).

(** The value of a digit in radix 10 or 16. *)
Definition digitOf (radix : Z) (c : N) : option Z :=
  let v := if (48 <=? c) && (c <=? 57) then Some (Z.of_N c - 48)%Z
           else if (97 <=? c) && (c <=? 102) then Some (Z.of_N c - 87)%Z
           else if (65 <=? c) && (c <=? 70) then Some (Z.of_N c - 55)%Z
           else None in
  match v with
  | Some d => if (d <? radix)%Z then Some d else None
  | None => None
  end.

(** The value of the longest prefix of digits; [None] when there is no
    digit. *)
Fixpoint digitsPrefix (radix : Z) (acc : option Z) (s : jsstring)
  : option Z :=
  match s with
  | [] => acc
  | c :: r =>
      match digitOf radix c with
      | Some d => digitsPrefix radix (Some (default 0 acc * radix + d)%Z) r
      | None => acc
      end
  end.

Fixpoint trimStart (s : jsstring) : jsstring :=
  match s with
  | c :: r => if isJsWhitespace c then trimStart r else s
  | [] => []
  end.

(** The integer that [parseInt(s)] reads, with no radix: leading white
    space is dropped, a sign is read, a prefix "0x" or "0X" selects
    radix 16, and the longest prefix of digits is the value; [None] when
    there is no digit. *)
Definition parseInteger (s : jsstring) : option Z :=
  let s := trimStart s in
  let sign := if startsWith (js "-") s then (-1)%Z else 1%Z in
  let s := if startsWith (js "-") s || startsWith (js "+") s
           then drop 1 s else s in
  let hex := startsWith (js "0x") s || startsWith (js "0X") s in
  let radix := if hex then 16%Z else 10%Z in
  let s := if hex then drop 2 s else s in
  (fun n => (sign * n)%Z) <$> digitsPrefix radix None s.


(** A Number that [parseInt] returns: NaN, an infinity, or a double
    whose value is an integer (-0 is not told from 0). *)
Inductive Number : Type :=
| NaN
| Infinite (negative : bool)
| Finite (value : Z).

(** The Number of an integer: the nearest double, ties to even.  Below
    2^53 in magnitude it is the integer itself; beyond, its 53 leading
    bits rounded by the bits that follow; an infinity when that reaches
    2^1024. *)
Definition toDouble (n : Z) : Number :=
  let a := Z.abs n in
  if (a <? 2 ^ 53)%Z then Finite n
  else
    let e := (Z.log2 a - 52)%Z in
    let q := Z.shiftr a e in
    let r := (a - Z.shiftl q e)%Z in
    let half := (2 ^ (e - 1))%Z in
    let q' := if (half <? r)%Z || ((r =? half)%Z && Z.odd q)
              then (q + 1)%Z else q in
    let v := Z.shiftl q' e in
    if (2 ^ 1024 <=? v)%Z then Infinite (n <? 0)%Z
    else Finite (Z.sgn n * v).




End Paging.

(** ** handlers/clawfiles: the directory and [PATCH /clawfiles/me] *)

Module Directory.
Import Http Store Auth Sql Api.

(** A row of the directory: the six selected columns. *)
Record Card : Type := {
  public_key : jsstring;
  mention_name : jsstring;
  display_name : jsstring;
  verification_tier : Z;
  status : jsstring;
  created_at : Z
}.

(** The answer: the page and its [pagination] object; [next_cursor] is
    [None] for [null] and for a property left out. *)
Record Page : Type := {
  clawfiles : list Card;
  has_more : bool;
  next_cursor : option Z
}.

(** [created_at < ?] when the cursor is given and not empty: the text
    of the column, which [toISOString] wrote, against the text of the
    query string, both as TEXT values. *)
Definition sortsBefore (cursor : option jsstring) (at_ : Z) : bool :=
  match truthy cursor with
  | Some text => textLess (Iso.toISOString at_) text
  | None => true
  end.

(** The rows of [clawfiles WHERE status = 'active'], with
    [created_at < ?] when a cursor is given. *)
Definition cardsBefore (db : DB) (cursor : option jsstring) : list Card :=
  omap (fun kv =>
          if bool_decide (Store.status kv.2 = js "active")
             && sortsBefore cursor (Store.created_at kv.2)
          then Some {| public_key := kv.1;
                       mention_name := Store.mention_name kv.2;
                       display_name := Store.display_name kv.2;
                       verification_tier := Store.verification_tier kv.2;
                       status := Store.status kv.2;
                       created_at := Store.created_at kv.2 |}
          else None) (map_to_list (Store.clawfiles db)).

(** The handler of [GET /clawfiles]; [limit] is the number
    [Math.min(parseInt(...), 100)] and [cursor] the text of the query
    string. *)
Definition listRoute {G : Engine} (db : DB) (limit : Z)
    (cursor : option jsstring) : Reply Page :=
  let results :=
    Sql.limit (limit + 1) (orderByDesc created_at (cardsBefore db cursor)) in
  let clawfiles := slice0 limit results in
  let hasMore := (limit <? Z.of_nat (length results))%Z in
  Answered 200
    {| clawfiles := clawfiles;
       has_more := hasMore;
       next_cursor := if hasMore then created_at <$> last clawfiles
                      else None |}.

(** The same route for a cursor that a page handed out: [next_cursor]
    is the [created_at] text of a row, and [Some c] stands for the text
    of the instant [c].  Two such texts compare as their instants do
    (years 0000 to 9999). *)
Definition olderThan (cursor : option Z) (at_ : Z) : bool :=
  match cursor with
  | Some c => (at_ <? c)%Z
  | None => true
  end.

(** The rows of [clawfiles WHERE status = 'active'], with
    [created_at < cursor] when a cursor is given. *)
Definition activeCards (db : DB) (cursor : option Z) : list Card :=
  omap (fun kv =>
          if bool_decide (Store.status kv.2 = js "active")
             && olderThan cursor (Store.created_at kv.2)
          then Some {| public_key := kv.1;
                       mention_name := Store.mention_name kv.2;
                       display_name := Store.display_name kv.2;
                       verification_tier := Store.verification_tier kv.2;
                       status := Store.status kv.2;
                       created_at := Store.created_at kv.2 |}
          else None) (map_to_list (Store.clawfiles db)).

(** The handler of [GET /clawfiles] at such a cursor; [limit] is the
    number [Math.min(parseInt(...), 100)] and [cursor] the instant of
    the cursor, when one is given. *)
Definition listHandler {G : Engine} (db : DB) (limit : Z) (cursor : option Z)
  : Reply Page :=
  let results :=
    Sql.limit (limit + 1) (orderByDesc created_at (activeCards db cursor)) in
  let clawfiles := slice0 limit results in
  let hasMore := (limit <? Z.of_nat (length results))%Z in
  Answered 200
    {| clawfiles := clawfiles;
       has_more := hasMore;
       next_cursor := if hasMore then created_at <$> last clawfiles
                      else None |}.

End Directory.

Module Profiles.
Import Http Store Auth Api.

(** A field of the JSON body: left out, [null], or a string (a field
    that holds a number, a boolean, an array or an object is outside the
    model). *)
Inductive Field : Type :=
| Absent
| Null
| Text (s : jsstring).

Record PatchBody : Type := {
  display_name : Field;
  bio : Field;
  principles : Field;
  avatar_url : Field
}.

(** [body[field] !== undefined]. *)
Definition given (f : Field) : bool :=
  match f with
  | Absent => false
  | _ => true
  end.

(** The value bound for a column: [null] or the string. *)
Definition bound (f : Field) : option jsstring :=
  match f with
  | Text s => Some s
  | _ => None
  end.

(** [UPDATE clawfiles SET display_name = ?, updated_at = ? WHERE
    public_key = ?]. *)
Definition updateDisplayName (db : DB) (key name : jsstring) (now : Z) : DB :=
  {| clawfiles :=
       alter (fun c =>
                {| Store.mention_name := Store.mention_name c;
                   Store.display_name := name;
                   Store.human_parent := Store.human_parent c;
                   Store.verification_tier := Store.verification_tier c;
                   Store.status := Store.status c;
                   Store.home_node := Store.home_node c;
                   Store.rotated_from := Store.rotated_from c;
                   Store.rotated_to := Store.rotated_to c;
                   Store.created_at := Store.created_at c;
                   Store.updated_at := now |}) key (clawfiles db);
     clawfile_profiles := clawfile_profiles db;
     plaza_messages := plaza_messages db;
     communities := communities db;
     ledger_entries := ledger_entries db |}.

(** [UPDATE clawfile_profiles SET ..., updated_at = ? WHERE
    public_key = ?], with one assignment for each of the three fields
    that is given. *)
Definition updateProfile (db : DB) (key : jsstring) (b : PatchBody) (now : Z)
  : DB :=
  {| clawfiles := clawfiles db;
     clawfile_profiles :=
       alter (fun p =>
                {| Store.bio := if given (bio b) then bound (bio b)
                                else Store.bio p;
                   Store.principles :=
                     if given (principles b) then bound (principles b)
                     else Store.principles p;
                   Store.avatar_url :=
                     if given (avatar_url b) then bound (avatar_url b)
                     else Store.avatar_url p;
                   Store.profile_created_at := Store.profile_created_at p;
                   Store.profile_updated_at := now |}) key
             (clawfile_profiles db);
     plaza_messages := plaza_messages db;
     communities := communities db;
     ledger_entries := ledger_entries db |}.

(** The handler of [PATCH /clawfiles/me]; [nameMs] and [profileMs] are
    the instants of the two [new Date()].  (As in [Store], the triggers
    that restamp [updated_at] after an update are left out.) *)
Definition patchHandler (db : DB) (auth : AuthContext) (nameMs profileMs : Z)
    (b : PatchBody) : Reply jsstring * DB :=
  if negb (given (display_name b) || given (bio b) || given (principles b)
           || given (avatar_url b))
  then (Refused 400 (js "bad_request") (js "No valid fields to update"), db)
  else
    let db1 :=
      match display_name b with
      | Text (c :: s) =>
          updateDisplayName db (authPublicKey auth) (c :: s) nameMs
      | _ => db
      end in
    let db2 :=
      if given (bio b) || given (principles b) || given (avatar_url b)
      then updateProfile db1 (authPublicKey auth) b profileMs
      else db1 in
    (Answered 200 (js "Profile updated"), db2).

End Profiles.


(** ** handlers/plaza: the timeline and the single post *)

Module Timeline.
Import Http Store Auth Sql Api.

(** A row of [reactions]. *)
Record Reaction : Type := {
  reaction_id : Z;
  message_id : jsstring;
  message_type : jsstring;
  reactor_id : jsstring;
  reaction_type : jsstring;
  reacted_at : Z
}.

(** A row of the timeline. *)
Record Item : Type := {
  id : jsstring;
  content : jsstring;
  content_type : jsstring;
  reply_to : option jsstring;
  community_id : option jsstring;
  created_at : Z;
  origin_node : jsstring;
  author_mention : jsstring;
  author_display : jsstring;
  author_tier : Z;
  author_avatar : option jsstring;
  reply_count : nat;
  reaction_count : nat;
  is_reacted_by_me : option bool
}.

(** A post with all its columns and the four columns of its author. *)
Record Full : Type := {
  row : PlazaMessage;
  full_author_mention : jsstring;
  full_author_display : jsstring;
  full_author_tier : Z;
  full_author_avatar : option jsstring
}.

(** The query parameters of the timeline; [limit] is the number
    [Math.min(parseInt(...), 100)], the others are the texts of the
    query string. *)
Record Query : Type := {
  limit : Z;
  before : option jsstring;
  community : option jsstring;
  author : option jsstring
}.

Inductive Payload : Type :=
| Page (posts : list Item) (has_more : bool) (next_cursor : option Z)
| Thread (post : Full) (replies : list Full)
    (reactions : list (jsstring * nat)).

(** [pm.created_at < ?] when [before] is given and not empty: the text
    of the column, which [toISOString] wrote, against the text of the
    query string, both as TEXT values. *)
Definition olderThan (before : option jsstring) (at_ : Z) : bool :=
  match truthy before with
  | Some text => textLess (Iso.toISOString at_) text
  | None => true
  end.

(** The two counting subqueries of the timeline. *)
Definition replyCount (db : DB) (i : jsstring) : nat :=
  length (filter (fun m => Store.reply_to m = Some i) (plaza_messages db)).

Definition reactionCount (rs : list Reaction) (i : jsstring) : nat :=
  length (filter (fun r => message_id r = i) rs).

(** The rows the timeline selects: public posts joined with their
    authors, narrowed by the parameters that are given. *)
Definition selected (db : DB) (rs : list Reaction) (q : Query) : list Item :=
  omap (fun pm =>
          c ← clawfiles db !! Store.author_id pm;
          if bool_decide (Store.visibility pm = js "public")
             && match truthy (community q) with
                | Some x => bool_decide (Store.community_id pm = Some x)
                | None => true
                end
             && match truthy (author q) with
                | Some a => bool_decide (Store.mention_name c = a
                                         \/ Store.author_id pm = a)
                | None => true
                end
             && olderThan (before q) (Store.posted_at pm)
          then Some {| id := Store.id pm;
                       content := Store.content pm;
                       content_type := Store.content_type pm;
                       reply_to := Store.reply_to pm;
                       community_id := Store.community_id pm;
                       created_at := Store.posted_at pm;
                       origin_node := Store.origin_node pm;
                       author_mention := Store.mention_name c;
                       author_display := Store.display_name c;
                       author_tier := Store.verification_tier c;
                       author_avatar := clawfile_profiles db
                                          !! Store.author_id pm
                                        ≫= Store.avatar_url;
                       reply_count := replyCount db (Store.id pm);
                       reaction_count := reactionCount rs (Store.id pm);
                       is_reacted_by_me := None |}
          else None) (plaza_messages db).

(** [post.is_reacted_by_me = !!reaction]. *)
Definition markReacted (rs : list Reaction) (me : jsstring) (p : Item) : Item :=
  {| id := id p; content := content p; content_type := content_type p;
     reply_to := reply_to p; community_id := community_id p;
     created_at := created_at p; origin_node := origin_node p;
     author_mention := author_mention p; author_display := author_display p;
     author_tier := author_tier p; author_avatar := author_avatar p;
     reply_count := reply_count p; reaction_count := reaction_count p;
     is_reacted_by_me :=
       Some (existsb (fun r => bool_decide (message_id r = id p
                                            /\ reactor_id r = me)) rs) |}.

(** A post joined with its author. *)
Definition fullOf (db : DB) (pm : PlazaMessage) : option Full :=
  (fun c => {| row := pm;
               full_author_mention := Store.mention_name c;
               full_author_display := Store.display_name c;
               full_author_tier := Store.verification_tier c;
               full_author_avatar := clawfile_profiles db
                                       !! Store.author_id pm
                                     ≫= Store.avatar_url |})
    <$> clawfiles db !! Store.author_id pm.

(** The distinct values of a list, in the order of their first
    occurrence. *)
Fixpoint distinct (l : list jsstring) : list jsstring :=
  match l with
  | [] => []
  | x :: r => x :: filter (fun y => y <> x) (distinct r)
  end.

Section WithEngine.
Context {G : Engine}.

(** The handler of [GET /plaza]; [auth] is what the optional
    authentication has set. *)
Definition timelineHandler (db : DB) (rs : list Reaction)
    (auth : option AuthContext) (q : Query) : Reply Payload :=
  let results :=
    Sql.limit (limit q + 1) (orderByDesc created_at (selected db rs q)) in
  let posts := slice0 (limit q) results in
  let hasMore := (limit q <? Z.of_nat (length results))%Z in
  let posts :=
    match auth with
    | Some a => markReacted rs (authPublicKey a) <$> posts
    | None => posts
    end in
  Answered 200
    (Page posts hasMore
       (if hasMore then created_at <$> last posts else None)).

(** The handler of [GET /plaza/:id]: the post, its first 50 replies in
    ascending order of time, and its reactions counted by type, the most
    frequent first. *)
Definition threadHandler (db : DB) (rs : list Reaction) (i : jsstring)
  : Reply Payload :=
  match firstRow (omap (fun pm => if bool_decide (Store.id pm = i)
                                  then fullOf db pm else None)
                       (plaza_messages db)) with
  | None => Refused 404 (js "not_found") (js "Post not found")
  | Some post =>
      let replies :=
        Sql.limit 50
          (orderByAsc (fun f => Store.posted_at (row f))
             (omap (fun pm => if bool_decide (Store.reply_to pm = Some i)
                              then fullOf db pm else None)
                   (plaza_messages db))) in
      let mine := filter (fun r => message_id r = i) rs in
      let reactions :=
        orderByDesc (fun tc => Z.of_nat tc.2)
          ((fun ty => (ty, length (filter (fun r => reaction_type r = ty)
                                          mine)))
             <$> distinct (reaction_type <$> mine)) in
      Answered 200 (Thread post replies reactions)
  end.

Context {E : Ed25519} {D : DateParser}.

(** [GET /plaza] and [GET /plaza/:id] behind [optionalAuth]: a refusal
    of the middleware, or the answer of the handler. *)
Definition timelineRoute (db : DB) (rs : list Reaction) (nowMs : Z)
    (req : Request) (q : Query) : Response + Reply Payload :=
  match optionalAuth db nowMs req with
  | Respond r => inl r
  | Next auth => inr (timelineHandler db rs auth q)
  end.

Definition threadRoute (db : DB) (rs : list Reaction) (nowMs : Z)
    (req : Request) (i : jsstring) : Response + Reply Payload :=
  match optionalAuth db nowMs req with
  | Respond r => inl r
  | Next _ => inr (threadHandler db rs i)
  end.

End WithEngine.

End Timeline.

(** ** The first worker (index.ts, before the router) *)

Module Legacy.
Import Sql.

(** A row of the first [clawfiles] table; its primary key [id] is the
    key of the map that holds it. *)
Record Row : Type := {
  name : jsstring;
  creator : jsstring;
  values_declared : option jsstring;
  bio : option jsstring;
  created_at : Z;
  updated_at : Z;
  verified : Z;
  verification_method : option jsstring
}.

(** The fields the worker reads of a JSON body; a value that is not an
    object has none of them. *)
Record Body : Type := {
  body_name : option jsstring;
  body_creator : option jsstring;
  body_values : option jsstring
}.

(** A request: the method, the path of its URL, and the JSON of its
    body ([None] when [request.json()] throws or yields [null]). *)
Record Request : Type := {
  method : jsstring;
  pathname : jsstring;
  json : option Body
}.

(** The four columns of a listing. *)
Record Summary : Type := {
  summary_id : jsstring;
  summary_name : jsstring;
  summary_creator : jsstring;
  summary_created_at : Z
}.

Inductive Payload : Type :=
| Health (status : jsstring) (timestamp : Z)
| Version (name version description : jsstring)
| Failure (error : jsstring)
| Welcome (id name creator : jsstring) (created_at : Z) (message : jsstring)
| Found (id : jsstring) (row : Row)
| Listed (clawfiles : list Summary) (count : nat).

Record Response : Type := {
  status : Z;
  headers : list (jsstring * jsstring);
  payload : option Payload
}.

Definition corsHeaders : list (jsstring * jsstring) :=
  [(js "Access-Control-Allow-Origin", js "*");
   (js "Access-Control-Allow-Methods", js "GET, POST, PUT, DELETE, OPTIONS");
   (js "Access-Control-Allow-Headers", js "Content-Type, Authorization")].

(** [jsonResponse(data, status)]. *)
Definition jsonResponse (data : Payload) (status : Z) : Response :=
  {| status := status;
     headers := (js "Content-Type", js "application/json") :: corsHeaders;
     payload := Some data |}.

(** [createClawfile]: every exception inside it is answered 500. *)
Definition createClawfile (t : gmap jsstring Row) (nowMs : Z)
    (newId : jsstring) (req : Request) : Response * gmap jsstring Row :=
  match json req with
  | None => (jsonResponse (Failure (js "Failed to create clawfile")) 500, t)
  | Some body =>
      match Http.truthy (body_name body), Http.truthy (body_creator body) with
      | Some name, Some creator =>
          let id := newId in
          let now := nowMs in
          match t !! id with
          | Some _ =>
              (jsonResponse (Failure (js "Failed to create clawfile")) 500, t)
          | None =>
              (jsonResponse
                 (Welcome id name creator now
                    (js "Clawfile created. Welcome to clawish.")) 201,
               <[id := {| name := name; creator := creator;
                          values_declared :=
                            Some (default [] (Http.truthy (body_values body)));
                          bio := None;
                          created_at := now; updated_at := now;
                          verified := 0;
                          verification_method := None |}]> t)
          end
      | _, _ =>
          (jsonResponse
             (Failure (js "Missing required fields: name, creator")) 400, t)
      end
  end.

(** [getClawfile]. *)
Definition getClawfile (t : gmap jsstring Row) (id : jsstring) : Response :=
  match t !! id with
  | None => jsonResponse (Failure (js "Clawfile not found")) 404
  | Some result => jsonResponse (Found id result) 200
  end.

(** [listClawfiles]: the 50 newest. *)
Definition listClawfiles {G : Engine} (t : gmap jsstring Row) : Response :=
  let results :=
    limit 50
      (orderByDesc summary_created_at
         ((fun kv => {| summary_id := kv.1;
                        summary_name := name kv.2;
                        summary_creator := creator kv.2;
                        summary_created_at := created_at kv.2 |})
            <$> map_to_list t)) in
  jsonResponse (Listed results (length results)) 200.

(** [fetch(request, env, ctx)]; [nowMs] is the clock and [newId] the
    random UUID. *)
Definition fetch {G : Engine} (t : gmap jsstring Row) (nowMs : Z)
    (newId : jsstring) (req : Request) : Response * gmap jsstring Row :=
  if bool_decide (method req = js "OPTIONS") then
    ({| status := 200; headers := corsHeaders; payload := None |}, t)
  else
    let path := pathname req in
    if bool_decide (path = js "/api/health") then
      (jsonResponse (Health (js "ok") nowMs) 200, t)
    else if bool_decide (path = js "/api/v1") then
      (jsonResponse
         (Version (js "clawish") (js "0.1.0")
            (js "The homeland for silicon beings")) 200, t)
    else if bool_decide (path = js "/api/v1/clawfile")
            && bool_decide (method req = js "POST") then
      createClawfile t nowMs newId req
    else if bool_decide (path = js "/api/v1/clawfile")
            && bool_decide (method req = js "GET") then
      (listClawfiles t, t)
    else if startsWith (js "/api/v1/clawfile/") path
            && bool_decide (method req = js "GET") then
      let id := default [] (last (split (js "/") path)) in
      (getClawfile t id, t)
    else (jsonResponse (Failure (js "Not found")) 404, t).

End Legacy.


(** ** Sample data for concrete runs of the other routes *)

Module Samples.
Import Store Auth.

(** The demo store with a second identity, "bob", registered through
    the route, and Bob's context. *)
Definition twoDb : DB :=
  (Clawfiles.clawfilesPost (Demo.demoDb (js "active") 0) Demo.demoInstant
     (Demo.demoRegistration Demo.successorKey)).2.

Definition bobAuth : AuthContext :=
  {| authPublicKey := Demo.successorKey;
     identity :=
       {| id_mention_name := js "bob";
          id_display_name := js "Bob";
          id_verification_tier := 0;
          id_status := js "active" |} |}.

(** The community "lobsters", created by the demo identity. *)
Definition noCommunities : Communities.Tables :=
  {| Communities.rows := ∅; Communities.members := [] |}.

Definition lobstersBody : Communities.CreateBody :=
  {| Communities.body_name := Some (js "Lobsters");
     Communities.body_slug := Some (js "lobsters");
     Communities.body_description := None;
     Communities.body_is_public := None |}.

Definition lobstersRow : Communities.Community :=
  {| Communities.name := js "Lobsters";
     Communities.slug := js "lobsters";
     Communities.description := None;
     Communities.owner_id := Demo.demoPublicKey;
     Communities.avatar_url := None;
     Communities.banner_url := None;
     Communities.is_public := true;
     Communities.require_verification := 0;
     Communities.member_count := 1;
     Communities.post_count := 0;
     Communities.created_at := Demo.demoInstant;
     Communities.updated_at := Demo.demoInstant |}.

Definition lobsters : Communities.Tables :=
  (Communities.createHandler twoDb noCommunities Demo.demoAuth
     Demo.demoInstant lobstersBody).2.2.

(** Warrens: none yet, and two requests for a direct message. *)
Definition noWarrens : Warrens.Tables :=
  {| Warrens.warrens := ∅; Warrens.members := []; Warrens.messages := [] |}.

Definition dmTo (mention : jsstring) : Warrens.CreateBody :=
  {| Warrens.body_type := Some (js "dm");
     Warrens.body_name := None;
     Warrens.body_members := Some [mention] |}.

(** The first page of the directory of [twoDb] for a limit of 1. *)
Definition bobCard : Directory.Card :=
  {| Directory.public_key := Demo.successorKey;
     Directory.mention_name := js "bob";
     Directory.display_name := js "Bob";
     Directory.verification_tier := 0;
     Directory.status := js "active";
     Directory.created_at := Demo.demoInstant |}.

Definition firstPage : Directory.Page :=
  {| Directory.clawfiles := [bobCard];
     Directory.has_more := true;
     Directory.next_cursor := Some Demo.demoInstant |}.

(** A post that only followers should see, in the demo store. *)
Definition privatePost : PlazaMessage :=
  {| id := js "post-2";
     author_id := Demo.demoPublicKey;
     content := js "for followers";
     content_type := js "text/plain";
     reply_to := None;
     community_id := None;
     visibility := js "followers";
     signature := js "placeholder_signature";
     origin_node := js "clawish.com";
     posted_at := Demo.demoInstant |}.

Definition privateDb : DB :=
  {| clawfiles := clawfiles (Demo.demoDb (js "active") 0);
     clawfile_profiles := clawfile_profiles (Demo.demoDb (js "active") 0);
     plaza_messages := [privatePost];
     communities := [];
     ledger_entries := [] |}.

(** A request to the first worker that creates a clawfile. *)
Definition legacyCreate : Legacy.Request :=
  {| Legacy.method := js "POST";
     Legacy.pathname := js "/api/v1/clawfile";
     Legacy.json := Some {| Legacy.body_name := Some (js "Alpha");
                           Legacy.body_creator := Some (js "Allan");
                           Legacy.body_values := None |} |}.

End Samples.

(* ===================================================================== *)
(** * Part III. Properties                                                *)
(* ===================================================================== *)

(** A decidable proposition about literals, settled by evaluation. *)
Ltac by_evaluation :=
  match goal with
  | |- ?P => apply (@bool_decide_unpack P _); vm_compute; exact I
  end.

(** Linear arithmetic with division and remainder by constants. *)
Ltac ndiv := zify; Z.to_euclidean_division_equations; lia.

(** ** Strings *)

Section StringFacts.

(** A single-character separator that does not occur in [s] splits
    [s ++ sep ++ t] after [s]. *)
Lemma splitGo_single (c : N) (s t cur : jsstring) :
  c ∉ s ->
  splitGo [c] (s ++ c :: t) 0 cur = (rev cur ++ s) :: splitGo [c] t 0 [].
Proof.
  revert cur. induction s as [|x s IH]; intros cur Hc.
  - cbn. rewrite N.eqb_refl. cbn. by rewrite app_nil_r.
  - apply not_elem_of_cons in Hc as [Hx Hs].
    cbn. destruct (N.eqb_spec c x) as [->|_]; [done|]. cbn.
    rewrite (IH (x :: cur) Hs). cbn. by rewrite <- app_assoc.
Qed.

(** Without the separator there is one piece: the string itself. *)
Lemma splitGo_absent (c : N) (s cur : jsstring) :
  c ∉ s -> splitGo [c] s 0 cur = [rev cur ++ s].
Proof.
  revert cur. induction s as [|x s IH]; intros cur Hc.
  - cbn. by rewrite app_nil_r.
  - apply not_elem_of_cons in Hc as [Hx Hs].
    cbn. destruct (N.eqb_spec c x) as [->|_]; [done|]. cbn.
    rewrite (IH (x :: cur) Hs). cbn. by rewrite <- app_assoc.
Qed.

Lemma startsWith_take (i : nat) (s : jsstring) : startsWith (take i s) s = true.
Proof.
  revert i. induction s as [|x s IH]; intros [|i]; cbn; try done.
  by rewrite N.eqb_refl, IH.
Qed.

Lemma startsWith_refl (s : jsstring) : startsWith s s = true.
Proof. induction s as [|x s IH]; cbn; [done|]. by rewrite N.eqb_refl. Qed.

Lemma indexOf_bound (p s : jsstring) (i : nat) :
  indexOf p s = Some i -> (i <= length s)%nat.
Proof.
  revert i. induction s as [|x s IH]; intros i; cbn.
  - destruct (startsWith p []); [intros [= <-]; lia | done].
  - destruct (startsWith p (x :: s)); [intros [= <-]; lia |].
    destruct (indexOf p s) as [j|]; [|done].
    intros [= <-]. specialize (IH j eq_refl). lia.
Qed.

(** The first piece of a split is what precedes the first occurrence of
    the separator. *)
Lemma splitGo_head (sep s cur : jsstring) :
  head (splitGo sep s 0 cur)
  = Some (rev cur ++ match indexOf sep s with
                     | Some i => take i s
                     | None => s
                     end).
Proof.
  revert cur. induction s as [|x s IH]; intros cur.
  - cbn. destruct (startsWith sep []); cbn; by rewrite app_nil_r.
  - cbn [splitGo indexOf].
    destruct (startsWith sep (x :: s)); cbn; [by rewrite app_nil_r|].
    rewrite IH. cbn. rewrite <- app_assoc. cbn.
    by destruct (indexOf sep s).
Qed.

Lemma indexOf_startsWith (p s : jsstring) :
  startsWith p s = true -> indexOf p s = Some 0%nat.
Proof. intros H. destruct s; cbn; by rewrite H. Qed.

Lemma startsWith_length (p s : jsstring) :
  startsWith p s = true -> (length p <= length s)%nat.
Proof.
  revert s. induction p as [|a p IH]; intros [|b s]; cbn; try done; try lia.
  intros [_ H]%andb_prop. apply IH in H. lia.
Qed.

Lemma startsWith_app (p s q : jsstring) :
  startsWith p s = true -> startsWith p (s ++ q) = true.
Proof.
  revert s. induction p as [|a p IH]; intros [|b s]; cbn; try done.
  intros [Hab H]%andb_prop. by rewrite Hab, IH.
Qed.

Lemma startsWith_app_short (p s q : jsstring) :
  startsWith p s = false -> startsWith p (s ++ q) = true ->
  (length s < length p)%nat.
Proof.
  revert s. induction p as [|a p IH]; intros [|b s]; cbn; try done; try lia.
  destruct (a =? b); cbn; [|done]. intros H1 H2.
  specialize (IH s H1 H2). lia.
Qed.

Lemma indexOf_occurrence (p s : jsstring) (i : nat) :
  indexOf p s = Some i -> (i + length p <= length s)%nat.
Proof.
  revert i. induction s as [|x s IH]; intros i; cbn [indexOf].
  - destruct (startsWith p []) eqn:Hp; [|done].
    intros [= <-]. by apply startsWith_length in Hp.
  - destruct (startsWith p (x :: s)) eqn:Hp.
    + intros [= <-]. by apply startsWith_length in Hp.
    + destruct (indexOf p s) as [j|]; [|done].
      intros [= <-]. specialize (IH j eq_refl). cbn. lia.
Qed.

(** The first occurrence of a pattern in a string is still the first
    when text is appended. *)
Lemma indexOf_app (p s q : jsstring) (i : nat) :
  indexOf p s = Some i -> indexOf p (s ++ q) = Some i.
Proof.
  revert i. induction s as [|x s IH]; intros i.
  - cbn [indexOf]. destruct (startsWith p []) eqn:Hp; [|done].
    intros [= <-]. apply indexOf_startsWith.
    by apply (startsWith_app p [] q).
  - intros Hi. pose proof (indexOf_occurrence _ _ _ Hi) as Hb.
    cbn [indexOf] in Hi. cbn [app indexOf].
    destruct (startsWith p (x :: s)) eqn:Hp.
    + pose proof (startsWith_app p (x :: s) q Hp) as Hq. cbn [app] in Hq.
      by rewrite Hq.
    + destruct (startsWith p (x :: s ++ q)) eqn:Hq.
      * apply (startsWith_app_short p (x :: s) q Hp) in Hq.
        cbn [length] in Hq, Hb. lia.
      * destruct (indexOf p s) as [j|]; [|done].
        by rewrite (IH j eq_refl).
Qed.

(** The runtime functions on the examples of their standards. *)
Example textEncode_examples :
  textEncode (js "hi") = [x68; x69]
  /\ textEncode [233] = [xc3; xa9]
  /\ textEncode [0x20AC] = [xe2; x82; xac]
  /\ textEncode [0xD83D; 0xDE00] = [xf0; x9f; x98; x80]
  /\ textEncode [0xD83D] = [xef; xbf; xbd].
Proof. repeat split. Qed.

Example split_examples :
  split (js ":") (js "a:b:c") = [js "a"; js "b"; js "c"]
  /\ split (js ":") (js "abc") = [js "abc"]
  /\ split (js ":") (js "a:") = [js "a"; []]
  /\ split (js "/api") (js "http://h/api/v1/api?x")
     = [js "http://h"; js "/v1"; js "?x"]
  /\ replace (js "http://h") [] (js "http://h/api/v1") = js "/api/v1".
Proof. repeat split. Qed.

Example base64_examples :
  Base64.btoa (js "hello") = Some (js "aGVsbG8=")
  /\ Base64.atob (js "aGVsbG8=") = Some (js "hello")
  /\ Base64.atob (js "aGVsbG8") = Some (js "hello")
  /\ Base64.atob (js "aGVs bG8=") = Some (js "hello")
  /\ Base64.atob (js "aGVsb") = None
  /\ Base64.atob (js "aGV:bG8=") = None
  /\ Base64.btoa [0x20AC] = None.
Proof. repeat split. Qed.

End StringFacts.

(** ** base64 *)

Section Base64Facts.
Import Base64.

(** Induction on a list three elements at a time. *)
Lemma list_ind3 {A} (P : list A -> Prop) :
  P [] -> (forall a, P [a]) -> (forall a b, P [a; b]) ->
  (forall a b c r, P r -> P (a :: b :: c :: r)) ->
  forall l, P l.
Proof.
  intros H0 H1 H2 H3.
  fix IH 1. intros [|a [|b [|c r]]];
    [apply H0 | apply H1 | apply H2 | apply H3, IH].
Qed.

Lemma charOf_index (n : N) : n < 64 -> indexOfChar (charOf n) = Some n.
Proof.
  intros Hn.
  assert (H : forallb (fun k => bool_decide (indexOfChar (charOf k) = Some k))
                (map N.of_nat (seq 0 64)) = true) by (vm_compute; reflexivity).
  rewrite forallb_forall in H.
  specialize (H n). rewrite bool_decide_eq_true in H. apply H.
  apply in_map_iff. exists (N.to_nat n). split; [lia|].
  apply in_seq. lia.
Qed.

(** A character of the alphabet is neither whitespace, nor '=', nor ':'. *)
Lemma indexOfChar_Some (c v : N) :
  indexOfChar c = Some v ->
  isAsciiWhitespace c = false /\ c <> pad /\ c <> 58 /\ v < 64.
Proof.
  unfold indexOfChar, isAsciiWhitespace, pad.
  repeat case_match; intros [= <-]; repeat split; lia.
Qed.

Lemma sextets_Some (s : jsstring) (vs : list N) :
  sextets s = Some vs ->
  Forall (fun c => isAsciiWhitespace c = false /\ c <> pad /\ c <> 58) s.
Proof.
  revert vs. induction s as [|c s IH]; intros vs; [constructor|].
  cbn. destruct (indexOfChar c) as [v|] eqn:Hc; [|done].
  destruct (sextets s) as [ws|]; [|done]. intros _.
  constructor; [|by eapply IH].
  apply indexOfChar_Some in Hc. tauto.
Qed.

Lemma encode_split (l : list N) : encode l = encodeBody l ++ padding l.
Proof.
  induction l as [| a | a b | a b c r IH] using list_ind3; try reflexivity.
  cbn [encode encodeBody padding]. rewrite IH. reflexivity.
Qed.

(** The 6-bit values of the unpadded encoding decode to the bytes. *)
Lemma sextets_encodeBody (l : list N) :
  Forall (fun x => x < 256) l ->
  exists vs, sextets (encodeBody l) = Some vs /\ decode vs = l
             /\ (length (encodeBody l) mod 4 <> 1)%nat.
Proof.
  induction l as [| a | a b | a b c r IH] using list_ind3; intros Hl.
  - exists []. repeat split. cbn. lia.
  - apply Forall_cons_iff in Hl as [Ha _].
    cbn [encodeBody sextets].
    rewrite !charOf_index by ndiv.
    eexists. split; [reflexivity|]. split; [|cbn; lia].
    cbn [decode]. f_equal. ndiv.
  - apply Forall_cons_iff in Hl as [Ha Hl].
    apply Forall_cons_iff in Hl as [Hb _].
    cbn [encodeBody sextets].
    rewrite !charOf_index by ndiv.
    eexists. split; [reflexivity|]. split; [|cbn; lia].
    cbn [decode]. f_equal; [ndiv|]. f_equal. ndiv.
  - apply Forall_cons_iff in Hl as [Ha Hl].
    apply Forall_cons_iff in Hl as [Hb Hl].
    apply Forall_cons_iff in Hl as [Hc Hl].
    destruct (IH Hl) as (vs & Hs & Hd & Hn).
    cbn [encodeBody sextets]. rewrite Hs.
    rewrite !charOf_index by ndiv.
    eexists. split; [reflexivity|]. split.
    + cbn [decode]. rewrite Hd.
      f_equal; [ndiv|]. f_equal; [ndiv|]. f_equal. ndiv.
    + cbn [length].
      replace (S (S (S (S (length (encodeBody r))))))
        with (length (encodeBody r) + 1 * 4)%nat by lia.
      rewrite Nat.Div0.mod_add. exact Hn.
Qed.

End Base64Facts.

Section Base64Roundtrip.
Import Base64.

Lemma filter_all {A} (P : A -> Prop) `{!forall x, Decision (P x)} (l : list A) :
  Forall P l -> filter P l = l.
Proof.
  induction 1 as [|x l Hx _ IH]; [done|].
  by rewrite filter_cons_True, IH.
Qed.

Lemma padding_cases (l : list N) :
  padding l = [] \/ padding l = [pad] \/ padding l = [pad; pad].
Proof.
  induction l as [| a | a b | a b c r IH] using list_ind3; cbn; auto.
Qed.

Lemma encode_length (l : list N) : (length (encode l) mod 4 = 0)%nat.
Proof.
  induction l as [| a | a b | a b c r IH] using list_ind3; try reflexivity.
  cbn [encode length].
  replace (S (S (S (S (length (encode r))))))
    with (length (encode r) + 1 * 4)%nat by lia.
  by rewrite Nat.Div0.mod_add.
Qed.

(** Padding after characters that are not '=' is what the decoder drops. *)
Lemma stripPadding_app (s p : jsstring) :
  Forall (fun c => c <> pad) s ->
  p = [] \/ p = [pad] \/ p = [pad; pad] ->
  stripPadding (s ++ p) = s.
Proof.
  intros Hs Hp. unfold stripPadding. rewrite rev_app_distr.
  assert (Hh : forall x r, rev s = x :: r -> (x =? pad) = false).
  { intros x r E. apply N.eqb_neq.
    rewrite Forall_forall in Hs. apply Hs, list_elem_of_In, in_rev.
    rewrite E. by left. }
  assert (Hnil : rev s = [] -> s = []).
  { intros E. apply (f_equal (@rev N)) in E. by rewrite rev_involutive in E. }
  destruct Hp as [-> | [-> | ->]]; cbn.
  - rewrite app_nil_r.
    destruct (rev s) as [|x r] eqn:E; [done|]. by rewrite (Hh x r).
  - destruct (rev s) as [|x r] eqn:E; [by rewrite Hnil|].
    rewrite (Hh x r eq_refl). by rewrite <- E, rev_involutive.
  - by rewrite rev_involutive.
Qed.

(** [atob] undoes the encoding of bytes. *)
Lemma atob_encode (l : list N) :
  Forall (fun x => x < 256) l -> atob (encode l) = Some l.
Proof.
  intros Hl.
  destruct (sextets_encodeBody l Hl) as (vs & Hs & Hd & Hn).
  pose proof (sextets_Some _ _ Hs) as Hc.
  assert (Hf : filter (fun c => isAsciiWhitespace c = false) (encode l) = encode l).
  { rewrite encode_split, filter_app. f_equal.
    - apply filter_all. eapply Forall_impl; [exact Hc|]. cbn. tauto.
    - by destruct (padding_cases l) as [E|[E|E]]; rewrite E. }
  unfold atob. rewrite Hf, encode_length. cbn [Nat.eqb].
  rewrite encode_split, stripPadding_app.
  - destruct (length (encodeBody l) mod 4 =? 1)%nat eqn:E;
      [apply Nat.eqb_eq in E; done|].
    by rewrite Hs, Hd.
  - eapply Forall_impl; [exact Hc|]. cbn. tauto.
  - apply padding_cases.
Qed.

Lemma fromCharCode_bounded (bs : list byte) :
  Forall (fun x => x < 256) (fromCharCode bs).
Proof.
  apply Forall_forall. intros x Hx. unfold fromCharCode in Hx.
  apply list_elem_of_In, in_map_iff in Hx as (b & <- & _).
  pose proof (Byte.to_N_bounded b). lia.
Qed.

Lemma bytesOfChars_fromCharCode (bs : list byte) :
  bytesOfChars (fromCharCode bs) = bs.
Proof.
  unfold bytesOfChars, fromCharCode. rewrite map_map.
  rewrite <- (map_id bs) at 2. apply map_ext. intros b. unfold byteOf.
  pose proof (Byte.to_N_bounded b).
  rewrite N.mod_small by lia. by rewrite Byte.of_to_N.
Qed.

(** [btoa] of the characters of a byte array succeeds; the text has no
    ':' and [atob] gives the bytes back. *)
Lemma btoa_bytes (bs : list byte) :
  exists e, btoa (fromCharCode bs) = Some e
            /\ (58 ∉ e)
            /\ (bytesOfChars <$> atob e) = Some bs.
Proof.
  pose proof (fromCharCode_bounded bs) as Hb.
  exists (encode (fromCharCode bs)). split; [|split].
  - unfold btoa.
    replace (forallb (fun c => c <=? 255) (fromCharCode bs)) with true; [done|].
    symmetry. apply forallb_forall. intros x Hx.
    rewrite Forall_forall in Hb. apply list_elem_of_In, Hb in Hx. lia.
  - destruct (sextets_encodeBody _ Hb) as (vs & Hs & _ & _).
    apply sextets_Some in Hs. rewrite encode_split.
    intros [Hin|Hin]%elem_of_app.
    + rewrite Forall_forall in Hs. by destruct (Hs _ Hin) as (_ & _ & ?).
    + destruct (padding_cases (fromCharCode bs)) as [E|[E|E]];
        rewrite E in Hin;
        repeat (apply elem_of_cons in Hin as [Hin|Hin]; [done|]);
        by apply elem_of_nil in Hin.
  - rewrite atob_encode by done. cbn. by rewrite bytesOfChars_fromCharCode.
Qed.

(** The keys and signatures of the sources travel as
    [btoa(String.fromCharCode(...bytes))] and come back through
    [Uint8Array.from(atob(text), c => c.charCodeAt(0))]: the round trip
    gives the bytes back. *)
Theorem base64_bytes_roundtrip (bs : list byte) :
  (Base64.btoa (fromCharCode bs)
     ≫= fun text => bytesOfChars <$> Base64.atob text) = Some bs.
Proof.
  destruct (btoa_bytes bs) as (text & Hb & _ & Ha).
  rewrite Hb. cbn [mbind option_bind]. exact Ha.
Qed.

End Base64Roundtrip.
(** ** utils/crypto *)

Section CryptoFacts.
Import Crypto.
Context {E : Ed25519}.

(** The pieces of a public-key string: what precedes the first ':' and
    what stands between the first and the second. *)
Lemma split_tagged (key : jsstring) :
  58 ∉ key -> split (js ":") (key ++ js ":ed25519") = [key; js "ed25519"].
Proof.
  intros Hk. unfold split. change (js ":") with [58].
  change (js ":ed25519") with (58 :: js "ed25519").
  by rewrite splitGo_single.
Qed.

Lemma split_untagged (key : jsstring) :
  58 ∉ key -> split (js ":") key = [key].
Proof.
  intros Hk. unfold split. change (js ":") with [58].
  by rewrite splitGo_absent.
Qed.

(** A key string without ':' has no algorithm tag: the [try] block throws
    and the result is [false], whatever the signature. *)
Lemma verifySignature_untagged (key message signature : jsstring) :
  58 ∉ key -> verifySignature key message signature = false.
Proof.
  intros Hk. unfold verifySignature, verifyAttempt.
  rewrite split_untagged by done. cbn. by case_decide.
Qed.

(** With the tag, the key and the signature are decoded and handed to
    the library. *)
Lemma verifyAttempt_tagged (key message signature : jsstring) :
  58 ∉ key ->
  verifyAttempt (key ++ js ":ed25519") message signature
  = (publicKeyBytes ← bytesOfChars <$> Base64.atob key;
     signatureBytes ← bytesOfChars <$> Base64.atob signature;
     ed_verify signatureBytes (textEncode message) publicKeyBytes).
Proof.
  intros Hk. unfold verifyAttempt. rewrite split_tagged by done.
  cbn [lookup list_lookup default]. by rewrite decide_True.
Qed.

(** A character of a hex digest is a digit or a letter a-f. *)
Lemma hexOf_not_promise (bs : list byte) : hexOf bs <> js "[object Promise]".
Proof.
  destruct bs as [|b bs]; [done|].
  unfold hexOf. cbn [map concat hexByte app].
  intros [= H _]. unfold hexDigit in H.
  pose proof (Byte.to_N_bounded b).
  destruct (Byte.to_N b / 16 <? 10) eqn:Hd; ndiv.
Qed.

End CryptoFacts.

(** ** SHA-256: the digest has 32 bytes *)

Section Sha256Facts.
Import Sha256.

Lemma round_length (s : list N) (kw : N * N) : length (round s kw) = length s.
Proof.
  by destruct s as [|a [|b [|c [|d [|e [|f [|g [|h [|i r]]]]]]]]].
Qed.

Lemma compress_length (h block : list N) :
  length (compress h block) = length h.
Proof.
  unfold compress. rewrite length_map, length_combine.
  set (kw := combine K _). clearbody kw.
  assert (H : forall s, length (fold_left round kw s) = length s).
  { induction kw as [|x kw IH]; intros s; cbn; [done|].
    by rewrite IH, round_length. }
  rewrite H. lia.
Qed.

Lemma digest_length (m : list byte) : length (digest m) = 32%nat.
Proof.
  unfold digest. rewrite length_map.
  set (bl := blocks _ _). clearbody bl.
  assert (H : forall h, length (fold_left compress bl h) = length h).
  { induction bl as [|x bl IH]; intros h; cbn; [done|].
    by rewrite IH, compress_length. }
  specialize (H H0).
  destruct (fold_left compress bl H0)
    as [|a [|b [|c [|d [|e [|f [|g [|h [|i r]]]]]]]]]; try done.
Qed.

(** The digests of the empty message and of "abc" (FIPS 180-4 examples). *)
Example sha256_empty :
  Crypto.sha256 []
  = js "e3b0c44298fc1c149afbf4c8996fb92427ae41e4649b934ca495991b7852b855".
Proof. vm_compute. reflexivity. Qed.

Example sha256_abc :
  Crypto.sha256 (js "abc")
  = js "ba7816bf8f01cfea414140de5dae2223b00361a396177a9cb410ff61f20015ad".
Proof. vm_compute. reflexivity. Qed.

End Sha256Facts.

(** The stand-in library keeps the promise of the real one. *)
Lemma demoEd_correct : Ed25519Correct Demo.demoEd.
Proof.
  intros priv msg Hlen. cbn.
  exists (Sha256.digest priv), (Demo.demoTag (Sha256.digest priv) msg).
  rewrite !decide_True by done. split; [done|]. split; [done|].
  rewrite decide_True.
  - by rewrite bool_decide_eq_true_2.
  - unfold Demo.demoTag. by rewrite length_app, !digest_length.
Qed.


Section CryptoClaims.
Import Crypto.

(** C1 (as amended).  For every message and every key pair that
    [generateKeyPair] makes from a 32-byte seed, given a signature library
    that keeps its promise: [signMessage] signs the message with the
    private key, and [verifySignature] accepts the signature under the
    public key once the algorithm tag ":ed25519" is appended to it; under
    the public key exactly as [generateKeyPair] returns it (plain base64,
    no tag) [verifySignature] answers [false]. *)
Theorem generated_key_roundtrip
    (E : Ed25519) (seed : list byte) (message : jsstring) :
  Ed25519Correct E ->
  length seed = 32%nat ->
  exists kp sg,
    generateKeyPair seed = Some kp /\
    signMessage (privateKey kp) message = Some sg /\
    verifySignature (publicKey kp ++ js ":ed25519") message sg = true /\
    verifySignature (publicKey kp) message sg = false.
Proof.
  intros HE Hlen.
  destruct (HE seed (textEncode message) Hlen) as (pub & sg0 & Hpub & Hsg & Hv).
  destruct (btoa_bytes pub) as (epub & Hbp & Hcp & Hap).
  destruct (btoa_bytes seed) as (epriv & Hbs & _ & Has).
  destruct (btoa_bytes sg0) as (esg & Hbg & _ & Hag).
  exists {| publicKey := epub; privateKey := epriv |}, esg.
  split; [|split; [|split]].
  - unfold generateKeyPair. rewrite Hpub. cbn. rewrite Hbp. cbn.
    by rewrite Hbs.
  - unfold signMessage. cbn [privateKey]. rewrite Has. cbn.
    rewrite Hsg. cbn. exact Hbg.
  - unfold verifySignature. cbn [publicKey].
    rewrite verifyAttempt_tagged by done.
    rewrite Hap. cbn. rewrite Hag. cbn. by rewrite Hv.
  - cbn [publicKey]. by apply verifySignature_untagged.
Qed.

(** The round trip for the demo seed and the message "hello". *)
Lemma generated_key_roundtrip_witness :
  exists kp sg,
    generateKeyPair (E := Demo.demoEd) Demo.demoSeed = Some kp /\
    signMessage (E := Demo.demoEd) (privateKey kp) (js "hello") = Some sg /\
    verifySignature (E := Demo.demoEd) (publicKey kp ++ js ":ed25519")
      (js "hello") sg = true /\
    verifySignature (E := Demo.demoEd) (publicKey kp) (js "hello") sg = false.
Proof.
  apply (generated_key_roundtrip Demo.demoEd Demo.demoSeed (js "hello")).
  - exact demoEd_correct.
  - reflexivity.
Defined.

(** C1 (as stated) fails: the public key that [generateKeyPair] returns
    carries no algorithm tag, so [verifySignature] rejects the signature
    that [signMessage] made with the matching private key. *)
Lemma generated_key_untagged_rejected :
  generateKeyPair (E := Demo.demoEd) Demo.demoSeed = Some Demo.demoKeyPair /\
  signMessage (E := Demo.demoEd) (privateKey Demo.demoKeyPair) (js "hello")
    = Some Demo.demoSignature /\
  verifySignature (E := Demo.demoEd) (publicKey Demo.demoKeyPair) (js "hello")
    Demo.demoSignature = false.
Proof. vm_compute. repeat split. Qed.

(** C2.  What [buildCanonicalString] returns: its third line is the text
    of the promise object, never the hex digest of the body, so it differs
    from the canonical string of the specification on every input. *)
Theorem buildCanonicalString_interpolates_promise
    (method path timestamp body : jsstring) :
  buildCanonicalString method path timestamp body
  = method ++ js " " ++ path ++ nl ++ timestamp ++ nl ++ js "[object Promise]"
  /\ buildCanonicalString method path timestamp body
     <> canonicalStringSpec method path timestamp body.
Proof.
  split; [reflexivity|].
  unfold buildCanonicalString, canonicalStringSpec, sha256, toTemplate.
  intros H. repeat apply app_inv_head in H.
  symmetry in H. by apply hexOf_not_promise in H.
Qed.

(** C2 at a concrete request: the empty body. *)
Example buildCanonicalString_empty_body :
  buildCanonicalString (js "GET") (js "/api/v1/plaza")
    (js "2026-11-02T00:00:00Z") []
  = js "GET /api/v1/plaza" ++ nl ++ js "2026-11-02T00:00:00Z" ++ nl
      ++ js "[object Promise]"
  /\ canonicalStringSpec (js "GET") (js "/api/v1/plaza")
       (js "2026-11-02T00:00:00Z") []
     = js "GET /api/v1/plaza" ++ nl ++ js "2026-11-02T00:00:00Z" ++ nl
         ++ js "e3b0c44298fc1c149afbf4c8996fb92427ae41e4649b934ca495991b7852b855".
Proof. split; vm_compute; reflexivity. Qed.

(** C3 (as amended).  [verifySignature] is a total function into [bool]
    (the [catch] leaves no exception), and it answers [true] exactly when
    the second ':'-separated field of the key string is "ed25519", the
    first field and the signature both decode as base64, and the
    library's [verify] returns [true] on the decoded bytes; what follows
    a second ':' is not looked at.  So a missing or different algorithm
    tag, a key or a signature that is not base64, and a library call that
    throws or returns [false] all give [false]. *)
Theorem verifySignature_fails_closed
    (E : Ed25519) (publicKey message signature : jsstring) :
  (verifySignature publicKey message signature = true <->
   exists key rest kb sb,
     split (js ":") publicKey = key :: js "ed25519" :: rest /\
     Base64.atob key = Some kb /\
     Base64.atob signature = Some sb /\
     ed_verify (bytesOfChars sb) (textEncode message) (bytesOfChars kb)
     = Some true)
  /\ (split (js ":") publicKey !! 1%nat <> Some (js "ed25519") ->
      verifySignature publicKey message signature = false)
  /\ (forall key, split (js ":") publicKey !! 0%nat = Some key ->
      Base64.atob key = None ->
      verifySignature publicKey message signature = false)
  /\ (Base64.atob signature = None ->
      verifySignature publicKey message signature = false).
Proof.
  assert (Hiff : verifySignature publicKey message signature = true <->
   exists key rest kb sb,
     split (js ":") publicKey = key :: js "ed25519" :: rest /\
     Base64.atob key = Some kb /\
     Base64.atob signature = Some sb /\
     ed_verify (bytesOfChars sb) (textEncode message) (bytesOfChars kb)
     = Some true).
  { unfold verifySignature, verifyAttempt. split.
    - destruct (split (js ":") publicKey) as [|key [|tag rest]] eqn:Hs;
        cbn [lookup list_lookup default id]; case_decide as Ht; try done.
      injection Ht as ->.
      destruct (Base64.atob key) as [kb|] eqn:Hk; [|done].
      destruct (Base64.atob signature) as [sb|] eqn:Hg; [|done].
      cbn. intros Hv. exists key, rest, kb, sb. repeat split; try done.
      by destruct (ed_verify _ _ _) as [[|]|].
    - intros (key & rest & kb & sb & -> & Hk & Hg & Hv).
      cbn [lookup list_lookup default id]. rewrite decide_True by done.
      rewrite Hk, Hg. cbn. by rewrite Hv. }
  split; [exact Hiff|]. repeat split.
  - intros Ht. apply not_true_is_false. intros Hv.
    apply Hiff in Hv as (key & rest & kb & sb & Hs & _).
    rewrite Hs in Ht. by apply Ht.
  - intros key Hkey Hk. apply not_true_is_false. intros Hv.
    apply Hiff in Hv as (key' & rest & kb & sb & Hs & Hk' & _).
    rewrite Hs in Hkey. cbn in Hkey. congruence.
  - intros Hg. apply not_true_is_false. intros Hv.
    apply Hiff in Hv as (key' & rest & kb & sb & _ & _ & Hg' & _).
    congruence.
Qed.

(** A key string tagged "rsa" is rejected whatever the signature. *)
Lemma verifySignature_fails_closed_witness :
  verifySignature (E := Demo.demoEd) (js "S7Bvjk46:rsa") (js "hello")
    Demo.demoSignature = false.
Proof.
  refine (proj1 (proj2 (verifySignature_fails_closed Demo.demoEd
    (js "S7Bvjk46:rsa") (js "hello") Demo.demoSignature)) _).
  vm_compute. discriminate.
Defined.

(** C3 (as stated) fails: a key string with a third field is not of the
    form "base64key:ed25519", yet it passes with the signature that is
    valid for its first field. *)
Lemma verifySignature_accepts_third_field :
  signMessage (E := Demo.demoEd) (privateKey Demo.demoKeyPair) (js "hello")
    = Some Demo.demoSignature
  /\ verifySignature (E := Demo.demoEd)
       (publicKey Demo.demoKeyPair ++ js ":ed25519:junk") (js "hello")
       Demo.demoSignature = true.
Proof. vm_compute. split; reflexivity. Qed.

(** The tag is the second field alone: what follows a second ':' in the
    key string is not looked at. *)
Remark verifySignature_ignores_later_fields (E : Ed25519)
    (key junk message signature : jsstring) :
  58 ∉ key ->
  verifySignature (key ++ js ":ed25519:" ++ junk) message signature
  = verifySignature (key ++ js ":ed25519") message signature.
Proof.
  intros Hk. unfold verifySignature. f_equal.
  rewrite verifyAttempt_tagged by done.
  unfold verifyAttempt, split. change (js ":") with [58].
  change (js ":ed25519:" ++ junk) with (58 :: js "ed25519:" ++ junk).
  rewrite splitGo_single by done.
  change (js "ed25519:" ++ junk) with (js "ed25519" ++ 58 :: junk).
  rewrite splitGo_single by by_evaluation.
  cbn [lookup list_lookup default id rev app]. by rewrite decide_True.
Qed.

(** A third field does not change the answer. *)
Lemma verifySignature_ignores_later_fields_witness :
  verifySignature (E := Demo.demoEd) (js "S7Bvjk46" ++ js ":ed25519:" ++ js "x")
    (js "hello") Demo.demoSignature
  = verifySignature (E := Demo.demoEd) (js "S7Bvjk46" ++ js ":ed25519")
      (js "hello") Demo.demoSignature.
Proof.
  apply (verifySignature_ignores_later_fields Demo.demoEd (js "S7Bvjk46")
           (js "x") (js "hello") Demo.demoSignature).
  by_evaluation.
Defined.

End CryptoClaims.

(** ** middleware/auth *)

Section AuthFacts.
Import Http Store Auth.

(** The path of the canonical string is the URL from its first "/api"
    on; a URL without "/api" leaves the empty path. *)
Lemma canonicalPath_drop (url : jsstring) :
  canonicalPath url
  = match indexOf (js "/api") url with
    | Some i => drop i url
    | None => []
    end.
Proof.
  unfold canonicalPath, split.
  rewrite <- head_lookup, splitGo_head. cbn [default rev app id].
  unfold replace.
  destruct (indexOf (js "/api") url) as [i|] eqn:Hi.
  - rewrite indexOf_startsWith by apply startsWith_take.
    apply indexOf_bound in Hi.
    unfold Datatypes.id. rewrite take_0, length_take. cbn [app]. f_equal. lia.
  - rewrite indexOf_startsWith by apply startsWith_refl.
    unfold Datatypes.id. rewrite take_0. cbn [app]. by rewrite Nat.add_0_l, drop_all.
Qed.

Context {E : Ed25519} {D : DateParser}.

(** With the three headers present the middleware is the skew check
    followed by [verifyAndResolve]. *)
Lemma authMiddleware_present (required : bool) (db : DB) (nowMs : Z)
    (req : Request) (publicKey signature timestamp : jsstring) :
  truthy (xPublicKey req) = Some publicKey ->
  truthy (xSignature req) = Some signature ->
  truthy (xTimestamp req) = Some timestamp ->
  authMiddleware required db nowMs req
  = if skewTooLarge (skewOf nowMs (dateGetTime timestamp))
    then Respond (ErrorJson 401 (js "timestamp_skew")
                    (js "Timestamp skew too large ("
                       ++ skewText (skewOf nowMs (dateGetTime timestamp))
                       ++ js "s). Check system clock."))
    else verifyAndResolve db req publicKey signature timestamp.
Proof. intros Hk Hs Ht. unfold authMiddleware. by rewrite Hk, Hs, Ht. Qed.

End AuthFacts.

Section AuthClaims.
Import Http Store Auth.

(** C4 (as amended).  With the three headers present and a timestamp
    that parses, the request passes the replay guard (and goes on to the
    signature check) when the skew, the absolute difference of the two
    times each floored to whole seconds, is at most 60, and is answered
    401 [timestamp_skew] when it exceeds 60.  A timestamp exactly 60 s
    behind or ahead of the clock has skew 60 and passes; one 61 s behind
    or ahead has skew 61 and fails.  In milliseconds: a distance of at
    most 60000 passes and one of 61000 or more fails; in between, the
    request passes exactly when the later of the two times is at least
    the excess over 60000 into its second. *)
Theorem replay_guard_boundary (E : Ed25519) (D : DateParser)
    (required : bool) (db : DB) (nowMs reqMs : Z) (req : Request)
    (publicKey signature timestamp : jsstring) :
  truthy (xPublicKey req) = Some publicKey ->
  truthy (xSignature req) = Some signature ->
  truthy (xTimestamp req) = Some timestamp ->
  dateGetTime timestamp = Some reqMs ->
  skewOf nowMs (Some reqMs) = Some (Z.abs (seconds nowMs - seconds reqMs))
  /\ ((Z.abs (seconds nowMs - seconds reqMs) <= 60)%Z ->
      authMiddleware required db nowMs req
      = verifyAndResolve db req publicKey signature timestamp)
  /\ ((60 < Z.abs (seconds nowMs - seconds reqMs))%Z ->
      authMiddleware required db nowMs req
      = Respond (ErrorJson 401 (js "timestamp_skew")
                   (js "Timestamp skew too large ("
                      ++ ofInt (Z.abs (seconds nowMs - seconds reqMs))
                      ++ js "s). Check system clock.")))
  /\ ((reqMs = nowMs - 60000 \/ reqMs = nowMs + 60000)%Z ->
      Z.abs (seconds nowMs - seconds reqMs) = 60%Z)
  /\ ((reqMs = nowMs - 61000 \/ reqMs = nowMs + 61000)%Z ->
      Z.abs (seconds nowMs - seconds reqMs) = 61%Z)
  /\ ((Z.abs (nowMs - reqMs) <= 60000)%Z ->
      (Z.abs (seconds nowMs - seconds reqMs) <= 60)%Z)
  /\ ((61000 <= Z.abs (nowMs - reqMs))%Z ->
      (60 < Z.abs (seconds nowMs - seconds reqMs))%Z)
  /\ ((60000 < nowMs - reqMs < 61000)%Z ->
      (Z.abs (seconds nowMs - seconds reqMs) <= 60
       <-> nowMs - reqMs - 60000 <= nowMs mod 1000)%Z)
  /\ ((60000 < reqMs - nowMs < 61000)%Z ->
      (Z.abs (seconds nowMs - seconds reqMs) <= 60
       <-> reqMs - nowMs - 60000 <= reqMs mod 1000)%Z).
Proof.
  intros Hk Hs Ht Hd.
  pose proof (authMiddleware_present required db nowMs req _ _ _ Hk Hs Ht) as Hm.
  rewrite Hd in Hm. cbn [skewOf fmap option_fmap option_map skewTooLarge skewText] in Hm.
  split; [reflexivity|]. split; [|split].
  - intros Hle. rewrite Hm.
    destruct (Z.ltb_spec 60 (Z.abs (seconds nowMs - seconds reqMs))); [lia|done].
  - intros Hgt. rewrite Hm.
    destruct (Z.ltb_spec 60 (Z.abs (seconds nowMs - seconds reqMs))); [done|lia].
  - unfold seconds. repeat split; intros; ndiv.
Qed.


(** A request signed 60 s before the clock reading passes the guard. *)
Lemma replay_guard_boundary_witness :
  authMiddleware (E := Demo.demoEd) (D := Demo.demoDate) true
    (Demo.demoDb (js "active") 0) (Demo.demoInstant + 60000)
    (Demo.demoRequest Demo.demoUrl)
  = verifyAndResolve (E := Demo.demoEd) (Demo.demoDb (js "active") 0)
      (Demo.demoRequest Demo.demoUrl) Demo.demoPublicKey
      (default [] (xSignature (Demo.demoRequest Demo.demoUrl)))
      Demo.demoTimestamp.
Proof.
  refine (proj1 (proj2 (replay_guard_boundary Demo.demoEd Demo.demoDate true
    (Demo.demoDb (js "active") 0) (Demo.demoInstant + 60000) Demo.demoInstant
    (Demo.demoRequest Demo.demoUrl) Demo.demoPublicKey _ Demo.demoTimestamp
    _ _ _ _)) _).
  - vm_compute. reflexivity.
  - vm_compute. reflexivity.
  - vm_compute. reflexivity.
  - vm_compute. reflexivity.
  - vm_compute. discriminate.
Defined.

(** C4 (as stated) fails.  The clock reads 60.999 s after the timestamp
    of the demo request: the skew exceeds 60 seconds and the request
    passes the guard.  And the guard is not symmetric: 60.001 s after
    the timestamp passes, 60.001 s before it is refused. *)
Lemma replay_guard_whole_seconds :
  dateGetTime (DateParser := Demo.demoDate) Demo.demoTimestamp
    = Some Demo.demoInstant
  /\ authMiddleware (E := Demo.demoEd) (D := Demo.demoDate) true
       (Demo.demoDb (js "active") 0) (Demo.demoInstant + 60999)
       (Demo.demoRequest Demo.demoUrl)
     = Next (Some Demo.demoAuth)
  /\ authMiddleware (E := Demo.demoEd) (D := Demo.demoDate) true
       (Demo.demoDb (js "active") 0) (Demo.demoInstant + 60001)
       (Demo.demoRequest Demo.demoUrl)
     = Next (Some Demo.demoAuth)
  /\ authMiddleware (E := Demo.demoEd) (D := Demo.demoDate) true
       (Demo.demoDb (js "active") 0) (Demo.demoInstant - 60001)
       (Demo.demoRequest Demo.demoUrl)
     = Respond (ErrorJson 401 (js "timestamp_skew")
                  (js "Timestamp skew too large (61s). Check system clock.")).
Proof. vm_compute. repeat split. Qed.

(** C5.  For a request that carries the three headers, passes the skew
    check and whose signature verifies: with no row for the public key the
    answer is 401 [unknown_identity]; with a row whose status is not
    "active" (so for "rotated", "suspended" and "archived") it is 401
    [inactive_identity]; with an active row the middleware calls [next]
    with a context that holds the public key and the row's mention name,
    display name, verification tier and status. *)
Theorem identity_resolution (E : Ed25519) (D : DateParser)
    (required : bool) (db : DB) (nowMs : Z) (req : Request)
    (publicKey signature timestamp : jsstring) :
  truthy (xPublicKey req) = Some publicKey ->
  truthy (xSignature req) = Some signature ->
  truthy (xTimestamp req) = Some timestamp ->
  skewTooLarge (skewOf nowMs (dateGetTime timestamp)) = false ->
  Crypto.verifySignature publicKey (canonicalStringOf req timestamp) signature
    = true ->
  (clawfiles db !! publicKey = None ->
   authMiddleware required db nowMs req
   = Respond (ErrorJson 401 (js "unknown_identity")
                (js "Public key not registered")))
  /\ (forall row,
        clawfiles db !! publicKey = Some row ->
        Store.status row <> js "active" ->
        authMiddleware required db nowMs req
        = Respond (ErrorJson 401 (js "inactive_identity")
                     (js "Identity status: " ++ Store.status row)))
  /\ (forall row,
        clawfiles db !! publicKey = Some row ->
        Store.status row ∈ [js "rotated"; js "suspended"; js "archived"] ->
        exists message,
          authMiddleware required db nowMs req
          = Respond (ErrorJson 401 (js "inactive_identity") message))
  /\ (forall row,
        clawfiles db !! publicKey = Some row ->
        Store.status row = js "active" ->
        authMiddleware required db nowMs req
        = Next (Some {| authPublicKey := publicKey;
                        identity :=
                          {| id_mention_name := Store.mention_name row;
                             id_display_name := Store.display_name row;
                             id_verification_tier := Store.verification_tier row;
                             id_status := Store.status row |} |})).
Proof.
  intros Hk Hs Ht Hskew Hsig.
  rewrite (authMiddleware_present required db nowMs req _ _ _ Hk Hs Ht), Hskew.
  unfold verifyAndResolve, resolveIdentity. rewrite Hsig. cbn [negb].
  split; [|split; [|split]].
  - by intros ->.
  - intros row -> Hst. by rewrite decide_False.
  - intros row -> Hst. eexists. rewrite decide_False; [reflexivity|].
    intros Hact. rewrite Hact in Hst.
    repeat (apply elem_of_cons in Hst as [Hst|Hst]; [discriminate|]).
    by apply elem_of_nil in Hst.
  - intros row -> Hst. by rewrite decide_True.
Qed.

(** A rotated identity whose signature still verifies is turned away. *)
Lemma identity_resolution_witness :
  authMiddleware (E := Demo.demoEd) (D := Demo.demoDate) true
    (Demo.demoDb (js "rotated") 0) (Demo.demoInstant + 5000)
    (Demo.demoRequest Demo.demoUrl)
  = Respond (ErrorJson 401 (js "inactive_identity")
               (js "Identity status: rotated")).
Proof.
  refine (proj1 (proj2 (identity_resolution Demo.demoEd Demo.demoDate true
    (Demo.demoDb (js "rotated") 0) (Demo.demoInstant + 5000)
    (Demo.demoRequest Demo.demoUrl) Demo.demoPublicKey _ Demo.demoTimestamp
    _ _ _ _ _)) (Demo.demoClawfile (js "rotated") 0) _ _).
  - vm_compute. reflexivity.
  - vm_compute. reflexivity.
  - vm_compute. reflexivity.
  - vm_compute. reflexivity.
  - vm_compute. reflexivity.
  - vm_compute. reflexivity.
  - vm_compute. discriminate.
Defined.

(** C8 (as amended).  In optional-auth mode a request in which one of
    the three headers is missing or empty goes on with no identity
    context and nothing is verified.  A request that carries all three
    goes through the same pipeline as in required mode, check by check:
    a skew above 60 is answered 401 [timestamp_skew]; else a signature
    that does not verify, 401 [invalid_signature]; else a key that is
    not registered, 401 [unknown_identity]; else a status other than
    "active", 401 [inactive_identity]; else [next] with the context of
    the identity.  So with all three headers the outcome is one of these
    four refusals or the context of an active identity, never [next]
    without a context. *)
Theorem optional_auth_all_or_nothing (E : Ed25519) (D : DateParser)
    (db : DB) (nowMs : Z) (req : Request) :
  (truthy (xPublicKey req) = None \/ truthy (xSignature req) = None
   \/ truthy (xTimestamp req) = None ->
   optionalAuth db nowMs req = Next None)
  /\ (forall publicKey signature timestamp,
        truthy (xPublicKey req) = Some publicKey ->
        truthy (xSignature req) = Some signature ->
        truthy (xTimestamp req) = Some timestamp ->
        optionalAuth db nowMs req = requireAuth db nowMs req
        /\ (skewTooLarge (skewOf nowMs (dateGetTime timestamp)) = true ->
            exists message,
              optionalAuth db nowMs req
              = Respond (ErrorJson 401 (js "timestamp_skew") message))
        /\ (skewTooLarge (skewOf nowMs (dateGetTime timestamp)) = false ->
            Crypto.verifySignature publicKey
              (canonicalStringOf req timestamp) signature = false ->
            optionalAuth db nowMs req
            = Respond (ErrorJson 401 (js "invalid_signature")
                         (js "Signature verification failed")))
        /\ (skewTooLarge (skewOf nowMs (dateGetTime timestamp)) = false ->
            Crypto.verifySignature publicKey
              (canonicalStringOf req timestamp) signature = true ->
            (clawfiles db !! publicKey = None ->
             optionalAuth db nowMs req
             = Respond (ErrorJson 401 (js "unknown_identity")
                          (js "Public key not registered")))
            /\ (forall row,
                  clawfiles db !! publicKey = Some row ->
                  Store.status row <> js "active" ->
                  optionalAuth db nowMs req
                  = Respond (ErrorJson 401 (js "inactive_identity")
                               (js "Identity status: " ++ Store.status row)))
            /\ (forall row,
                  clawfiles db !! publicKey = Some row ->
                  Store.status row = js "active" ->
                  optionalAuth db nowMs req
                  = Next (Some
                      {| authPublicKey := publicKey;
                         identity :=
                           {| id_mention_name := Store.mention_name row;
                              id_display_name := Store.display_name row;
                              id_verification_tier :=
                                Store.verification_tier row;
                              id_status := Store.status row |} |})))
        /\ match optionalAuth db nowMs req with
           | Respond r =>
               httpStatusOf r = 401%Z
               /\ errorCodeOf r ∈ [Some (js "timestamp_skew");
                                   Some (js "invalid_signature");
                                   Some (js "unknown_identity");
                                   Some (js "inactive_identity")]
           | Next (Some ctx) =>
               skewTooLarge (skewOf nowMs (dateGetTime timestamp)) = false
               /\ Crypto.verifySignature publicKey
                    (canonicalStringOf req timestamp) signature = true
               /\ authPublicKey ctx = publicKey
               /\ exists row,
                    clawfiles db !! publicKey = Some row
                    /\ Store.status row = js "active"
                    /\ id_status (identity ctx) = js "active"
           | Next None => False
           end).
Proof.
  split.
  - unfold optionalAuth, authMiddleware.
    intros [H | [H | H]]; rewrite H; by repeat case_match.
  - intros publicKey signature timestamp Hk Hs Ht. unfold optionalAuth, requireAuth.
    rewrite !(authMiddleware_present _ db nowMs req _ _ _ Hk Hs Ht).
    split; [done|].
    destruct (skewTooLarge _) eqn:Hskew.
    { split; [by eexists|]. split; [done|]. split; [done|].
      split; [done|]. cbn. set_solver. }
    split; [done|].
    unfold verifyAndResolve, resolveIdentity.
    destruct (Crypto.verifySignature _ _ _) eqn:Hsig; cbn [negb].
    2:{ split; [done|]. split; [done|]. split; [done|]. cbn. set_solver. }
    split; [done|].
    destruct (clawfiles db !! publicKey) as [row|] eqn:Hrow.
    2:{ split; [intros _ _; split; [done|]; split; intros row; done|].
        split; [done|]. cbn. set_solver. }
    case_decide as Hst.
    + split.
      { intros _ _. split; [done|].
        split; intros row' [= <-] Hrow'; done. }
      repeat split; try done. exists row. by rewrite Hst.
    + split.
      { intros _ _. split; [done|].
        split; intros row' [= <-] Hrow'; done. }
      split; [done|]. cbn. set_solver.
Qed.

(** A validly signed request of a key that is not registered is refused
    in optional mode too. *)
Lemma optional_auth_all_or_nothing_witness :
  optionalAuth (E := Demo.demoEd) (D := Demo.demoDate) Demo.emptyDb
    (Demo.demoInstant + 5000) (Demo.demoRequest Demo.demoUrl)
  = Respond (ErrorJson 401 (js "unknown_identity")
               (js "Public key not registered")).
Proof.
  destruct (proj2 (optional_auth_all_or_nothing Demo.demoEd Demo.demoDate
                     Demo.emptyDb (Demo.demoInstant + 5000)
                     (Demo.demoRequest Demo.demoUrl))
              Demo.demoPublicKey
              (default [] (xSignature (Demo.demoRequest Demo.demoUrl)))
              Demo.demoTimestamp)
    as (_ & _ & _ & H & _); [vm_compute; reflexivity ..|].
  apply H; vm_compute; reflexivity.
Defined.

(** C8 (as stated) fails: a request that presents a public key and a
    signature that is not one, and no timestamp, is let through by
    [optionalAuth] with nothing verified, although the key is not even
    registered; [requireAuth] refuses it. *)
Lemma optional_auth_forged_headers_pass :
  xPublicKey Demo.unstampedRequest = Some Demo.demoPublicKey
  /\ xSignature Demo.unstampedRequest = Some (js "c2ln")
  /\ clawfiles Demo.emptyDb !! Demo.demoPublicKey = None
  /\ optionalAuth (E := Demo.demoEd) (D := Demo.demoDate) Demo.emptyDb
       Demo.demoInstant Demo.unstampedRequest
     = Next None
  /\ requireAuth (E := Demo.demoEd) (D := Demo.demoDate) Demo.emptyDb
       Demo.demoInstant Demo.unstampedRequest
     = Respond (ErrorJson 401 (js "missing_auth")
                  (js "X-Public-Key, X-Signature, and X-Timestamp headers required")).
Proof. vm_compute. repeat split. Qed.

(** A timestamp that is not a date gives a NaN skew, and [NaN > 60] is
    false: the request passes the replay guard at every clock reading and
    goes on to the signature check. *)
Remark replay_guard_unparsed (E : Ed25519) (D : DateParser)
    (required : bool) (db : DB) (nowMs : Z) (req : Request)
    (publicKey signature timestamp : jsstring) :
  truthy (xPublicKey req) = Some publicKey ->
  truthy (xSignature req) = Some signature ->
  truthy (xTimestamp req) = Some timestamp ->
  dateGetTime timestamp = None ->
  authMiddleware required db nowMs req
  = verifyAndResolve db req publicKey signature timestamp.
Proof.
  intros Hk Hs Ht Hd.
  rewrite (authMiddleware_present required db nowMs req _ _ _ Hk Hs Ht).
  by rewrite Hd.
Qed.

(** The timestamp "yesterday" passes the guard. *)
Lemma replay_guard_unparsed_witness :
  authMiddleware (E := Demo.demoEd) (D := Demo.demoDate) true Demo.emptyDb
    Demo.demoInstant Demo.undatedRequest
  = verifyAndResolve (E := Demo.demoEd) Demo.emptyDb Demo.undatedRequest
      Demo.demoPublicKey (js "c2ln") (js "yesterday").
Proof.
  apply (replay_guard_unparsed Demo.demoEd Demo.demoDate true Demo.emptyDb
           Demo.demoInstant Demo.undatedRequest); reflexivity.
Defined.

End AuthClaims.

Section CanonicalPathClaims.
Import Http Store Auth.

(** In optional-auth mode a request that lacks one of the three headers
    is treated like one that has none. *)
Remark optional_auth_partial_headers (E : Ed25519) (D : DateParser)
    (db : DB) (nowMs : Z) (req : Request) :
  truthy (xPublicKey req) = None \/ truthy (xSignature req) = None
  \/ truthy (xTimestamp req) = None ->
  optionalAuth db nowMs req = Next None.
Proof.
  unfold optionalAuth, authMiddleware.
  intros [H | [H | H]]; rewrite H; by repeat case_match.
Qed.

(** A request with key and signature but no timestamp goes on
    unauthenticated. *)
Lemma optional_auth_partial_headers_witness :
  optionalAuth (E := Demo.demoEd) (D := Demo.demoDate) Demo.emptyDb
    Demo.demoInstant Demo.unstampedRequest
  = Next None.
Proof.
  apply (optional_auth_partial_headers Demo.demoEd Demo.demoDate Demo.emptyDb
           Demo.demoInstant Demo.unstampedRequest).
  right. right. reflexivity.
Defined.

(** A URL in which "/api" does not occur leaves the empty path. *)
Remark canonicalPath_without_api (url : jsstring) :
  indexOf (js "/api") url = None -> canonicalPath url = [].
Proof. intros H. by rewrite canonicalPath_drop, H. Qed.

(** C9 (as stated) fails: two requests whose URLs differ only in the
    query string have different canonical strings, because the path that
    is signed is the URL from "/api" on, query string included. *)
Lemma canonical_string_depends_on_query :
  Demo.queryUrl = js "https://clawish.com/api/v1/plaza?limit=5"
  /\ canonicalPath Demo.queryUrl = js "/api/v1/plaza?limit=5"
  /\ canonicalStringOf
       (Demo.bareRequest Demo.queryUrl) Demo.demoTimestamp
     <> canonicalStringOf
          (Demo.bareRequest (js "https://clawish.com/api/v1/plaza?limit=50"))
          Demo.demoTimestamp.
Proof.
  split; [reflexivity|]. split; [vm_compute; reflexivity|].
  vm_compute. discriminate.
Qed.

(** C9 (as amended).  The canonical string the server verifies is built
    over the request URL from its first "/api" on, query string included.
    For a URL [common ++ rest] whose part [common] contains "/api" (first
    at position [i]) it is
    "METHOD path\nTIMESTAMP\nhex(sha256(body))" with
    [path = drop i common ++ rest]; and two requests with the same method
    and body whose URLs are [common ++ rest1] and [common ++ rest2] (so
    two URLs that differ only in the query string) have the same canonical
    string for a timestamp exactly when [rest1 = rest2]. *)
Theorem canonical_path_keeps_query (req1 req2 : Request)
    (timestamp common rest1 rest2 : jsstring) (i : nat) :
  indexOf (js "/api") common = Some i ->
  url req1 = common ++ rest1 ->
  url req2 = common ++ rest2 ->
  method req1 = method req2 ->
  body req1 = body req2 ->
  canonicalStringOf req1 timestamp
  = method req1 ++ js " " ++ (drop i common ++ rest1) ++ Crypto.nl
      ++ timestamp ++ Crypto.nl ++ Crypto.sha256 (body req1)
  /\ (canonicalStringOf req1 timestamp = canonicalStringOf req2 timestamp
      <-> rest1 = rest2).
Proof.
  intros Hi H1 H2 Hm Hb.
  pose proof (indexOf_occurrence _ _ _ Hi) as Hlen.
  assert (Hpath : forall rest,
    canonicalPath (common ++ rest) = drop i common ++ rest).
  { intros rest. rewrite canonicalPath_drop, (indexOf_app _ _ rest _ Hi).
    rewrite drop_app_le by lia. done. }
  unfold canonicalStringOf. rewrite H1, H2, !Hpath, Hm, Hb.
  split; [reflexivity|]. split.
  - intros H. do 2 apply app_inv_head in H.
    rewrite <- !app_assoc in H. apply app_inv_head in H.
    by apply app_inv_tail in H.
  - by intros ->.
Qed.

(** The canonical string of a GET of the plaza with a query string. *)
Lemma canonical_path_keeps_query_witness :
  canonicalStringOf (Demo.bareRequest Demo.queryUrl) Demo.demoTimestamp
  = method (Demo.bareRequest Demo.queryUrl) ++ js " "
      ++ (drop 19 Demo.demoUrl ++ js "?limit=5") ++ Crypto.nl
      ++ Demo.demoTimestamp ++ Crypto.nl
      ++ Crypto.sha256 (body (Demo.bareRequest Demo.queryUrl)).
Proof.
  exact (proj1 (canonical_path_keeps_query
    (Demo.bareRequest Demo.queryUrl) (Demo.bareRequest Demo.queryUrl)
    Demo.demoTimestamp Demo.demoUrl (js "?limit=5") (js "?limit=5") 19
    eq_refl eq_refl eq_refl eq_refl eq_refl)).
Defined.

End CanonicalPathClaims.

(** ** handlers/plaza *)

Section PlazaFacts.
Import Http Store Auth Plaza.

(** The count of an author's posts of a day after a post was stored. *)
Lemma countPostsOn_insert (db db1 : DB) (m : PlazaMessage)
    (author : jsstring) (day : Z) :
  insertPlazaMessage db m = Some db1 ->
  plaza_messages db1 = plaza_messages db ++ [m]
  /\ clawfiles db1 = clawfiles db
  /\ countPostsOn db1 author day
     = (countPostsOn db author day
        + if decide (author_id m = author /\ utcDate (posted_at m) = day)
          then 1 else 0)%nat.
Proof.
  unfold insertPlazaMessage. destruct (plazaRowAccepted db m); [|done].
  intros [= <-]. split; [done|]. split; [done|].
  unfold countPostsOn. cbn [plaza_messages].
  rewrite filter_app, length_app. f_equal.
  rewrite filter_cons, filter_nil. by case_decide.
Qed.

Lemma insertLedgerEntry_plaza (db db2 : DB) (e : LedgerEntry) :
  insertLedgerEntry db e = Some db2 ->
  plaza_messages db2 = plaza_messages db /\ clawfiles db2 = clawfiles db.
Proof.
  unfold insertLedgerEntry. case_match; [done|]. by intros [= <-].
Qed.



End PlazaFacts.

Section PlazaClaims.
Import Http Store Auth Plaza.


End PlazaClaims.

Section PlazaWitness.
Import Http Store Auth Plaza.


End PlazaWitness.

(** ** handlers/clawfiles *)

Section ClawfilesFacts.
Import Http Store Auth Clawfiles.

Lemma insertClawfile_fresh (db : DB) (key : jsstring) (row : Clawfile) :
  clawfiles db !! key = None ->
  mentionTaken db (Store.mention_name row) = false ->
  exists db1, insertClawfile db key row = Some db1
              /\ clawfiles db1 = <[key := row]> (clawfiles db)
              /\ clawfile_profiles db1 = clawfile_profiles db.
Proof.
  intros Hk Hm. unfold insertClawfile. rewrite Hk, Hm. by eexists.
Qed.

Lemma insertProfile_clawfiles (db db2 : DB) (key : jsstring) (row : Profile) :
  insertProfile db key row = Some db2 -> clawfiles db2 = clawfiles db.
Proof.
  unfold insertProfile. repeat case_match; try done. by intros [= <-].
Qed.

End ClawfilesFacts.

Section ClawfilesClaims.
Import Http Store Auth Clawfiles.

(** C10 (as stated) fails: a registration with all four fields and a
    valid unused mention name, for a public key that is already
    registered, is refused by the primary key of [clawfiles]; the answer
    is the 500 of [errorHandler] and the store is unchanged. *)
Lemma registration_of_known_key_refused :
  mentionTaken (Demo.demoDb (js "active") 0) (js "bob") = false
  /\ clawfilesPost (Demo.demoDb (js "active") 0) Demo.demoInstant
       (Demo.demoRegistration Demo.demoPublicKey)
     = (errorHandler, Demo.demoDb (js "active") 0)
  /\ clawfiles (Demo.demoDb (js "active") 0) !! Demo.demoPublicKey
     = Some (Demo.demoClawfile (js "active") 0).
Proof. vm_compute. repeat split. Qed.

(** C10 (as amended).  For every registration request with [public_key],
    [mention_name], [display_name] and a non-empty [proof.signature], a
    valid unused mention name and a public key that is not yet registered,
    the identity is stored with verification tier 0 and status "active";
    when no profile row has that key either the answer is the 201 with
    tier 0 and status "active"; and the outcome is the same for every
    other non-empty [proof.signature]: the signature is never verified. *)
Theorem registration_ignores_proof (db : DB) (nowMs : Z) (b : RegisterBody)
    (key name display sg : jsstring) :
  truthy (public_key b) = Some key ->
  truthy (mention_name b) = Some name ->
  truthy (display_name b) = Some display ->
  truthy (proof_signature b) = Some sg ->
  mentionPattern name = true ->
  (2 <= length name <= 32)%nat ->
  mentionTaken db name = false ->
  clawfiles db !! key = None ->
  (exists row,
     clawfiles (clawfilesPost db nowMs b).2 !! key = Some row
     /\ Store.verification_tier row = 0%Z
     /\ Store.status row = js "active"
     /\ Store.mention_name row = name
     /\ Store.display_name row = display)
  /\ (clawfile_profiles db !! key = None ->
      (clawfilesPost db nowMs b).1
      = ClawfileCreated key name display 0 (js "active") (js "clawish.com")
          nowMs)
  /\ (forall sg', truthy sg' <> None ->
      clawfilesPost db nowMs (withProof b sg') = clawfilesPost db nowMs b).
Proof.
  intros Hk Hn Hd Hs Hpat Hlen Hfree Hnew.
  assert (Hcond : negb (mentionPattern name) || (length name <? 2)%nat
                  || (32 <? length name)%nat = false).
  { rewrite Hpat. cbn [negb orb].
    destruct (Nat.ltb_spec (length name) 2); [lia|].
    destruct (Nat.ltb_spec 32 (length name)); [lia|done]. }
  set (row := {| Store.mention_name := name;
                 Store.display_name := display;
                 Store.human_parent := truthy (human_parent b);
                 Store.verification_tier := 0;
                 Store.status := js "active";
                 Store.home_node := js "clawish.com";
                 Store.rotated_from := None;
                 Store.rotated_to := None;
                 Store.created_at := nowMs;
                 Store.updated_at := nowMs |}).
  destruct (insertClawfile_fresh db key row Hnew Hfree) as (db1 & Hi & Hc1 & Hp1).
  assert (Hrun : clawfilesPost db nowMs b
                 = match insertProfile db1 key
                           {| Store.bio := truthy (bio b);
                              Store.principles := truthy (principles b);
                              Store.avatar_url := truthy (avatar_url b);
                              Store.profile_created_at := nowMs;
                              Store.profile_updated_at := nowMs |} with
                   | None => (errorHandler, db1)
                   | Some db2 =>
                       (ClawfileCreated key name display 0 (js "active")
                          (js "clawish.com") nowMs, db2)
                   end).
  { unfold clawfilesPost. rewrite Hk, Hn, Hd, Hs, Hcond, Hfree.
    cbn zeta. fold row. by rewrite Hi. }
  split; [|split].
  - exists row. rewrite Hrun.
    destruct (insertProfile db1 key _) as [db2|] eqn:Hp; cbn [snd].
    + apply insertProfile_clawfiles in Hp. rewrite Hp, Hc1.
      by rewrite lookup_insert_eq.
    + rewrite Hc1. by rewrite lookup_insert_eq.
  - intros Hprof. rewrite Hrun. unfold insertProfile.
    rewrite Hp1, Hprof, Hc1, lookup_insert_eq. done.
  - intros sg' Hsg'. unfold clawfilesPost.
    cbn [withProof public_key mention_name display_name proof_signature
         human_parent bio principles avatar_url].
    rewrite Hk, Hn, Hd, Hs.
    by destruct (truthy sg').
Qed.

(** A registration with a proof that is no signature is answered 201. *)
Lemma registration_ignores_proof_witness :
  (clawfilesPost Demo.emptyDb Demo.demoInstant
     (Demo.demoRegistration Demo.demoPublicKey)).1
  = ClawfileCreated Demo.demoPublicKey (js "bob") (js "Bob") 0 (js "active")
      (js "clawish.com") Demo.demoInstant.
Proof.
  refine (proj1 (proj2 (registration_ignores_proof Demo.emptyDb
    Demo.demoInstant (Demo.demoRegistration Demo.demoPublicKey)
    Demo.demoPublicKey (js "bob") (js "Bob") (js "not-a-signature")
    eq_refl eq_refl eq_refl eq_refl eq_refl _ _ _)) _).
  - cbn. lia.
  - vm_compute. reflexivity.
  - vm_compute. reflexivity.
  - vm_compute. reflexivity.
Defined.

(** C6 (as stated) fails: a rotation requested by an active identity with
    a valid signature is answered 501, the record of the old key keeps
    status "active" and has no [rotated_to], and the old key goes on
    resolving as before. *)
Lemma rotation_leaves_old_key_active :
  clawfilesRotate (E := Demo.demoEd) (D := Demo.demoDate)
    (Demo.demoDb (js "active") 0) (Demo.demoInstant + 5000)
    (Demo.demoRequest Demo.rotateUrl)
  = (ErrorJson 501 (js "not_implemented")
       (js "Key rotation not yet implemented"),
     Demo.demoDb (js "active") 0)
  /\ clawfiles (Demo.demoDb (js "active") 0) !! Demo.demoPublicKey
     = Some (Demo.demoClawfile (js "active") 0)
  /\ Store.rotated_to (Demo.demoClawfile (js "active") 0) = None
  /\ resolveIdentity (Demo.demoDb (js "active") 0) Demo.demoPublicKey
     = Next (Some Demo.demoAuth).
Proof. vm_compute. repeat split. Qed.

(** C6 (as amended).  Key rotation is not implemented: a request to
    [POST /clawfiles/me/rotate] that passes [requireAuth] is answered 501
    [not_implemented]; whatever the request, the store is left as it was,
    so no record gets status "rotated" or a [rotated_to], no record is
    created, and every key resolves afterwards exactly as before. *)
Theorem rotation_not_implemented (E : Ed25519) (D : DateParser)
    (db : DB) (nowMs : Z) (req : Request) (auth : AuthContext) :
  requireAuth db nowMs req = Next (Some auth) ->
  clawfilesRotate db nowMs req
  = (ErrorJson 501 (js "not_implemented")
       (js "Key rotation not yet implemented"), db)
  /\ (forall nowMs' req', (clawfilesRotate db nowMs' req').2 = db)
  /\ (forall key,
        resolveIdentity (clawfilesRotate db nowMs req).2 key
        = resolveIdentity db key).
Proof.
  intros Hauth.
  assert (Hdb : forall nowMs' req', (clawfilesRotate db nowMs' req').2 = db).
  { intros nowMs' req'. unfold clawfilesRotate.
    by destruct (requireAuth db nowMs' req') as [r|[a|]]. }
  split; [|split].
  - unfold clawfilesRotate. by rewrite Hauth.
  - exact Hdb.
  - intros key. by rewrite Hdb.
Qed.

(** The rotation request of the demo identity is answered 501. *)
Lemma rotation_not_implemented_witness :
  clawfilesRotate (E := Demo.demoEd) (D := Demo.demoDate)
    (Demo.demoDb (js "active") 0) (Demo.demoInstant + 5000)
    (Demo.demoRequest Demo.rotateUrl)
  = (ErrorJson 501 (js "not_implemented")
       (js "Key rotation not yet implemented"),
     Demo.demoDb (js "active") 0).
Proof.
  refine (proj1 (rotation_not_implemented Demo.demoEd Demo.demoDate
    (Demo.demoDb (js "active") 0) (Demo.demoInstant + 5000)
    (Demo.demoRequest Demo.rotateUrl) Demo.demoAuth _)).
  vm_compute. reflexivity.
Defined.

End ClawfilesClaims.

Section LineageFacts.
Import Http Store Auth Clawfiles Plaza.

(** Registration, posting and the rotation endpoint keep the lineage
    invariant of the identity table: a record with [rotated_to = X] has
    status "rotated" and the record at [X] points back with
    [rotated_from].  (Registration is the only one of them that writes
    the table, and writes records without lineage pointers.) *)
Theorem lineage_invariant_preserved (db : DB) :
  lineageInvariant db ->
  (forall nowMs b, lineageInvariant (clawfilesPost db nowMs b).2)
  /\ (forall auth checkMs nowMs postId ledgerId b,
        lineageInvariant
          (postHandler db auth checkMs nowMs postId ledgerId b).2)
  /\ (forall auth, lineageInvariant (rotateHandler db auth).2).
Proof.
  intros Hinv.
  assert (Hsame : forall db', clawfiles db' = clawfiles db ->
                              lineageInvariant db').
  { intros db' Heq key row next. rewrite Heq. apply Hinv. }
  split; [|split].
  - intros nowMs b.
    assert (Hins : forall key0 row0 db1,
      Store.rotated_to row0 = None ->
      insertClawfile db key0 row0 = Some db1 -> lineageInvariant db1).
    { intros key0 row0 db1 Hnone Hi. unfold insertClawfile in Hi.
      destruct (clawfiles db !! key0) eqn:Hfresh; [done|].
      destruct (mentionTaken db _); [done|]. injection Hi as <-.
      intros key row next. cbn [clawfiles].
      rewrite lookup_insert. case_decide as Hk.
      - intros [= <-]. congruence.
      - intros Hrow Hnext.
        destruct (Hinv key row next Hrow Hnext) as (Hst & succ & Hsucc & Hback).
        split; [done|]. exists succ. split; [|done].
        rewrite lookup_insert_ne; [done|]. intros <-. congruence. }
    unfold clawfilesPost.
    repeat case_match; cbn [snd]; try exact Hinv.
    + intros key row next.
      match goal with
      | H : insertProfile _ _ _ = Some _ |- _ =>
          apply insertProfile_clawfiles in H; rewrite H
      end.
      eapply Hins; [|eassumption]. done.
    + eapply Hins; [|eassumption]. done.
  - intros auth checkMs nowMs postId ledgerId b. apply Hsame.
    unfold postHandler. repeat case_match; cbn [snd]; try done.
    all: repeat match goal with
         | H : insertLedgerEntry _ _ = Some _ |- _ =>
             apply insertLedgerEntry_plaza in H as [_ H]
         | H : insertPlazaMessage _ _ = Some _ |- _ =>
             apply (countPostsOn_insert _ _ _ [] 0%Z) in H as (_ & H & _)
         end; congruence.
  - intros auth. exact Hinv.
Qed.

(** The store with a lineage satisfies the invariant. *)
Lemma lineageDb_invariant : lineageInvariant Demo.lineageDb.
Proof.
  intros key row next. unfold Demo.lineageDb. cbn [clawfiles].
  rewrite lookup_insert. case_decide as Hk.
  - intros [= <-] Hnext. subst key.
    change (Some Demo.successorKey = Some next) in Hnext.
    injection Hnext as <-.
    split; [reflexivity|].
    exists Demo.successorClawfile. split; [|reflexivity].
    rewrite lookup_insert_ne by by_evaluation.
    by rewrite lookup_singleton_eq.
  - rewrite lookup_singleton. case_decide; [|done].
    intros [= <-]. cbn. done.
Qed.

(** A registration into the store with a lineage keeps the invariant. *)
Lemma lineage_invariant_preserved_witness :
  lineageInvariant
    (clawfilesPost Demo.lineageDb Demo.demoInstant
       (Demo.demoRegistration (js "Ym9i:ed25519"))).2.
Proof.
  apply (lineage_invariant_preserved Demo.lineageDb).
  exact lineageDb_invariant.
Defined.

End LineageFacts.

(** ** Further properties of the identity core *)

Section CryptoFormat.
Import Crypto.

Lemma hexDigit_lower (n : N) :
  n < 16 -> (48 <= hexDigit n <= 57) \/ (97 <= hexDigit n <= 102).
Proof. unfold hexDigit. intros Hn. destruct (N.ltb_spec n 10); lia. Qed.

Lemma hexOf_lower (bs : list byte) :
  length (hexOf bs) = (2 * length bs)%nat
  /\ Forall (fun c => (48 <= c <= 57) \/ (97 <= c <= 102)) (hexOf bs).
Proof.
  induction bs as [|b bs [IHl IHf]]; [by split|].
  unfold hexOf in *. cbn [map concat hexByte app length].
  pose proof (Byte.to_N_bounded b) as Hb.
  split; [rewrite IHl; lia|].
  repeat apply Forall_cons_2; [apply hexDigit_lower; ndiv ..|exact IHf].
Qed.

(** The digest text of [sha256] is always 64 characters long, each a
    digit or a lowercase letter a-f. *)
Theorem sha256_hex_format (input : jsstring) :
  length (sha256 input) = 64%nat
  /\ Forall (fun c => (48 <= c <= 57) \/ (97 <= c <= 102)) (sha256 input).
Proof.
  unfold sha256.
  destruct (hexOf_lower (Sha256.digest (textEncode input))) as [Hl Hf].
  rewrite digest_length in Hl. by split.
Qed.

End CryptoFormat.

Section AuthOrder.
Import Http Store Auth.

(** The checks of the middleware run in a fixed order (headers, skew,
    signature, lookup), and only the last reads the database: a refusal
    whose code is not [unknown_identity] or [inactive_identity] is given
    whatever the identity table holds, so it tells nothing about which
    keys are registered. *)
Theorem auth_refusal_before_lookup (E : Ed25519) (D : DateParser)
    (required : bool) (db db' : DB) (nowMs : Z) (req : Request)
    (r : Response) :
  authMiddleware required db nowMs req = Respond r ->
  errorCodeOf r <> Some (js "unknown_identity") ->
  errorCodeOf r <> Some (js "inactive_identity") ->
  authMiddleware required db' nowMs req = Respond r.
Proof.
  unfold authMiddleware.
  destruct (truthy (xPublicKey req)) as [pk|]; [|done].
  destruct (truthy (xSignature req)) as [sg|]; [|done].
  destruct (truthy (xTimestamp req)) as [ts|]; [|done].
  destruct (skewTooLarge _); [done|].
  unfold verifyAndResolve.
  destruct (negb _); [done|].
  unfold resolveIdentity.
  destruct (clawfiles db !! pk) as [row|].
  - destruct (decide _); [done|]. intros [= <-]. cbn. done.
  - intros [= <-]. cbn. done.
Qed.

End AuthOrder.

Section SchemaFacts.
Import Http Store Auth Clawfiles Plaza Schema.

Lemma mentionTaken_false (db : DB) (name : jsstring) :
  mentionTaken db name = false <->
  forall key row, clawfiles db !! key = Some row -> Store.mention_name row <> name.
Proof.
  unfold mentionTaken. rewrite bool_decide_eq_false, Exists_exists. split.
  - intros Hno key row Hrow Heq. apply Hno. exists (key, row).
    split; [by apply elem_of_map_to_list|done].
  - intros Hall ([key row] & Hin & Heq). apply elem_of_map_to_list in Hin.
    by apply (Hall key row).
Qed.

Lemma mentionPattern_checked (name : jsstring) :
  (negb (mentionPattern name) || (length name <? 2)%nat
   || (32 <? length name)%nat) = false ->
  mentionPattern name = true /\ (2 <= length name <= 32)%nat.
Proof.
  intros H. apply orb_false_elim in H as [H H3].
  apply orb_false_elim in H as [H1 H2].
  apply negb_false_iff in H1.
  apply Nat.ltb_ge in H2. apply Nat.ltb_ge in H3. done.
Qed.

(** What a registration does to the store: nothing, or the two inserts
    (or, when a profile without identity is in the way, the first). *)
Lemma clawfilesPost_cases (db : DB) (nowMs : Z) (b : RegisterBody) :
  (clawfilesPost db nowMs b).2 = db
  \/ exists key name display row,
       truthy (public_key b) = Some key
       /\ truthy (mention_name b) = Some name
       /\ truthy (display_name b) = Some display
       /\ mentionPattern name = true /\ (2 <= length name <= 32)%nat
       /\ mentionTaken db name = false
       /\ clawfiles db !! key = None
       /\ row = {| Store.mention_name := name;
                   Store.display_name := display;
                   Store.human_parent := truthy (human_parent b);
                   Store.verification_tier := 0;
                   Store.status := js "active";
                   Store.home_node := js "clawish.com";
                   Store.rotated_from := None;
                   Store.rotated_to := None;
                   Store.created_at := nowMs;
                   Store.updated_at := nowMs |}
       /\ clawfiles (clawfilesPost db nowMs b).2 = <[key := row]> (clawfiles db)
       /\ plaza_messages (clawfilesPost db nowMs b).2 = plaza_messages db
       /\ communities (clawfilesPost db nowMs b).2 = communities db
       /\ ledger_entries (clawfilesPost db nowMs b).2 = ledger_entries db
       /\ ((clawfile_profiles db !! key = None
            /\ (clawfilesPost db nowMs b).1
               = ClawfileCreated key name display 0 (js "active")
                   (js "clawish.com") nowMs
            /\ clawfile_profiles (clawfilesPost db nowMs b).2
               = <[key := {| Store.bio := truthy (bio b);
                             Store.principles := truthy (principles b);
                             Store.avatar_url := truthy (avatar_url b);
                             Store.profile_created_at := nowMs;
                             Store.profile_updated_at := nowMs |}]>
                   (clawfile_profiles db))
           \/ (is_Some (clawfile_profiles db !! key)
               /\ (clawfilesPost db nowMs b).1 = errorHandler
               /\ clawfile_profiles (clawfilesPost db nowMs b).2
                  = clawfile_profiles db)).
Proof.
  unfold clawfilesPost.
  destruct (truthy (public_key b)) as [key|]; [|by left].
  destruct (truthy (mention_name b)) as [name|]; [|by left].
  destruct (truthy (display_name b)) as [display|]; [|by left].
  destruct (truthy (proof_signature b)) as [sg|]; [|by left].
  destruct (negb (mentionPattern name) || _ || _) eqn:Hpat; [by left|].
  apply mentionPattern_checked in Hpat as [Hp Hl].
  destruct (mentionTaken db name) eqn:Htaken; [by left|].
  unfold insertClawfile. cbn [Store.mention_name].
  destruct (clawfiles db !! key) as [old|] eqn:Hkey; [by left|].
  rewrite Htaken. unfold insertProfile. cbn [clawfiles clawfile_profiles].
  rewrite lookup_insert_eq.
  right. eexists key, name, display, _.
  do 7 (split; [done|]). split; [reflexivity|].
  destruct (clawfile_profiles db !! key) as [p|] eqn:Hprof; cbn.
  - do 4 (split; [done|]). right. by split; [eexists|].
  - do 4 (split; [done|]). left. done.
Qed.

End SchemaFacts.

Section RegistrationInvariants.
Import Http Store Auth Clawfiles Plaza Schema.

(** A registration never changes or removes what is stored: every
    identity and every profile of the store before is in the store after
    with the same row, and the posts, communities and ledger are as they
    were.  This holds for every body, accepted or refused. *)
Theorem registration_never_overwrites (db : DB) (nowMs : Z)
    (b : RegisterBody) :
  clawfiles db ⊆ clawfiles (clawfilesPost db nowMs b).2
  /\ clawfile_profiles db ⊆ clawfile_profiles (clawfilesPost db nowMs b).2
  /\ plaza_messages (clawfilesPost db nowMs b).2 = plaza_messages db
  /\ communities (clawfilesPost db nowMs b).2 = communities db
  /\ ledger_entries (clawfilesPost db nowMs b).2 = ledger_entries db.
Proof.
  destruct (clawfilesPost_cases db nowMs b) as [->|Hins]; [done|].
  destruct Hins as (key & name & display & row & _ & _ & _ & _ & _ & _
                    & Hfresh & _ & Hc & Hp & Hco & Hl & Hprof).
  rewrite Hc, Hp, Hco, Hl. split; [by apply insert_subseteq|].
  split; [|done].
  destruct Hprof as [(Hnone & _ & ->)|(_ & _ & ->)]; [|done].
  by apply insert_subseteq.
Qed.

(** For a registration whose fields are strings where they are given:
    the constraints of the identity tables (the CHECKs on tier, status
    and mention name, the 2-32 length rule, UNIQUE mention names, every
    profile owned by an identity) are kept by the registration route, and
    on a store that meets them a registration is all or nothing: either
    it answers 201 and both rows are stored, or the store is unchanged. *)
Theorem registration_keeps_identity_tables (db : DB) (nowMs : Z)
    (b : RegisterBody) :
  identityTables db ->
  identityTables (clawfilesPost db nowMs b).2
  /\ ((clawfilesPost db nowMs b).2 = db
      \/ exists key name display,
           (clawfilesPost db nowMs b).1
           = ClawfileCreated key name display 0 (js "active")
               (js "clawish.com") nowMs
           /\ clawfiles db !! key = None
           /\ is_Some (clawfiles (clawfilesPost db nowMs b).2 !! key)
           /\ is_Some (clawfile_profiles (clawfilesPost db nowMs b).2 !! key)).
Proof.
  intros (Hchk & Huniq & Hown).
  destruct (clawfilesPost_cases db nowMs b) as [->|Hins]; [by split; [|left]|].
  destruct Hins as (key & name & display & row & _ & _ & _ & Hpat & Hlen
                    & Htaken & Hfresh & Hrow & Hc & _ & _ & _ & Hprof).
  pose proof (proj1 (mentionTaken_false db name) Htaken) as Hno. clear Htaken. rename Hno into Htaken.
  assert (Hmn : Store.mention_name row = name) by (by rewrite Hrow).
  destruct Hprof as [(Hnone & Hresp & Hp)|(Hsome & _ & _)].
  2: { destruct Hsome as [p Hp]. apply Hown in Hp as [old Hold]. congruence. }
  split.
  - split; [|split].
    + intros k r. rewrite Hc. intros Hk.
      apply lookup_insert_Some in Hk as [[_ Hr]|[_ Hr]].
      * rewrite <- Hr, Hrow. split; [done|]. split; [by constructor|]. by split.
      * by apply (Hchk k).
    + intros k1 k2 r1 r2. rewrite Hc. intros H1 H2 Heq.
      apply lookup_insert_Some in H1 as [[Hk1 Hr1]|[Hn1 Hr1]];
        apply lookup_insert_Some in H2 as [[Hk2 Hr2]|[Hn2 Hr2]].
      * congruence.
      * rewrite <- Hr1, Hmn in Heq. by destruct (Htaken k2 r2 Hr2).
      * rewrite <- Hr2, Hmn in Heq. by destruct (Htaken k1 r1 Hr1).
      * by apply (Huniq k1 k2 r1 r2).
    + intros k p. rewrite Hc, Hp. intros Hk.
      apply lookup_insert_Some in Hk as [[Hk _]|[Hn Hr]].
      * rewrite <- Hk, lookup_insert_eq. by eexists.
      * rewrite lookup_insert_ne by done. by apply (Hown k p).
  - right. exists key, name, display. split; [done|]. split; [done|].
    rewrite Hc, Hp, !lookup_insert_eq. by split; eexists.
Qed.

End RegistrationInvariants.

Lemma demoDb_identityTables :
  Schema.identityTables (Demo.demoDb (js "active") 0).
Proof.
  unfold Schema.identityTables, Demo.demoDb.
  cbn [Store.clawfiles Store.clawfile_profiles].
  split; [|split].
  - intros key row [_ <-]%lookup_singleton_Some.
    split; [done|]. split; [set_solver|]. split; [reflexivity|cbn; lia].
  - intros k1 k2 r1 r2 [H1 _]%lookup_singleton_Some
                       [H2 _]%lookup_singleton_Some _. congruence.
  - intros key p [<- _]%lookup_singleton_Some.
    rewrite lookup_singleton_eq. by eexists.
Qed.

(** The registration of a second identity in the demo store. *)
Lemma registration_keeps_identity_tables_witness :
  Schema.identityTables
    (Clawfiles.clawfilesPost (Demo.demoDb (js "active") 0) Demo.demoInstant
       (Demo.demoRegistration Demo.successorKey)).2.
Proof.
  exact (proj1 (registration_keeps_identity_tables
                  (Demo.demoDb (js "active") 0) Demo.demoInstant
                  (Demo.demoRegistration Demo.successorKey)
                  demoDb_identityTables)).
Defined.

Section PostingInvariants.
Import Http Store Auth Clawfiles Plaza Schema.

Lemma postExists_spec (db : DB) (i : jsstring) :
  postExists db i = true <-> exists m, m ∈ plaza_messages db /\ Store.id m = i.
Proof.
  unfold postExists. rewrite existsb_exists. split.
  - intros (m & Hin & Hm). apply bool_decide_eq_true in Hm.
    exists m. by rewrite list_elem_of_In.
  - intros (m & Hin & Hm). exists m. rewrite <- list_elem_of_In.
    by rewrite bool_decide_eq_true.
Qed.

Lemma truthy_Some (v : option jsstring) (s : jsstring) :
  truthy v = Some s -> v = Some s /\ (1 <= length s)%nat.
Proof.
  destruct v as [[|c r]|]; cbn; try done. intros [= <-]. cbn. split; [done|lia].
Qed.

(** What a post request does to the store: nothing, or the insert of the
    post followed by the insert of the ledger entry, which is refused
    only when the id drawn for it is in use. *)
Lemma postHandler_cases (db : DB) (auth : AuthContext) (checkMs nowMs : Z)
    (postId ledgerId : jsstring) (b : PostBody) :
  let out := postHandler db auth checkMs nowMs postId ledgerId b in
  (out.2 = db /\ forall i a c t r k n, out.1 <> PostCreated i a c t r k n)
  \/ exists text row entry,
       truthy (content b) = Some text
       /\ (length text <= 5000)%nat
       /\ row = {| Store.id := postId;
                   Store.author_id := authPublicKey auth;
                   Store.content := text;
                   Store.content_type :=
                     default (js "text/plain") (content_type b);
                   Store.reply_to := truthy (reply_to b);
                   Store.community_id := truthy (community_id b);
                   Store.visibility := default (js "public") (visibility b);
                   Store.signature := js "placeholder_signature";
                   Store.origin_node := js "clawish.com";
                   Store.posted_at := nowMs |}
       /\ entry = {| entry_id := ledgerId;
                     actor_id := authPublicKey auth;
                     action := js "post.create";
                     target_type := js "post";
                     target_id := postId;
                     logged_at := nowMs |}
       /\ plazaRowAccepted db row = true
       /\ clawfiles out.2 = clawfiles db
       /\ clawfile_profiles out.2 = clawfile_profiles db
       /\ communities out.2 = communities db
       /\ plaza_messages out.2 = plaza_messages db ++ [row]
       /\ (((ledgerId ∉ entry_id <$> ledger_entries db)
            /\ out.1 = PostCreated postId (authPublicKey auth) text
                         (default (js "text/plain") (content_type b))
                         (reply_to b) (community_id b) nowMs
            /\ ledger_entries out.2 = ledger_entries db ++ [entry])
           \/ ((ledgerId ∈ entry_id <$> ledger_entries db)
               /\ out.1 = errorHandler
               /\ ledger_entries out.2 = ledger_entries db)).
Proof.
  cbn zeta. unfold postHandler.
  destruct (truthy (content b)) as [text|] eqn:Htext; [|by left].
  destruct (5000 <? length text)%nat eqn:Hlen; [by left|].
  apply Nat.ltb_ge in Hlen.
  destruct (rateLimit db auth checkMs) as [refusal|] eqn:Hrate.
  { left. split; [done|]. unfold rateLimit in Hrate.
    repeat case_match; try done. by injection Hrate as <-. }
  destruct (match truthy (reply_to b) with
            | Some p => negb (postExists db p) | None => false end);
    [by left|].
  unfold insertPlazaMessage.
  destruct (plazaRowAccepted db _) eqn:Hacc; [|by left].
  right. eexists text, _, _.
  do 2 (split; [done|]). do 2 (split; [reflexivity|]). split; [exact Hacc|].
  unfold insertLedgerEntry. cbn [ledger_entries clawfiles entry_id actor_id].
  assert (Hauthor : bool_decide (is_Some (clawfiles db !! authPublicKey auth))
                    = true).
  { unfold plazaRowAccepted in Hacc. cbn [author_id] in Hacc.
    repeat (apply andb_prop in Hacc as [Hacc ?]). done. }
  rewrite Hauthor. cbn [negb]. rewrite orb_false_r.
  destruct (existsb _ _) eqn:Hdup; cbn.
  - do 4 (split; [done|]). right. split; [|done].
    apply existsb_exists in Hdup as (e & Hin & He).
    apply bool_decide_eq_true in He. rewrite <- He.
    apply list_elem_of_fmap. exists e. by rewrite list_elem_of_In.
  - do 4 (split; [done|]). left. split; [|done].
    intros (e & He & Hin)%list_elem_of_fmap.
    apply not_true_iff_false in Hdup. apply Hdup.
    apply existsb_exists. exists e. rewrite <- list_elem_of_In.
    by rewrite bool_decide_eq_true.
Qed.

(** For a post whose fields are strings where they are given (and whose
    [content_type] and [visibility] are not null): the posting route is
    append-only and keeps the constraints of the
    post and ledger tables: ids stay unique, every author and actor is a
    registered identity, every reply names a post stored before it (so
    threads have no cycles), every stored content has 1 to 5000 code
    units, and every "post.create" ledger entry names a stored post.
    When the id drawn for the ledger entry is unused, a request is all or
    nothing: 201 with the post and its ledger entry appended, or a
    refusal with the store unchanged. *)
Theorem posting_keeps_tables (db : DB) (auth : AuthContext)
    (checkMs nowMs : Z) (postId ledgerId : jsstring) (b : PostBody) :
  plazaTable db -> ledgerTable db ->
  let out := postHandler db auth checkMs nowMs postId ledgerId b in
  plazaTable out.2 /\ ledgerTable out.2
  /\ plaza_messages db `prefix_of` plaza_messages out.2
  /\ ledger_entries db `prefix_of` ledger_entries out.2
  /\ ((ledgerId ∉ entry_id <$> ledger_entries db) ->
      out.2 = db
      \/ exists text row entry,
           out.1 = PostCreated postId (authPublicKey auth) text
                     (Store.content_type row) (reply_to b) (community_id b)
                     nowMs
           /\ plaza_messages out.2 = plaza_messages db ++ [row]
           /\ ledger_entries out.2 = ledger_entries db ++ [entry]
           /\ Store.id row = postId /\ Store.content row = text
           /\ Store.author_id row = authPublicKey auth
           /\ Store.signature row = js "placeholder_signature"
           /\ target_id entry = postId /\ action entry = js "post.create").
Proof.
  intros (Hids & Hthreads & Hrows) (Hlids & Hlrows). cbn zeta.
  destruct (postHandler_cases db auth checkMs nowMs postId ledgerId b)
    as [[Hsame _]|Hins]; cbn zeta in *.
  { rewrite Hsame. repeat split; try done. by left. }
  destruct Hins as (text & row & entry & Htext & Hlen & Hrow & Hentry & Hacc
                    & Hc & Hp & Hco & Hpl & Hled).
  set (out := postHandler db auth checkMs nowMs postId ledgerId b) in *.
  apply truthy_Some in Htext as [_ Hpos].
  unfold plazaRowAccepted in Hacc.
  apply andb_prop in Hacc as [Hacc Hcomm].
  apply andb_prop in Hacc as [Hacc Hreply].
  apply andb_prop in Hacc as [Hacc Hauthor].
  apply andb_prop in Hacc as [Hacc Hvis].
  apply andb_prop in Hacc as [Hacc Hct].
  apply negb_true_iff in Hacc.
  apply bool_decide_eq_true in Hauthor, Hvis, Hct.
  assert (Hnew : Store.id row ∉ Store.id <$> plaza_messages db).
  { intros (m & Hm & Hin)%list_elem_of_fmap.
    apply not_true_iff_false in Hacc. apply Hacc.
    apply postExists_spec. by exists m. }
  assert (Hplaza : plazaTable out.2).
  { unfold plazaTable. rewrite Hpl, Hc. split; [|split].
    - rewrite fmap_app. apply NoDup_app. split; [done|]. split.
      + intros i Hi [->|[]%elem_of_nil]%elem_of_cons. done.
      + cbn. apply NoDup_singleton.
    - intros i m p Hi Hr.
      apply lookup_app_Some in Hi as [Hi|[Hge Hi]].
      + destruct (Hthreads i m p Hi Hr) as (j & n & Hj & Hn & Hid).
        exists j, n. split; [done|]. split; [|done].
        by apply lookup_app_l_Some.
      + apply list_lookup_singleton_Some in Hi as [Hi <-].
        rewrite Hr in Hreply.
        apply postExists_spec in Hreply as (n & Hin & Hid).
        apply list_elem_of_lookup in Hin as [j Hj].
        exists j, n. split; [|split; [|done]].
        * apply lookup_lt_Some in Hj. lia.
        * by apply lookup_app_l_Some.
    - apply Forall_app. split; [done|]. apply Forall_singleton.
      split; [done|]. split; [done|]. split; [done|].
      rewrite Hrow. cbn. lia. }
  split; [exact Hplaza|].
  assert (Hold : Forall (fun e =>
             is_Some (clawfiles out.2 !! actor_id e)
             /\ (action e = js "post.create" ->
                 exists m, m ∈ plaza_messages out.2
                           /\ Store.id m = target_id e
                           /\ Store.author_id m = actor_id e))
           (ledger_entries db)).
  { rewrite Hc, Hpl. eapply Forall_impl; [exact Hlrows|].
    intros e [Ha Hp']. split; [done|]. intros Hact.
    destruct (Hp' Hact) as (m & Hin & Hm). exists m.
    split; [|done]. apply elem_of_app. by left. }
  destruct Hled as [(Hfresh & Hresp & Hl)|(Hdup & Hresp & Hl)].
  - split; [|split; [|split]].
    + unfold ledgerTable. rewrite Hl. split.
      * rewrite fmap_app. apply NoDup_app. split; [done|]. split.
        -- intros i Hi [->|[]%elem_of_nil]%elem_of_cons.
           rewrite Hentry in Hi. done.
        -- cbn. apply NoDup_singleton.
      * apply Forall_app. split; [done|]. apply Forall_singleton.
        rewrite Hc, Hpl. split.
        { rewrite Hentry. cbn. by rewrite Hrow in Hauthor. }
        intros _.
        exists row. split; [apply elem_of_app; right; by constructor|].
        by rewrite Hrow, Hentry.
    + rewrite Hpl. by apply prefix_app_r.
    + rewrite Hl. by apply prefix_app_r.
    + intros _. right. exists text, row, entry.
      subst row entry. rewrite Hresp. by repeat split.
  - split; [|split; [|split]].
    + unfold ledgerTable. by rewrite Hl.
    + rewrite Hpl. by apply prefix_app_r.
    + by rewrite Hl.
    + done.
Qed.

End PostingInvariants.

Lemma demoDb_postTables :
  Schema.plazaTable (Demo.demoDb (js "active") 0)
  /\ Schema.ledgerTable (Demo.demoDb (js "active") 0).
Proof.
  split.
  - split; [apply NoDup_nil_2|]. split; [|apply Forall_nil_2].
    intros i m p Hi. by destruct i.
  - split; [apply NoDup_nil_2|apply Forall_nil_2].
Qed.

(** The first post of the demo identity. *)
Lemma posting_keeps_tables_witness :
  Schema.plazaTable
    (Plaza.postHandler (Demo.demoDb (js "active") 0) Demo.demoAuth
       Demo.demoInstant Demo.demoInstant (js "post-1") (js "entry-1")
       Demo.demoPost).2.
Proof.
  exact (proj1 (posting_keeps_tables (Demo.demoDb (js "active") 0)
                  Demo.demoAuth Demo.demoInstant Demo.demoInstant
                  (js "post-1") (js "entry-1") Demo.demoPost
                  (proj1 demoDb_postTables) (proj2 demoDb_postTables))).
Defined.

Section CanonicalPathHost.
Import Http Store Auth.

Lemma indexOf_skip (c : N) (p s t : jsstring) :
  c ∉ s ->
  indexOf (c :: p) (s ++ t)
  = (fun i => (length s + i)%nat) <$> indexOf (c :: p) t.
Proof.
  induction s as [|x s IH]; intros Hc.
  - cbn [app length]. by destruct (indexOf (c :: p) t).
  - apply not_elem_of_cons in Hc as [Hx Hs].
    cbn [app indexOf startsWith].
    destruct (N.eqb_spec c x) as [->|_]; [done|]. cbn [andb].
    rewrite (IH Hs). by destruct (indexOf (c :: p) t).
Qed.

(** The signed path starts at the first "/api" of the whole URL, not of
    its path: for a host whose name begins with "api" that is inside the
    authority, and the signed path is the URL from the second slash of
    "://" on, host included. *)
Theorem canonical_path_api_host (scheme rest : jsstring) :
  47 ∉ scheme ->
  canonicalPath (scheme ++ js "://api" ++ rest) = js "/api" ++ rest.
Proof.
  intros Hs. rewrite canonicalPath_drop.
  change (js "/api") with [47; 97; 112; 105].
  rewrite indexOf_skip by done.
  change (js "://api" ++ rest) with (58 :: 47 :: 47 :: 97 :: 112 :: 105 :: rest).
  cbn [indexOf startsWith N.eqb Pos.eqb andb option_map fmap option_fmap].
  by rewrite drop_app_add.
Qed.

(** "https://api.clawish.com/api/v1/plaza" is signed as
    "/api.clawish.com/api/v1/plaza". *)
Lemma canonical_path_api_host_witness :
  canonicalPath (js "https://api.clawish.com/api/v1/plaza")
  = js "/api.clawish.com/api/v1/plaza".
Proof.
  apply (canonical_path_api_host (js "https") (js ".clawish.com/api/v1/plaza")).
  by_evaluation.
Defined.

End CanonicalPathHost.

(** ** The database engine *)

Section SqlFacts.
Import Sql.

Lemma firstRow_singleton {G : Engine} {A : Type} (x : A) :
  EngineSound G -> firstRow [x] = Some x.
Proof.
  intros [Hfirst _]. specialize (Hfirst A [x]).
  destruct (firstRow [x]) as [y|]; [|done].
  by apply list_elem_of_singleton in Hfirst as ->.
Qed.

Lemma firstRow_nil {G : Engine} {A : Type} :
  EngineSound G -> firstRow (@nil A) = None.
Proof.
  intros [Hfirst _]. specialize (Hfirst A []).
  destruct (firstRow []) as [y|]; [|done]. by apply elem_of_nil in Hfirst.
Qed.

Lemma firstRow_elem {G : Engine} {A : Type} (l : list A) (x : A) :
  EngineSound G -> firstRow l = Some x -> x ∈ l.
Proof. intros [Hfirst _] Hx. specialize (Hfirst A l). by rewrite Hx in Hfirst. Qed.

Lemma firstRow_None {G : Engine} {A : Type} (l : list A) :
  EngineSound G -> firstRow l = None -> l = [].
Proof. intros [Hfirst _] Hx. specialize (Hfirst A l). by rewrite Hx in Hfirst. Qed.

Lemma insertDesc_perm {A : Type} (key : A -> Z) (x : A) (l : list A) :
  insertDesc key x l ≡ₚ x :: l.
Proof.
  induction l as [|y r IH]; cbn; [done|].
  destruct (key y <=? key x)%Z; [done|]. rewrite IH. apply Permutation_swap.
Qed.

Lemma descending_cons {A : Type} (key : A -> Z) (x : A) (l : list A) :
  descending key (x :: l)
  <-> Forall (fun y => (key y <= key x)%Z) l /\ descending key l.
Proof.
  split.
  - intros H. split.
    + apply Forall_lookup. intros i y Hy. by apply (H 0%nat (S i) x y); [lia|..].
    + intros i j a b Hij Ha Hb. by apply (H (S i) (S j) a b); [lia|..].
  - intros [Hall Hd] i j a b Hij Ha Hb.
    destruct j as [|j]; [lia|]. cbn in Hb. destruct i as [|i]; cbn in Ha.
    + injection Ha as <-. by apply (proj1 (Forall_lookup _ _) Hall j).
    + apply (Hd i j a b); [lia|done..].
Qed.

Lemma insertDesc_descending {A : Type} (key : A -> Z) (x : A) (l : list A) :
  descending key l -> descending key (insertDesc key x l).
Proof.
  induction l as [|y r IH]; intros Hd; cbn.
  - apply descending_cons. split; [done|]. intros i j a b _ Hi. by destruct i.
  - apply descending_cons in Hd as [Hall Hr].
    destruct (Z.leb_spec (key y) (key x)) as [Hle|Hgt].
    + apply descending_cons. split.
      * apply Forall_cons. split; [done|].
        eapply Forall_impl; [exact Hall|]. cbn. intros; lia.
      * apply descending_cons. by split.
    + apply descending_cons. split; [|by apply IH].
      rewrite insertDesc_perm. apply Forall_cons. split; [lia|done].
Qed.

(** The scanning engine keeps the promise of SQL. *)
Lemma scanEngine_sound : EngineSound scanEngine.
Proof.
  split.
  - intros A [|x l]; cbn; [done|]. by left.
  - intros A key l. cbn. induction l as [|x l [IHp IHd]]; cbn.
    + split; [done|]. intros i j a b _ Hi. by destruct i.
    + split; [by rewrite insertDesc_perm, IHp|by apply insertDesc_descending].
Qed.

Lemma orderByDesc_elem {G : Engine} {A : Type} (key : A -> Z) (l : list A)
    (x : A) :
  EngineSound G -> x ∈ orderByDesc key l <-> x ∈ l.
Proof. intros [_ Hord]. by rewrite (proj1 (Hord A key l)). Qed.

End SqlFacts.

(** ** handlers/communities *)

Section CommunityFacts.
Import Http Store Auth Sql Api Communities.

Lemma filter_length_remove {A B : Type} `{EqDecision B} (f : A -> B)
    (l : list A) (k : B) :
  NoDup (f <$> l) -> k ∈ f <$> l ->
  length l = S (length (filter (fun y => f y <> k) l)).
Proof.
  induction l as [|x l IH]; intros Hnd Hin; [by apply elem_of_nil in Hin|].
  rewrite fmap_cons in Hnd, Hin. apply NoDup_cons in Hnd as [Hx Hnd].
  rewrite filter_cons. destruct (decide (f x <> k)) as [Hne|Heq].
  - cbn [length]. f_equal. apply IH; [done|].
    apply elem_of_cons in Hin as [Hk|Hin]; [congruence|done].
  - apply dec_stable in Heq. subst k. cbn [length]. f_equal.
    f_equal. symmetry. apply filter_all. apply Forall_forall.
    intros y Hy Hfy. apply Hx. rewrite <- Hfy. by apply list_elem_of_fmap_2.
Qed.

Lemma filter_ext_in {A : Type} (P Q : A -> Prop)
    `{!forall x, Decision (P x)} `{!forall x, Decision (Q x)} (l : list A) :
  Forall (fun x => P x <-> Q x) l -> filter P l = filter Q l.
Proof.
  induction 1 as [|x l Hx _ IH]; [done|].
  rewrite !filter_cons, IH.
  destruct (decide (P x)), (decide (Q x)); tauto.
Qed.

End CommunityFacts.

Section CommunityLemmas.
Import Http Store Auth Sql Api Communities.

(** With every community stored under its slug, the lookup by id or slug
    finds at most one row. *)
Lemma matching_consistent (t : Tables) (x : jsstring) :
  (forall i c, rows t !! i = Some c -> slug c = i) ->
  matching t x = match rows t !! x with
                 | Some c => [(x, c)]
                 | None => []
                 end.
Proof.
  intros Hslug. unfold matching.
  set (l := filter _ _).
  assert (Hl : forall k c, (k, c) ∈ l <-> k = x /\ rows t !! x = Some c).
  { intros k c. unfold l. rewrite list_elem_of_filter, elem_of_map_to_list.
    cbn. split.
    - intros [[->|Hs] Hk]; [done|]. rewrite (Hslug k c Hk) in Hs.
      by subst k.
    - intros [-> Hk]. split; [by left|done]. }
  assert (Hnd : NoDup l) by (apply NoDup_filter, NoDup_map_to_list).
  destruct (rows t !! x) as [c|] eqn:Hx.
  - apply Permutation_singleton_r. apply NoDup_Permutation.
    + done.
    + apply NoDup_singleton.
    + intros [k d]. rewrite Hl, list_elem_of_singleton. split.
      * by intros [-> [= ->]].
      * by intros [= -> ->].
  - destruct l as [|[k d] l']; [done|].
    assert (Hin : (k, d) ∈ (k, d) :: l') by by left.
    by apply Hl in Hin as [_ ?].
Qed.

Lemma firstRow_matching {G : Engine} (t : Tables) (x : jsstring) :
  EngineSound G ->
  (forall i c, rows t !! i = Some c -> slug c = i) ->
  firstRow (matching t x) = (fun c => (x, c)) <$> rows t !! x.
Proof.
  intros HG Hslug. rewrite matching_consistent by done.
  destruct (rows t !! x); cbn; [by apply firstRow_singleton|by apply firstRow_nil].
Qed.

Lemma isMember_spec (t : Tables) (c p : jsstring) :
  isMember t c p = true
  <-> (c, p) ∈ (fun m => (community_id m, member_id m)) <$> members t.
Proof.
  unfold isMember. rewrite existsb_exists, list_elem_of_fmap. split.
  - intros (m & Hin & Hm). apply bool_decide_eq_true in Hm as [<- <-].
    exists m. by rewrite list_elem_of_In.
  - intros (m & [= -> ->] & Hin). exists m. rewrite <- list_elem_of_In.
    by rewrite bool_decide_eq_true.
Qed.

Lemma insertMember_Some (db : DB) (t t1 : Tables) (m : Member) :
  insertMember db t m = Some t1 ->
  isMember t (community_id m) (member_id m) = false
  /\ is_Some (rows t !! community_id m)
  /\ is_Some (clawfiles db !! member_id m)
  /\ rows t1 = rows t /\ members t1 = members t ++ [m].
Proof.
  unfold insertMember.
  destruct (isMember t _ _); [done|].
  destruct (bool_decide (is_Some (rows t !! _))) eqn:Hc; [|done].
  destruct (bool_decide (is_Some (clawfiles db !! _))) eqn:Hp; [|done].
  destruct (bool_decide (role m ∈ _)); [|done]. cbn. intros [= <-].
  apply bool_decide_eq_true in Hc, Hp. done.
Qed.

Lemma insertMember_accepts (db : DB) (t : Tables) (m : Member) :
  isMember t (community_id m) (member_id m) = false ->
  is_Some (rows t !! community_id m) ->
  is_Some (clawfiles db !! member_id m) ->
  role m ∈ [js "member"; js "moderator"; js "admin"] ->
  insertMember db t m = Some {| rows := rows t; members := members t ++ [m] |}.
Proof.
  intros Hm Hc Hp Hr. unfold insertMember.
  by rewrite Hm, !bool_decide_eq_true_2.
Qed.

Lemma membersOf_app (t : Tables) (r : gmap jsstring Community) (m : Member)
    (i : jsstring) :
  membersOf {| rows := r; members := members t ++ [m] |} i
  = membersOf t i ++ (if decide (community_id m = i) then [m] else []).
Proof.
  unfold membersOf. cbn [members]. rewrite filter_app. by f_equal.
Qed.

Lemma membersOf_count (t : Tables) (i : jsstring) (d now : Z) (j : jsstring) :
  membersOf (addToMemberCount t i d now) j = membersOf t j.
Proof. done. Qed.

Lemma addToMemberCount_lookup (t : Tables) (i j : jsstring) (d now : Z)
    (c : Community) :
  rows (addToMemberCount t i d now) !! j = Some c ->
  exists c0, rows t !! j = Some c0 /\ slug c = slug c0
             /\ member_count c
                = (member_count c0 + if decide (i = j) then d else 0)%Z.
Proof.
  cbn [addToMemberCount rows]. destruct (decide (i = j)) as [->|Hne].
  - rewrite lookup_alter_eq. destruct (rows t !! j) as [c0|]; cbn; [|done].
    intros [= <-]. by exists c0.
  - rewrite lookup_alter_ne by done. intros Hc. exists c.
    split; [done|]. split; [done|lia].
Qed.

Lemma addToMemberCount_dom (t : Tables) (i j : jsstring) (d now : Z) :
  is_Some (rows (addToMemberCount t i d now) !! j) <-> is_Some (rows t !! j).
Proof. cbn [addToMemberCount rows]. apply lookup_alter_is_Some. Qed.

(** No membership names a community that is not stored. *)
Lemma membersOf_absent (t : Tables) (i : jsstring) :
  (forall m, m ∈ members t -> is_Some (rows t !! community_id m)) ->
  rows t !! i = None -> membersOf t i = [].
Proof.
  intros Hfk Hi. unfold membersOf.
  destruct (filter _ _) as [|m l] eqn:Hf; [done|].
  assert (Hin : m ∈ filter (fun m => community_id m = i) (members t))
    by (rewrite Hf; by left).
  apply list_elem_of_filter in Hin as [<- Hin].
  apply Hfk in Hin as [c Hc]. congruence.
Qed.

End CommunityLemmas.

Section CommunityTheorems.
Import Http Store Auth Sql Api Communities.

Lemma slugTaken_false (t : Tables) (x : jsstring) :
  (forall i c, rows t !! i = Some c -> slug c = i) ->
  slugTaken t x = false -> rows t !! x = None.
Proof.
  intros Hslug. unfold slugTaken. rewrite matching_consistent by done.
  by destruct (rows t !! x).
Qed.

Lemma isMember_absent (t t' : Tables) (i p : jsstring) :
  members t' = members t ->
  (forall m, m ∈ members t -> is_Some (rows t !! community_id m)) ->
  rows t !! i = None -> isMember t' i p = false.
Proof.
  intros Heq Hfk Hi. apply not_true_iff_false. intros Hm.
  apply isMember_spec in Hm. rewrite Heq in Hm.
  apply list_elem_of_fmap in Hm as (m & [= -> ->] & Hin).
  apply Hfk in Hin as [c Hc]. congruence.
Qed.

(** What [POST /communities] does on consistent tables: nothing, or both
    inserts. *)
Lemma createHandler_cases (db : DB) (t : Tables) (auth : AuthContext)
    (nowMs : Z) (b : CreateBody) :
  consistent t ->
  ((createHandler db t auth nowMs b).2 = (db, t)
   /\ forall s p, (createHandler db t auth nowMs b).1 <> Answered s p)
  \/ exists name slug row m,
       truthy (body_name b) = Some name
       /\ truthy (body_slug b) = Some slug
       /\ slugPattern slug = true
       /\ rows t !! slug = None
       /\ is_Some (clawfiles db !! authPublicKey auth)
       /\ row = {| Communities.name := name; Communities.slug := slug;
                   description := truthy (body_description b);
                   owner_id := authPublicKey auth;
                   avatar_url := None; banner_url := None;
                   is_public := default true (body_is_public b);
                   require_verification := 0;
                   member_count := 1; post_count := 0;
                   created_at := nowMs; updated_at := nowMs |}
       /\ m = {| community_id := slug; member_id := authPublicKey auth;
                 role := js "admin"; joined_at := nowMs |}
       /\ createHandler db t auth nowMs b
          = (Answered 201
               (Created slug name slug (body_description b)
                  (authPublicKey auth) (default true (body_is_public b))
                  nowMs),
             ({| clawfiles := clawfiles db;
                 clawfile_profiles := clawfile_profiles db;
                 plaza_messages := plaza_messages db;
                 Store.communities := Store.communities db ++ [slug];
                 ledger_entries := ledger_entries db |},
              {| rows := <[slug := row]> (rows t);
                 members := members t ++ [m] |})).
Proof.
  intros (Hslug & Hfk & Hnd & Hcount). unfold createHandler.
  destruct (truthy (body_name b)) as [name|]; [|by left].
  destruct (truthy (body_slug b)) as [slug|]; [|by left].
  destruct (slugPattern slug) eqn:Hpat; cbn [negb]; [|by left].
  destruct (slugTaken t slug) eqn:Htaken; [by left|].
  pose proof (slugTaken_false t slug Hslug Htaken) as Hfree.
  unfold insertCommunity. cbn [Communities.slug owner_id].
  rewrite (bool_decide_eq_false_2 (is_Some (rows t !! slug)))
    by (rewrite Hfree; by intros [? ?]).
  rewrite (bool_decide_eq_false_2 (Exists _ _)).
  2: { intros ([k c] & Hin & Hs)%Exists_exists.
       apply elem_of_map_to_list in Hin. cbn in Hs.
       rewrite (Hslug k c Hin) in Hs. congruence. }
  cbn [orb].
  destruct (bool_decide (is_Some (clawfiles db !! authPublicKey auth)))
    eqn:Howner; cbn [negb]; [|by left].
  apply bool_decide_eq_true in Howner.
  rewrite insertMember_accepts; cbn [community_id member_id role rows clawfiles].
  - right. eexists name, slug, _, _. by repeat (split; [done|]).
  - by apply (isMember_absent t).
  - rewrite lookup_insert_eq. by eexists.
  - done.
  - by_evaluation.
Qed.

Lemma consistent_insert (t : Tables) (i : jsstring) (c0 : Community)
    (m : Member) (d now : Z) :
  consistent t ->
  rows t !! i = Some c0 ->
  community_id m = i ->
  isMember t i (member_id m) = false ->
  consistent
    (addToMemberCount {| rows := rows t; members := members t ++ [m] |}
       i 1 now).
Proof.
  intros (Hslug & Hfk & Hnd & Hcount) Hi Hm Hnew.
  split; [|split; [|split]].
  - intros j c Hj. apply addToMemberCount_lookup in Hj as (c1 & Hc1 & -> & _).
    by apply Hslug.
  - intros m' Hin. apply addToMemberCount_dom. cbn [rows].
    cbn [addToMemberCount members] in Hin.
    apply elem_of_app in Hin as [Hin|Hin%list_elem_of_singleton].
    + by apply Hfk.
    + subst m'. rewrite Hm. by eexists.
  - cbn [addToMemberCount members]. rewrite fmap_app. apply NoDup_app.
    split; [done|]. split; [|apply NoDup_singleton].
    intros p Hp [->|[]%elem_of_nil]%elem_of_cons.
    rewrite Hm in Hp. apply isMember_spec in Hp. congruence.
  - intros j c Hj. rewrite membersOf_count, membersOf_app, length_app.
    apply addToMemberCount_lookup in Hj as (c1 & Hc1 & _ & ->). cbn [rows] in Hc1.
    rewrite (Hcount j c1 Hc1), Hm.
    destruct (decide (i = j)); cbn [length]; lia.
Qed.

Lemma membersOf_delete (t : Tables) (i p j : jsstring) :
  membersOf (deleteMember t i p) j
  = filter (fun m => ~ (community_id m = i /\ member_id m = p))
           (membersOf t j).
Proof.
  unfold membersOf, deleteMember. cbn [members].
  induction (members t) as [|m l IH]; [done|].
  rewrite !filter_cons.
  destruct (decide (~ (community_id m = i /\ member_id m = p))) as [Hk|Hk];
    destruct (decide (community_id m = j)) as [Hj|Hj];
    rewrite ?filter_cons, ?decide_True, ?decide_False by done;
    by rewrite IH.
Qed.

(** A creation keeps the tables consistent. *)
Lemma createHandler_consistent (db : DB) (t : Tables) (auth : AuthContext)
    (nowMs : Z) (b : CreateBody) :
  consistent t -> consistent (createHandler db t auth nowMs b).2.2.
Proof.
  intros Ht. pose proof Ht as (Hslug & Hfk & Hnd & Hcount).
  destruct (createHandler_cases db t auth nowMs b Ht)
    as [[-> _]|(name & slug & row & m & _ & _ & _ & Hfree & _ & Hrow & Hm
                & ->)]; [done|].
  cbn [snd]. split; [|split; [|split]]; cbn [rows members].
  + intros i c [[<- <-]|[_ Hc]]%lookup_insert_Some; [by rewrite Hrow|].
    by apply Hslug.
  + intros m' [Hin|Hin%list_elem_of_singleton]%elem_of_app.
    * apply lookup_insert_is_Some'. right. by apply Hfk.
    * subst m' m. cbn. rewrite lookup_insert_eq. by eexists.
  + rewrite fmap_app. apply NoDup_app.
    split; [done|]. split; [|apply NoDup_singleton].
    intros p Hp [->|[]%elem_of_nil]%elem_of_cons.
    apply list_elem_of_fmap in Hp as (m' & Hpair & Hin).
    apply Hfk in Hin as [c Hc]. rewrite Hm in Hpair. cbn in Hpair.
    injection Hpair as Hcid _. congruence.
  + intros i c Hi. rewrite membersOf_app, length_app.
    apply lookup_insert_Some in Hi as [[<- <-]|[Hne Hc]].
    * rewrite (membersOf_absent t slug Hfk Hfree), Hm, Hrow. cbn.
      by rewrite decide_True.
    * rewrite (Hcount i c Hc), Hm. cbn [community_id].
      rewrite decide_False by done. cbn. lia.
Qed.

(** A join keeps the tables consistent. *)
Lemma joinHandler_consistent (G : Engine) (db : DB) (t : Tables)
    (auth : AuthContext) (nowMs : Z) (i : jsstring) :
  EngineSound G -> consistent t ->
  consistent (joinHandler db t auth nowMs i).2.
Proof.
  intros HG Ht. pose proof Ht as (Hslug & Hfk & Hnd & Hcount).
  unfold joinHandler.
  rewrite firstRow_matching by done.
  destruct (rows t !! i) as [c0|] eqn:Hi; cbn [fmap option_fmap option_map];
    [|done].
  cbn [fst].
  destruct (insertMember db t _) as [t1|] eqn:Hins; [|done].
  apply insertMember_Some in Hins as (Hnew & _ & _ & Hr & Hm).
  cbn [snd community_id member_id] in *.
  replace t1 with {| rows := rows t; members := members t ++
    [{| community_id := i; member_id := authPublicKey auth;
        role := js "member"; joined_at := nowMs |}] |}
    by (destruct t1; cbn in *; congruence).
  by apply (consistent_insert t i c0).
Qed.

(** The tables of the community routes stay consistent (every community
    under its slug, no membership twice or of a missing community, and
    [member_count] equal to the number of memberships) under creation,
    under joining, and under leaving by a member. *)
Theorem community_tables_kept (G : Engine) (db : DB) (t : Tables)
    (auth : AuthContext) (nowMs : Z) :
  EngineSound G -> consistent t ->
  (forall b, consistent (createHandler db t auth nowMs b).2.2)
  /\ (forall i, consistent (joinHandler db t auth nowMs i).2)
  /\ (forall i,
        (is_Some (rows t !! i) -> isMember t i (authPublicKey auth) = true) ->
        consistent (leaveHandler t auth nowMs i).2).
Proof.
  intros HG Ht. pose proof Ht as (Hslug & Hfk & Hnd & Hcount).
  split; [|split].
  - intros b. by apply createHandler_consistent.
  - intros i. by apply joinHandler_consistent.
  - intros i Hmember. unfold leaveHandler.
    rewrite firstRow_matching by done.
    destruct (rows t !! i) as [c0|] eqn:Hi; cbn [fmap option_fmap option_map];
      [|done].
    cbn [fst snd]. specialize (Hmember (ltac:(by eexists))).
    split; [|split; [|split]].
    + intros j c Hj. apply addToMemberCount_lookup in Hj as (c1 & Hc1 & -> & _).
      by apply Hslug.
    + intros m Hin. apply addToMemberCount_dom. cbn [rows deleteMember].
      cbn [addToMemberCount members deleteMember] in Hin.
      apply list_elem_of_filter in Hin as [_ Hin]. by apply Hfk.
    + cbn [addToMemberCount members deleteMember].
      eapply sublist_NoDup; [exact Hnd|].
      apply fmap_sublist, sublist_filter.
    + intros j c Hj. rewrite membersOf_count, membersOf_delete.
      apply addToMemberCount_lookup in Hj as (c1 & Hc1 & _ & ->).
      cbn [rows deleteMember] in Hc1. rewrite (Hcount j c1 Hc1).
      destruct (decide (i = j)) as [<-|Hne].
      * assert (Hnd' : NoDup (member_id <$> membersOf t i)).
        { unfold membersOf. clear -Hnd.
          induction (members t) as [|m l IH]; [apply NoDup_nil_2|].
          rewrite fmap_cons in Hnd. apply NoDup_cons in Hnd as [Hm Hnd].
          rewrite filter_cons. case_decide as Hc; [|by apply IH].
          rewrite fmap_cons. apply NoDup_cons. split; [|by apply IH].
          intros (m' & Hid & Hin)%list_elem_of_fmap.
          apply list_elem_of_filter in Hin as [Hc' Hin].
          apply Hm. apply list_elem_of_fmap. exists m'.
          split; [congruence|done]. }
        assert (Hin : authPublicKey auth ∈ member_id <$> membersOf t i).
        { apply isMember_spec, list_elem_of_fmap in Hmember
            as (m & [= Hc Hp] & Hin).
          apply list_elem_of_fmap. exists m. split; [done|].
          by apply list_elem_of_filter. }
        rewrite (filter_length_remove member_id (membersOf t i)
                   (authPublicKey auth) Hnd' Hin).
        replace (filter (fun m => ~ (community_id m = i
                                     /\ member_id m = authPublicKey auth))
                        (membersOf t i))
          with (filter (fun y => member_id y <> authPublicKey auth)
                       (membersOf t i)); [lia|].
        apply filter_ext_in. apply Forall_forall. intros m Hm.
        apply list_elem_of_filter in Hm as [Hc _]. tauto.
      * rewrite filter_all; [lia|]. apply Forall_forall. intros m Hm.
        apply list_elem_of_filter in Hm as [Hc _]. intros [Hc' _]. congruence.
Qed.

End CommunityTheorems.

Section CommunityRoundTrips.
Import Http Store Auth Sql Api Communities.

(** [POST /communities/:id/leave] lowers [member_count] whether or not
    the caller is a member: for a caller who is not, the answer is still
    200, no membership is removed, and the counter ends one below the
    number of memberships, so the tables are no longer consistent. *)
Theorem leave_of_non_member (G : Engine) (t : Tables) (auth : AuthContext)
    (nowMs : Z) (i : jsstring) (c : Community) :
  EngineSound G -> consistent t ->
  rows t !! i = Some c ->
  isMember t i (authPublicKey auth) = false ->
  let out := leaveHandler t auth nowMs i in
  out.1 = Answered 200 (Message (js "Left community"))
  /\ members out.2 = members t
  /\ (exists c', rows out.2 !! i = Some c'
                 /\ member_count c' = (member_count c - 1)%Z
                 /\ member_count c'
                    = (Z.of_nat (length (membersOf out.2 i)) - 1)%Z)
  /\ ~ consistent out.2.
Proof.
  intros HG Ht Hi Hno. pose proof Ht as (Hslug & Hfk & Hnd & Hcount).
  cbn zeta. unfold leaveHandler. rewrite firstRow_matching by done.
  rewrite Hi. cbn [fmap option_fmap option_map fst snd].
  assert (Hmem : members (deleteMember t i (authPublicKey auth)) = members t).
  { cbn [deleteMember members]. apply filter_all, Forall_forall.
    intros m Hin [Hc Hp]. apply not_true_iff_false in Hno. apply Hno.
    apply isMember_spec, list_elem_of_fmap. exists m. by rewrite Hc, Hp. }
  assert (Hrow : exists c',
    rows (addToMemberCount (deleteMember t i (authPublicKey auth)) i (-1)
            nowMs) !! i = Some c'
    /\ member_count c' = (member_count c - 1)%Z
    /\ member_count c'
       = (Z.of_nat (length (membersOf
            (addToMemberCount (deleteMember t i (authPublicKey auth)) i (-1)
               nowMs) i)) - 1)%Z).
  { cbn [addToMemberCount deleteMember rows].
    rewrite lookup_alter_eq, Hi. cbn. eexists. split; [done|]. cbn.
    split; [lia|]. unfold membersOf. cbn [members]. fold (membersOf t i).
    rewrite (Hcount i c Hi).
    change (filter _ (members t))
      with (members (deleteMember t i (authPublicKey auth))).
    rewrite Hmem. fold (membersOf t i). lia. }
  split; [done|]. split; [exact Hmem|]. split; [exact Hrow|].
  intros (_ & _ & _ & Hcount'). destruct Hrow as (c' & Hc' & _ & Hm).
  specialize (Hcount' i c' Hc'). lia.
Qed.

(** Joining and leaving undo each other: after a join that is answered
    200 the caller is a member and a second join is refused 409 with the
    tables unchanged; a leave then restores the memberships and every
    [member_count] to what they were before the join. *)
Theorem join_then_leave (G : Engine) (db : DB) (t : Tables)
    (auth : AuthContext) (joinMs againMs leaveMs : Z) (i : jsstring) :
  EngineSound G -> consistent t ->
  (joinHandler db t auth joinMs i).1
  = Answered 200 (Message (js "Joined community")) ->
  let t1 := (joinHandler db t auth joinMs i).2 in
  let t2 := (leaveHandler t1 auth leaveMs i).2 in
  isMember t1 i (authPublicKey auth) = true
  /\ joinHandler db t1 auth againMs i
     = (Refused 409 (js "conflict") (js "Already a member"), t1)
  /\ members t2 = members t
  /\ forall j, member_count <$> rows t2 !! j = member_count <$> rows t !! j.
Proof.
  intros HG Ht Hok. pose proof Ht as (Hslug & Hfk & Hnd & Hcount).
  pose proof (joinHandler_consistent G db t auth joinMs i HG Ht) as Ht1.
  assert (Hjoin : exists c0 t0,
    rows t !! i = Some c0
    /\ isMember t i (authPublicKey auth) = false
    /\ rows t0 = rows t
    /\ members t0 = members t ++
         [{| community_id := i; member_id := authPublicKey auth;
             role := js "member"; joined_at := joinMs |}]
    /\ joinHandler db t auth joinMs i
       = (Answered 200 (Message (js "Joined community")),
          addToMemberCount t0 i 1 joinMs)).
  { revert Hok. unfold joinHandler. rewrite firstRow_matching by done.
    destruct (rows t !! i) as [c0|] eqn:Hi;
      cbn [fmap option_fmap option_map]; [|done].
    cbn [fst].
    destruct (insertMember db t _) as [t0|] eqn:Hins; [|done].
    apply insertMember_Some in Hins as (Hnew & _ & _ & Hr & Hm).
    intros _. by exists c0, t0. }
  destruct Hjoin as (c0 & t0 & Hi & Hnew & Hr & Hm & Hjoin).
  cbn zeta. rewrite Hjoin in Ht1 |- *. cbn [snd] in Ht1 |- *.
  set (t1 := addToMemberCount t0 i 1 joinMs) in *.
  pose proof Ht1 as (Hslug1 & _).
  assert (Hmem1 : isMember t1 i (authPublicKey auth) = true).
  { apply isMember_spec. cbn [t1 addToMemberCount members]. rewrite Hm.
    rewrite fmap_app. apply elem_of_app. right. by left. }
  assert (Hrow1 : exists c1, rows t1 !! i = Some c1
                             /\ member_count c1 = (member_count c0 + 1)%Z).
  { cbn [t1 addToMemberCount rows]. rewrite lookup_alter_eq, Hr, Hi. cbn.
    by eexists. }
  destruct Hrow1 as (c1 & Hc1 & Hcnt1).
  split; [exact Hmem1|]. split.
  - unfold joinHandler. rewrite firstRow_matching by done.
    rewrite Hc1. cbn [fmap option_fmap option_map fst].
    unfold insertMember. cbn [community_id member_id]. rewrite Hmem1.
    reflexivity.
  - unfold leaveHandler. rewrite firstRow_matching by done.
    rewrite Hc1. cbn [fmap option_fmap option_map fst snd]. split.
    + cbn [addToMemberCount deleteMember members t1]. rewrite Hm.
      rewrite filter_app, filter_cons, filter_nil.
      rewrite decide_False by (cbn; intros Hn; by apply Hn).
      rewrite app_nil_r.
      apply filter_all, Forall_forall.
      intros m Hin [Hc Hp]. apply not_true_iff_false in Hnew. apply Hnew.
      apply isMember_spec, list_elem_of_fmap. exists m. by rewrite Hc, Hp.
    + intros j. cbn [addToMemberCount deleteMember rows t1]. rewrite Hr.
      destruct (decide (i = j)) as [<-|Hne].
      * rewrite !lookup_alter_eq, Hi. cbn. f_equal. lia.
      * by rewrite !lookup_alter_ne.
Qed.

End CommunityRoundTrips.

Section CommunityCreation.
Import Http Store Auth Sql Api Communities.

(** A community that [POST /communities] has created (201) is found by
    [GET /communities/:id] under its slug, with the creator as owner and
    as its one member, and [member_count] 1; its id is in the table the
    posts refer to; and a second creation with the same slug, by anyone,
    is refused 409 with nothing changed. *)
Theorem create_then_get (G : Engine) (db : DB) (t : Tables)
    (auth other : AuthContext) (nowMs laterMs : Z) (b : CreateBody)
    (s : Z) (p : Payload) :
  EngineSound G -> consistent t ->
  (createHandler db t auth nowMs b).1 = Answered s p ->
  let db1 := (createHandler db t auth nowMs b).2.1 in
  let t1 := (createHandler db t auth nowMs b).2.2 in
  exists slug cf row,
    truthy (body_slug b) = Some slug
    /\ clawfiles db !! authPublicKey auth = Some cf
    /\ getHandler db1 t1 slug
       = Answered 200 (Details slug row (Store.display_name cf)
                         (Store.mention_name cf))
    /\ owner_id row = authPublicKey auth
    /\ member_count row = 1%Z
    /\ membersOf t1 slug
       = [{| community_id := slug; member_id := authPublicKey auth;
             role := js "admin"; joined_at := nowMs |}]
    /\ slug ∈ Store.communities db1
    /\ createHandler db1 t1 other laterMs b
       = (Refused 409 (js "conflict") (js "Community slug already taken"),
          (db1, t1)).
Proof.
  intros HG Ht Hok. pose proof Ht as (Hslug & Hfk & Hnd & Hcount).
  destruct (createHandler_cases db t auth nowMs b Ht)
    as [[_ Hno]|(name & slug & row & m & Hname & Hs & Hpat & Hfree & Hreg
                 & Hrow & Hm & Hrun)].
  { by destruct (Hno s p). }
  assert (Ht1 : consistent (createHandler db t auth nowMs b).2.2).
  { apply (createHandler_consistent db t auth nowMs b Ht). }
  cbn zeta. rewrite Hrun in Ht1 |- *. cbn [fst snd] in Ht1 |- *.
  destruct Hreg as [cf Hcf]. exists slug, cf, row.
  split; [done|]. split; [done|].
  pose proof Ht1 as (Hslug1 & _).
  assert (Hmatch : matching {| rows := <[slug := row]> (rows t);
                               members := members t ++ [m] |} slug
                   = [(slug, row)]).
  { rewrite matching_consistent by done. cbn [rows].
    by rewrite lookup_insert_eq. }
  split; [|split; [|split; [|split; [|split]]]].
  - unfold getHandler. rewrite Hmatch. cbn [omap list_omap fst snd clawfiles].
    rewrite Hrow at 1. cbn [owner_id]. rewrite Hcf.
    cbn [fmap option_fmap option_map]. rewrite firstRow_singleton by done.
    done.
  - by rewrite Hrow.
  - by rewrite Hrow.
  - rewrite membersOf_app, (membersOf_absent t slug Hfk Hfree), Hm. cbn.
    by rewrite decide_True.
  - cbn [Store.communities]. apply elem_of_app. right. by left.
  - unfold createHandler. rewrite Hname, Hs, Hpat. cbn [negb].
    unfold slugTaken. by rewrite Hmatch.
Qed.

End CommunityCreation.

(** ** handlers/follows *)

Section FollowFacts.
Import Http Store Auth Sql Api Lookup Follows.

Lemma isFollowing_spec (fs : list Follow) (a b : jsstring) :
  isFollowing fs a b = true
  <-> (a, b) ∈ (fun f => (follower_id f, following_id f)) <$> fs.
Proof.
  unfold isFollowing. rewrite existsb_exists, list_elem_of_fmap. split.
  - intros (f & Hin & Hf). apply bool_decide_eq_true in Hf as [<- <-].
    exists f. by rewrite list_elem_of_In.
  - intros (f & [= -> ->] & Hin). exists f. rewrite <- list_elem_of_In.
    by rewrite bool_decide_eq_true.
Qed.

Lemma insertFollow_Some (db : DB) (fs fs1 : list Follow) (f : Follow) :
  insertFollow db fs f = Some fs1 <->
  isFollowing fs (follower_id f) (following_id f) = false
  /\ is_Some (clawfiles db !! follower_id f)
  /\ is_Some (clawfiles db !! following_id f)
  /\ follower_id f <> following_id f
  /\ fs1 = fs ++ [f].
Proof.
  unfold insertFollow.
  destruct (isFollowing fs _ _); cbn [orb]; [by split; [|intros [? _]]|].
  destruct (decide (is_Some (clawfiles db !! follower_id f))) as [Ha|Ha].
  2: { rewrite (bool_decide_eq_false_2 _ Ha). cbn. split; [done|tauto]. }
  rewrite (bool_decide_eq_true_2 _ Ha). cbn [negb orb].
  destruct (decide (is_Some (clawfiles db !! following_id f))) as [Hb|Hb].
  2: { rewrite (bool_decide_eq_false_2 _ Hb). cbn. split; [done|tauto]. }
  rewrite (bool_decide_eq_true_2 _ Hb). cbn [negb orb].
  destruct (decide (follower_id f = following_id f)) as [He|He].
  - rewrite (bool_decide_eq_true_2 _ He). split; [done|tauto].
  - rewrite (bool_decide_eq_false_2 _ He). split.
    + by intros [= <-].
    + by intros (_ & _ & _ & _ & ->).
Qed.

Lemma deleteFollow_absent (fs : list Follow) (a b : jsstring) :
  isFollowing fs a b = false -> deleteFollow fs a b = fs.
Proof.
  intros Hno. apply filter_all, Forall_forall. intros f Hin [Ha Hb].
  apply not_true_iff_false in Hno. apply Hno.
  apply isFollowing_spec, list_elem_of_fmap. exists f. by rewrite Ha, Hb.
Qed.

Lemma deleteFollow_app (fs : list Follow) (f : Follow) :
  deleteFollow (fs ++ [f]) (follower_id f) (following_id f)
  = deleteFollow fs (follower_id f) (following_id f).
Proof.
  unfold deleteFollow. rewrite filter_app, filter_cons, filter_nil.
  rewrite decide_False by (intros Hn; by apply Hn). by rewrite app_nil_r.
Qed.

(** What a follow request does: nothing, or the insert of the pair. *)
Lemma followHandler_cases {G : Engine} (db : DB) (fs : list Follow)
    (auth : AuthContext) (nowMs : Z) (target : option jsstring) :
  ((followHandler db fs auth nowMs target).2 = fs
   /\ forall s p, (followHandler db fs auth nowMs target).1 <> Answered s p)
  \/ exists name key f,
       truthy target = Some name
       /\ findClawfile db name = Some key
       /\ key <> authPublicKey auth
       /\ f = {| follower_id := authPublicKey auth; following_id := key;
                 created_at := nowMs |}
       /\ insertFollow db fs f = Some (fs ++ [f])
       /\ followHandler db fs auth nowMs target
          = (Answered 201 (Followed (authPublicKey auth) key nowMs),
             fs ++ [f]).
Proof.
  unfold followHandler.
  destruct (truthy target) as [name|] eqn:Hname; [|by left].
  destruct (findClawfile db name) as [key|] eqn:Hkey; [|by left].
  destruct (decide (key = authPublicKey auth)) as [He|Hne]; [by left|].
  destruct (insertFollow db fs _) as [fs1|] eqn:Hins; [|by left].
  pose proof (proj1 (insertFollow_Some _ _ _ _) Hins) as (_ & _ & _ & _ & ->).
  right. eexists name, key, _. do 3 (split; [done|]).
  split; [reflexivity|]. by split.
Qed.

End FollowFacts.

Section FollowTheorems.
Import Http Store Auth Sql Api Lookup Follows.

(** The follow routes keep the graph well formed: no pair is stored
    twice, nobody follows themselves, and both ends of every edge are
    registered identities, whichever row the lookup of the target
    returns. *)
Theorem follow_graph_kept (G : Engine) (db : DB) (fs : list Follow)
    (auth : AuthContext) (nowMs : Z) :
  wellFormed db fs ->
  (forall target, wellFormed db (followHandler db fs auth nowMs target).2)
  /\ (forall target, wellFormed db (unfollowHandler db fs auth target).2).
Proof.
  intros [Hnd Hall]. split.
  - intros target.
    destruct (followHandler_cases db fs auth nowMs target)
      as [[-> _]|(name & key & f & _ & _ & _ & _ & Hins & ->)]; [done|].
    apply insertFollow_Some in Hins as (Hnew & Ha & Hb & Hne & _).
    cbn [snd]. split.
    + rewrite fmap_app. apply NoDup_app.
      split; [done|]. split; [|apply NoDup_singleton].
      intros p Hp [->|[]%elem_of_nil]%elem_of_cons.
      apply isFollowing_spec in Hp. congruence.
    + apply Forall_app. split; [done|]. by apply Forall_singleton.
  - intros target. unfold unfollowHandler.
    destruct (findClawfile db target) as [key|]; [|done].
    cbn [snd]. split.
    + eapply sublist_NoDup; [exact Hnd|].
      apply fmap_sublist, sublist_filter.
    + unfold deleteFollow. apply Forall_forall. intros f Hf.
      apply list_elem_of_filter in Hf as [_ Hf].
      by apply (proj1 (Forall_forall _ _) Hall f).
Qed.

(** A follow that is answered 201 shows in both listings (the follower's
    list of followed identities and the target's list of followers); a
    second follow of the same target is refused 409 with nothing changed;
    and an unfollow of the target restores the table as it was before the
    follow. *)
Theorem follow_then_unfollow (G : Engine) (db : DB) (fs : list Follow)
    (auth : AuthContext) (nowMs laterMs : Z) (target : option jsstring)
    (s : Z) (p : Payload) :
  EngineSound G ->
  (followHandler db fs auth nowMs target).1 = Answered s p ->
  let fs1 := (followHandler db fs auth nowMs target).2 in
  exists name key,
    truthy target = Some name
    /\ findClawfile db name = Some key
    /\ key <> authPublicKey auth
    /\ p = Followed (authPublicKey auth) key nowMs
    /\ (exists e, e ∈ followingOf db fs1 (authPublicKey auth)
                  /\ public_key e = key /\ followed_at e = nowMs)
    /\ (exists e, e ∈ followersOf db fs1 key
                  /\ public_key e = authPublicKey auth
                  /\ followed_at e = nowMs)
    /\ followHandler db fs1 auth laterMs target
       = (Refused 409 (js "conflict") (js "Already following"), fs1)
    /\ unfollowHandler db fs1 auth name
       = (Answered 200 (Message (js "Unfollowed")), fs).
Proof.
  intros HG Hok. cbn zeta.
  destruct (followHandler_cases db fs auth nowMs target)
    as [[_ Hno]|(name & key & f & Hname & Hkey & Hne & Hf & Hins & Hrun)].
  { by destruct (Hno s p). }
  rewrite Hrun in Hok |- *. cbn [fst snd] in Hok |- *.
  injection Hok as _ <-.
  apply insertFollow_Some in Hins as (Hnew & [ca Ha] & [cb Hb] & _ & _).
  rewrite Hf in Hnew, Ha, Hb. cbn [follower_id following_id] in Hnew, Ha, Hb.
  exists name, key. do 4 (split; [done|]).
  split; [|split; [|split]].
  - eexists. split; [|split].
    + unfold followingOf. apply orderByDesc_elem; [done|].
      apply list_elem_of_omap. exists f. split; [apply elem_of_app; right; by left|].
      rewrite Hf. cbn [follower_id following_id created_at].
      rewrite decide_True by done. unfold entryOf. by rewrite Hb.
    + done.
    + done.
  - eexists. split; [|split].
    + unfold followersOf. apply orderByDesc_elem; [done|].
      apply list_elem_of_omap. exists f. split; [apply elem_of_app; right; by left|].
      rewrite Hf. cbn [follower_id following_id created_at].
      rewrite decide_True by done. unfold entryOf. by rewrite Ha.
    + done.
    + done.
  - unfold followHandler. rewrite Hname, Hkey.
    rewrite decide_False by done.
    assert (Hdup : isFollowing (fs ++ [f]) (authPublicKey auth) key = true).
    { apply isFollowing_spec. rewrite fmap_app. apply elem_of_app. right.
      rewrite Hf. by left. }
    unfold insertFollow. cbn [follower_id following_id]. by rewrite Hdup.
  - unfold unfollowHandler. rewrite Hkey. f_equal.
    pose proof (deleteFollow_app fs f) as Hdel.
    rewrite Hf in Hdel at 2 3 4 5. cbn [follower_id following_id] in Hdel.
    rewrite Hdel. by apply deleteFollow_absent.
Qed.

End FollowTheorems.

(** ** handlers/warrens *)

Section WarrenFacts.
Import Http Store Auth Sql Api Lookup Warrens.

Lemma warren_isMember_spec (t : Tables) (w p : jsstring) :
  isMember t w p = true
  <-> exists m, m ∈ members t /\ warren_id m = w /\ member_id m = p.
Proof.
  unfold isMember. rewrite existsb_exists. split.
  - intros (m & Hin & Hm). apply bool_decide_eq_true in Hm.
    exists m. by rewrite list_elem_of_In.
  - intros (m & Hin & Hm). exists m. rewrite <- list_elem_of_In.
    by rewrite bool_decide_eq_true.
Qed.


Lemma warren_insertMember_Some (db : DB) (t t1 : Tables) (m : Member) :
  insertMember db t m = Some t1 <->
  isMember t (warren_id m) (member_id m) = false
  /\ is_Some (warrens t !! warren_id m)
  /\ is_Some (clawfiles db !! member_id m)
  /\ t1 = {| warrens := warrens t; members := members t ++ [m];
             messages := messages t |}.
Proof.
  unfold insertMember.
  destruct (isMember t _ _); cbn [orb]; [by split; [|intros [? _]]|].
  destruct (decide (is_Some (warrens t !! warren_id m))) as [Ha|Ha].
  2: { rewrite (bool_decide_eq_false_2 _ Ha). cbn. split; [done|tauto]. }
  rewrite (bool_decide_eq_true_2 _ Ha). cbn [negb orb].
  destruct (decide (is_Some (clawfiles db !! member_id m))) as [Hb|Hb].
  2: { rewrite (bool_decide_eq_false_2 _ Hb). cbn. split; [done|tauto]. }
  rewrite (bool_decide_eq_true_2 _ Hb). cbn [negb]. split.
  - by intros [= <-].
  - by intros (_ & _ & _ & ->).
Qed.



End WarrenFacts.

Section WarrenAccess.
Import Http Store Auth Sql Api Lookup Warrens.


End WarrenAccess.

Section WarrenDirectMessages.
Import Http Store Auth Sql Api Lookup Warrens.

Lemma existingDms_spec (t : Tables) (a b k : jsstring) :
  k ∈ existingDms t a b
  <-> exists w, warrens t !! k = Some w /\ type w = js "dm"
                /\ isMember t k a = true /\ isMember t k b = true.
Proof.
  unfold existingDms. rewrite list_elem_of_fmap. split.
  - intros ([k' w] & -> & Hin). apply list_elem_of_filter in Hin as [Hp Hin].
    apply elem_of_map_to_list in Hin. by exists w.
  - intros (w & Hw & Hp). exists (k, w). split; [done|].
    apply list_elem_of_filter. split; [done|]. by apply elem_of_map_to_list.
Qed.

Lemma existingDms_NoDup (t : Tables) (a b : jsstring) :
  NoDup (existingDms t a b).
Proof.
  unfold existingDms.
  eapply sublist_NoDup; [apply (NoDup_fst_map_to_list (warrens t))|].
  apply fmap_sublist, sublist_filter.
Qed.

(** A list without repetition whose only possible element is [x], and
    which holds [x], is [[x]]. *)
Lemma NoDup_only {A : Type} (l : list A) (x : A) :
  NoDup l -> x ∈ l -> (forall y, y ∈ l -> y = x) -> l = [x].
Proof.
  intros Hnd Hx Hall. apply Permutation_singleton_r, NoDup_Permutation.
  - done.
  - apply NoDup_singleton.
  - intros y. rewrite list_elem_of_singleton. split; [apply Hall|by intros ->].
Qed.

Lemma isMember_app (t : Tables) (ws : gmap jsstring Warren)
    (added : list Member) (ms : list Message) (k p : jsstring) :
  isMember {| warrens := ws; members := members t ++ added; messages := ms |}
    k p
  = isMember t k p
    || existsb (fun m => bool_decide (warren_id m = k /\ member_id m = p))
               added.
Proof. unfold isMember. cbn [members]. apply existsb_app. Qed.

Lemma added_elsewhere (added : list Member) (wid k p : jsstring) :
  Forall (fun m => warren_id m = wid) added -> k <> wid ->
  existsb (fun m => bool_decide (warren_id m = k /\ member_id m = p)) added
  = false.
Proof.
  intros Hall Hne. apply not_true_iff_false.
  intros (m & Hin & Hm)%existsb_exists.
  apply bool_decide_eq_true in Hm as [Hk _].
  rewrite <- list_elem_of_In in Hin.
  pose proof (proj1 (Forall_forall _ _) Hall m Hin). congruence.
Qed.

Lemma isMember_fresh (t : Tables) (wid p : jsstring) :
  grounded t -> warrens t !! wid = None -> isMember t wid p = false.
Proof.
  intros Hg Hfree. apply not_true_iff_false.
  intros (m & Hin & Hw & _)%warren_isMember_spec.
  apply Hg in Hin as [w Hw']. congruence.
Qed.

(** After a warren of type "dm" with the memberships [added] was
    created, it is the one direct-message warren of two of its members
    who had none before. *)
Lemma existingDms_created (t : Tables) (w : Warren) (wid : jsstring)
    (added : list Member) (a b : jsstring) :
  grounded t -> warrens t !! wid = None -> type w = js "dm" ->
  Forall (fun m => warren_id m = wid) added ->
  existingDms t a b = [] ->
  a ∈ member_id <$> added -> b ∈ member_id <$> added ->
  existingDms {| warrens := <[wid := w]> (warrens t);
                 members := members t ++ added;
                 messages := messages t |} a b = [wid].
Proof.
  intros Hg Hfree Hdm Hall Hnone Ha Hb.
  assert (Hin : forall p, p ∈ member_id <$> added ->
    existsb (fun m => bool_decide (warren_id m = wid /\ member_id m = p))
            added = true).
  { intros p (m & -> & Hm)%list_elem_of_fmap. apply existsb_exists.
    exists m. rewrite <- list_elem_of_In. split; [done|].
    apply bool_decide_eq_true. split; [|done].
    by apply (proj1 (Forall_forall _ _) Hall). }
  apply NoDup_only.
  - apply existingDms_NoDup.
  - apply existingDms_spec. exists w. cbn [warrens].
    rewrite lookup_insert_eq, !isMember_app, !Hin by done.
    by rewrite !orb_true_r.
  - intros k (w' & Hw' & Hdm' & Hka & Hkb)%existingDms_spec.
    cbn [warrens] in Hw'. destruct (decide (k = wid)) as [->|Hne]; [done|].
    rewrite lookup_insert_ne in Hw' by done.
    rewrite isMember_app, (added_elsewhere added wid), orb_false_r
      in Hka, Hkb by done.
    assert (Hk : k ∈ existingDms t a b)
      by (apply existingDms_spec; by exists w').
    rewrite Hnone in Hk. by apply elem_of_nil in Hk.
Qed.

End WarrenDirectMessages.

Section WarrenDmTheorems.
Import Http Store Auth Sql Api Lookup Warrens.

Lemma dm_request_unfold {G : Engine} (db : DB) (t : Tables)
    (auth : AuthContext) (nowMs : Z) (warrenId mention : jsstring)
    (b : CreateBody) :
  truthy (body_type b) = Some (js "dm") ->
  body_members b = Some [mention] ->
  createHandler db t auth nowMs warrenId b
  = match dmCheck db t auth mention with
    | Some answer => (answer, t)
    | None =>
        match insertWarren db t warrenId
                {| type := js "dm"; name := truthy (body_name b);
                   avatar_url := None;
                   creator_id := Some (authPublicKey auth);
                   is_encrypted := true;
                   created_at := nowMs; updated_at := nowMs |} with
        | None => (internalError, t)
        | Some t1 =>
            match insertMember db t1
                    {| warren_id := warrenId;
                       member_id := authPublicKey auth;
                       public_key := None; joined_at := nowMs;
                       last_read_at := None |} with
            | None => (internalError, t1)
            | Some t2 =>
                match addMembers db t2 warrenId nowMs [mention] with
                | (t3, false) => (internalError, t3)
                | (t3, true) =>
                    (Answered 201
                       (Created warrenId (js "dm") (body_name b) nowMs), t3)
                end
            end
        end
    end.
Proof. intros Hty Hms. unfold createHandler. by rewrite Hty, Hms. Qed.

(** A direct message that is created (201) has exactly two members, the
    caller and the identity the mention resolves to, who is not the
    caller; and the same request again, under any new id, is answered
    409 with the id of that warren and changes nothing. *)
Theorem dm_created_once (G : Engine) (db : DB) (t : Tables)
    (auth : AuthContext) (nowMs laterMs : Z)
    (warrenId otherId mention : jsstring) (b : CreateBody) (p : Payload) :
  EngineSound G -> grounded t ->
  truthy (body_type b) = Some (js "dm") ->
  body_members b = Some [mention] ->
  (createHandler db t auth nowMs warrenId b).1 = Answered 201 p ->
  let t1 := (createHandler db t auth nowMs warrenId b).2 in
  exists target,
    findClawfile db mention = Some target
    /\ target <> authPublicKey auth
    /\ warrens t !! warrenId = None
    /\ type <$> warrens t1 !! warrenId = Some (js "dm")
    /\ membersOf t1 warrenId = [authPublicKey auth; target]
    /\ createHandler db t1 auth laterMs otherId b
       = (Answered 409
            (DmExists (js "conflict") (js "DM already exists") warrenId),
          t1).
Proof.
  intros HG Hg Hty Hms. cbn zeta.
  rewrite (dm_request_unfold db t auth nowMs warrenId mention b Hty Hms).
  unfold dmCheck.
  destruct (findClawfile db mention) as [target|] eqn:Htarget; [|done].
  destruct (firstRow (existingDms t (authPublicKey auth) target))
    as [old|] eqn:Hold; [done|].
  apply firstRow_None in Hold; [|done].
  set (w := {| type := js "dm"; name := truthy (body_name b);
               avatar_url := None; creator_id := Some (authPublicKey auth);
               is_encrypted := true; created_at := nowMs;
               updated_at := nowMs |}).
  unfold insertWarren.
  destruct (bool_decide (is_Some (warrens t !! warrenId))) eqn:Hfree; [done|].
  apply bool_decide_eq_false in Hfree.
  assert (Hnone : warrens t !! warrenId = None).
  { destruct (warrens t !! warrenId); [|done]. destruct Hfree. by eexists. }
  cbn [orb]. destruct (_ || _); [done|].
  set (me := {| warren_id := warrenId; member_id := authPublicKey auth;
                public_key := None; joined_at := nowMs;
                last_read_at := None |}).
  destruct (insertMember db _ me) as [t2|] eqn:Hme; [|done].
  apply warren_insertMember_Some in Hme as (_ & _ & _ & ->).
  cbn [warrens members messages addMembers]. rewrite Htarget.
  set (you := {| warren_id := warrenId; member_id := target;
                 public_key := None; joined_at := nowMs;
                 last_read_at := None |}).
  destruct (insertMember db _ you) as [t3|] eqn:Hyou; [|done].
  apply warren_insertMember_Some in Hyou as (Hnew & _ & _ & ->).
  cbn [warrens members messages fst snd warren_id member_id] in *.
  intros _. exists target. split; [done|].
  assert (Hne : target <> authPublicKey auth).
  { intros ->. apply not_true_iff_false in Hnew. apply Hnew.
    apply warren_isMember_spec. exists me. split; [|done].
    cbn [members]. apply elem_of_app. right. by left. }
  split; [done|]. split; [done|].
  split; [by rewrite lookup_insert_eq|]. split.
  - unfold membersOf. cbn [members]. rewrite !filter_app.
    assert (Hold' : filter (fun m => warren_id m = warrenId) (members t) = []).
    { destruct (filter _ (members t)) as [|m l] eqn:Hf; [done|].
      assert (Hin : m ∈ filter (fun m => warren_id m = warrenId) (members t))
        by (rewrite Hf; by left).
      apply list_elem_of_filter in Hin as [Hw Hin].
      apply Hg in Hin as [w' Hw']. congruence. }
    rewrite Hold'. cbn [app]. rewrite !filter_cons, !filter_nil.
    by rewrite !decide_True.
  - rewrite (dm_request_unfold db _ auth laterMs otherId mention b Hty Hms).
    unfold dmCheck. rewrite Htarget. rewrite <- app_assoc. cbn [app].
    rewrite (existingDms_created t w warrenId [me; you]); try done.
    + by rewrite firstRow_singleton.
    + by repeat constructor.
    + cbn. by left.
    + cbn. right. by left.
Qed.


End WarrenDmTheorems.

(** ** Pages of a listing *)

Section PageFacts.
Import Sql Api.

Lemma descending_take {A : Type} (key : A -> Z) (l : list A) (k : nat) :
  descending key l -> descending key (take k l).
Proof.
  intros Hd i j a b Hij Ha Hb.
  apply lookup_take_Some in Ha as [Ha _]. apply lookup_take_Some in Hb as [Hb _].
  by apply (Hd i j a b).
Qed.

Lemma descending_split {A : Type} (key : A -> Z) (l : list A) (k : nat)
    (y z : A) :
  descending key l -> y ∈ take k l -> z ∈ drop k l -> (key z <= key y)%Z.
Proof.
  intros Hd [i Hi]%list_elem_of_lookup [j Hj]%list_elem_of_lookup.
  apply lookup_take_Some in Hi as [Hi Hlt]. rewrite lookup_drop in Hj.
  apply (Hd i (k + j)%nat y z); [lia|done..].
Qed.

(** The page of a listing for a limit that is not negative: the [limit]
    first rows of the sorted result, and [has_more] exactly when rows
    are left. *)
Lemma page_of_sorted {G : Engine} {A : Type} (key : A -> Z) (all : list A)
    (n : Z) :
  (0 <= n)%Z ->
  let results := limit (n + 1) (orderByDesc key all) in
  slice0 n results = take (Z.to_nat n) (orderByDesc key all)
  /\ ((n <? Z.of_nat (length results))%Z
      = negb (Nat.eqb (length (drop (Z.to_nat n) (orderByDesc key all))) 0)).
Proof.
  intros Hn. cbn zeta. unfold limit, slice0.
  destruct (Z.ltb_spec (n + 1) 0); [lia|].
  destruct (Z.ltb_spec n 0); [lia|].
  set (sorted := orderByDesc key all). split.
  - rewrite take_take. f_equal. lia.
  - rewrite length_take, length_drop.
    destruct (Z.ltb_spec n (Z.of_nat (Z.to_nat (n + 1) `min` length sorted)));
      destruct (Nat.eqb_spec (length sorted - Z.to_nat n) 0); cbn; lia.
Qed.

Lemma last_take_drop {A : Type} (l : list A) (k : nat) :
  (0 < k)%nat -> drop k l <> [] -> is_Some (last (take k l)).
Proof.
  intros Hk Hd. apply last_is_Some. intros Ht.
  apply take_nil_inv in Ht as [Ht|Ht]; subst; [lia|]. by destruct k.
Qed.

Lemma elem_of_take_full {A : Type} (l : list A) (k : nat) (x : A) :
  x ∈ take k l -> x ∈ l.
Proof.
  intros [i Hi]%list_elem_of_lookup. apply lookup_take_Some in Hi as [Hi _].
  by eapply list_elem_of_lookup_2.
Qed.

Lemma elem_of_rev {A : Type} (l : list A) (x : A) : x ∈ rev l <-> x ∈ l.
Proof. rewrite !list_elem_of_In. symmetry. apply in_rev. Qed.

End PageFacts.

(** ** The text of an instant *)

Section IsoFacts.
Import Sql Iso.

Example toISOString_examples :
  toISOString 0 = js "1970-01-01T00:00:00.000Z"
  /\ toISOString Demo.demoInstant = js "2026-11-02T00:00:00.000Z"
  /\ toISOString 951868799999 = js "2000-02-29T23:59:59.999Z"
  /\ toISOString 4107542400000 = js "2100-03-01T00:00:00.000Z"
  /\ toISOString (-1) = js "1969-12-31T23:59:59.999Z"
  /\ toISOString 253402300800000 = js "+010000-01-01T00:00:00.000Z"
  /\ toISOString (-62167219200001) = js "-000001-12-31T23:59:59.999Z"
  /\ toISOString 8640000000000000 = js "+275760-09-13T00:00:00.000Z"
  /\ textLess (toISOString Demo.demoInstant) (js "2026-11-02T00:00:00Z")
     = true
  /\ textLess (js "2026-11-02") (js "2026-11-02T") = true
  /\ textLess [0xE000] [0xD83D; 0xDE00] = true.
Proof. vm_compute. repeat split. Qed.

Lemma to_N_byteOf (c : N) : c < 256 -> Byte.to_N (byteOf c) = c.
Proof.
  intros Hc. unfold byteOf. rewrite N.mod_small by done.
  destruct (Byte.of_N c) as [b|] eqn:Hb.
  - by apply Byte.to_of_N.
  - apply Byte.of_N_None_iff in Hb. lia.
Qed.

Lemma textLess_cons_ascii (c c' : N) (s t : jsstring) :
  c < 128 -> c' < 128 ->
  textLess (c :: s) (c' :: t)
  = (c <? c') || ((c =? c') && textLess s t).
Proof.
  intros Hc Hc'. unfold textLess. cbn [textEncode].
  assert (Hplain : forall x, x < 128 ->
            isHighSurrogate x = false /\ isLowSurrogate x = false
            /\ utf8CodePoint x = [byteOf x]).
  { intros x Hx. unfold isHighSurrogate, isLowSurrogate, utf8CodePoint.
    destruct (N.leb_spec 0xD800 x); [lia|].
    destruct (N.leb_spec 0xDC00 x); [lia|].
    destruct (N.ltb_spec x 0x80); [done|lia]. }
  destruct (Hplain c Hc) as (-> & -> & ->).
  destruct (Hplain c' Hc') as (-> & -> & ->).
  cbn [app bytesLess]. rewrite !to_N_byteOf by lia. done.
Qed.

Lemma textLess_same_ascii (c : N) (s t : jsstring) :
  c < 128 -> textLess (c :: s) (c :: t) = textLess s t.
Proof.
  intros Hc. rewrite textLess_cons_ascii by done.
  by rewrite N.ltb_irrefl, N.eqb_refl.
Qed.

Lemma textLess_digits (w : nat) (n m : Z) (s t : jsstring) :
  (0 <= n < 10 ^ Z.of_nat w)%Z -> (0 <= m < 10 ^ Z.of_nat w)%Z ->
  textLess (digits w n ++ s) (digits w m ++ t)
  = (n <? m)%Z || ((n =? m)%Z && textLess s t).
Proof.
  revert n m s t. induction w as [|w IH]; intros n m s t Hn Hm.
  - cbn in Hn, Hm. assert (n = 0%Z) as -> by lia. assert (m = 0%Z) as -> by lia.
    done.
  - rewrite Nat2Z.inj_succ, Z.pow_succ_r in Hn, Hm by lia.
    cbn [digits]. rewrite <- !app_assoc. cbn [app].
    rewrite IH by (split; [apply Z.div_pos; lia|apply Z.div_lt_upper_bound; lia]).
    rewrite textLess_cons_ascii by (pose proof (Z.mod_pos_bound n 10);
                                      pose proof (Z.mod_pos_bound m 10); lia).
    pose proof (Z.mod_pos_bound n 10 ltac:(lia)) as Hrn.
    pose proof (Z.mod_pos_bound m 10 ltac:(lia)) as Hrm.
    pose proof (Z.div_mod n 10 ltac:(lia)) as Hdn.
    pose proof (Z.div_mod m 10 ltac:(lia)) as Hdm.
    destruct (textLess s t);
      destruct (Z.ltb_spec (n / 10) (m / 10)); destruct (Z.eqb_spec (n / 10) (m / 10));
      destruct (N.ltb_spec (48 + Z.to_N (n mod 10)) (48 + Z.to_N (m mod 10)));
      destruct (N.eqb_spec (48 + Z.to_N (n mod 10)) (48 + Z.to_N (m mod 10)));
      destruct (Z.ltb_spec n m); destruct (Z.eqb_spec n m); cbn; try done; lia.
Qed.

(** The days of one cycle of 400 years, from 0000-03-01 on, checked one
    by one. *)
Lemma cycle_walked :
  Pos.iter walk (true, (-719468)%Z) 146097 = (true, (-719468 + 146097)%Z).
Proof. vm_compute. reflexivity. Qed.

Lemma cycle_checked (day : Z) :
  (-719468 <= day < -719468 + 146097)%Z -> dayChecked day = true.
Proof.
  intros Hday.
  assert (Hinv : forall p st,
    (st.1 = true -> forall z, (-719468 <= z < st.2)%Z -> dayChecked z = true) ->
    (Pos.iter walk st p).1 = true ->
    forall z, (-719468 <= z < (Pos.iter walk st p).2)%Z -> dayChecked z = true).
  { intros p st Hst.
    apply (Pos.iter_invariant p (bool * Z) walk
             (fun s => s.1 = true ->
                       forall z, (-719468 <= z < s.2)%Z -> dayChecked z = true));
      [|done].
    intros [b x] Hx. unfold walk. cbn [fst snd] in *.
    intros [Hb Hc]%andb_true_iff z Hz.
    destruct (decide (z = x)) as [->|Hne]; [done|]. apply Hx; [done|lia]. }
  apply (Hinv 146097%positive (true, (-719468)%Z)).
  - cbn [fst snd]. intros _ z Hz. lia.
  - by rewrite cycle_walked.
  - rewrite cycle_walked. cbn [snd]. lia.
Qed.

(** The calendar repeats every 146097 days, 400 years later. *)
Lemma civil_shift (day e : Z) :
  civil (day + 146097 * e)
  = let '(y, m, d) := civil day in ((y + 400 * e)%Z, m, d).
Proof.
  unfold civil.
  replace (day + 146097 * e + 719468)%Z with (day + 719468 + e * 146097)%Z
    by lia.
  rewrite Z.div_add, Z.mod_add by lia.
  set (doe := ((day + 719468) mod 146097)%Z).
  set (yoe := ((doe - doe / 1460 + doe / 36524 - doe / 146096) / 365)%Z).
  set (doy := (doe - (365 * yoe + yoe / 4 - yoe / 100))%Z).
  set (mp := ((5 * doy + 2) / 153)%Z).
  cbn zeta. f_equal. f_equal. lia.
Qed.

Lemma day_checked (day : Z) : dayChecked day = true.
Proof.
  set (e := ((day + 719468) / 146097)%Z).
  set (d0 := (day - 146097 * e)%Z).
  assert (Hd0 : (-719468 <= d0 < -719468 + 146097)%Z).
  { pose proof (Z.mod_pos_bound (day + 719468) 146097 ltac:(lia)).
    pose proof (Z.div_mod (day + 719468) 146097 ltac:(lia)).
    unfold d0, e. lia. }
  pose proof (cycle_checked d0 Hd0) as Hc.
  replace day with (d0 + 146097 * e)%Z by (unfold d0; lia).
  unfold dayChecked, dateKey in *.
  replace (d0 + 146097 * e + 1)%Z with (d0 + 1 + 146097 * e)%Z by lia.
  rewrite !civil_shift.
  destruct (civil d0) as [[y m] d]. destruct (civil (d0 + 1)) as [[y' m'] d'].
  repeat (apply andb_true_iff in Hc as [Hc ?]).
  repeat (apply andb_true_iff; split); try done. lia.
Qed.

Lemma civil_ranges (day : Z) :
  let '(_, m, d) := civil day in (1 <= m <= 12 /\ 1 <= d <= 31)%Z.
Proof.
  pose proof (day_checked day) as Hc. unfold dayChecked in Hc.
  destruct (civil day) as [[y m] d].
  repeat (apply andb_true_iff in Hc as [Hc ?]). lia.
Qed.

Lemma dateKey_succ (day : Z) : (dateKey day < dateKey (day + 1))%Z.
Proof.
  pose proof (day_checked day) as Hc. unfold dayChecked in Hc.
  destruct (civil day) as [[y m] d].
  apply andb_true_iff in Hc as [_ Hc]. lia.
Qed.

Lemma dateKey_mono (a b : Z) : (a < b)%Z -> (dateKey a < dateKey b)%Z.
Proof.
  intros Hab. replace b with (a + 1 + Z.of_nat (Z.to_nat (b - a - 1)))%Z by lia.
  induction (Z.to_nat (b - a - 1)) as [|k IH].
  - rewrite Z.add_0_r. apply dateKey_succ.
  - rewrite Nat2Z.inj_succ.
    pose proof (dateKey_succ (a + 1 + Z.of_nat k)).
    replace (a + 1 + Z.succ (Z.of_nat k))%Z with (a + 1 + Z.of_nat k + 1)%Z
      by lia. lia.
Qed.

Lemma timeKey_mono (s t : Z) :
  (0 <= s < t)%Z -> (t < 86400000)%Z -> (timeKey s < timeKey t)%Z.
Proof. intros Hs Ht. unfold timeKey. ndiv. Qed.

Lemma timeKey_range (t : Z) :
  (0 <= t < 86400000)%Z -> (0 <= timeKey t < 1000000000)%Z.
Proof. intros Ht. unfold timeKey. ndiv. Qed.

Lemma stamp_mono (a b : Z) : (a < b)%Z -> (stamp a < stamp b)%Z.
Proof.
  intros Hab. unfold stamp.
  pose proof (Z.mod_pos_bound a 86400000 ltac:(lia)) as Ha.
  pose proof (Z.mod_pos_bound b 86400000 ltac:(lia)) as Hb.
  pose proof (Z.div_mod a 86400000 ltac:(lia)) as Hda.
  pose proof (Z.div_mod b 86400000 ltac:(lia)) as Hdb.
  pose proof (timeKey_range _ Ha). pose proof (timeKey_range _ Hb).
  destruct (decide (a / 86400000 = b / 86400000)%Z) as [Heq|Hne].
  - rewrite Heq. pose proof (timeKey_mono (a mod 86400000) (b mod 86400000)).
    lia.
  - pose proof (dateKey_mono (a / 86400000) (b / 86400000)). lia.
Qed.

Lemma fourDigitYear_civil (ms : Z) :
  fourDigitYear ms ->
  let '(y, _, _) := civil (ms / 86400000) in (0 <= y <= 9999)%Z.
Proof.
  intros [Hlo Hhi].
  assert (Hd : (-719528 <= ms / 86400000 <= 2932896)%Z) by ndiv.
  pose proof (civil_ranges (ms / 86400000)) as Hr.
  assert (Hk : (dateKey (-719528) <= dateKey (ms / 86400000)
                <= dateKey 2932896)%Z).
  { split.
    - destruct (decide (ms / 86400000 = -719528)%Z) as [->|?]; [done|].
      apply Z.lt_le_incl, dateKey_mono. lia.
    - destruct (decide (ms / 86400000 = 2932896)%Z) as [->|?]; [done|].
      apply Z.lt_le_incl, dateKey_mono. lia. }
  change (dateKey (-719528)) with 101%Z in Hk.
  change (dateKey 2932896) with 99991231%Z in Hk.
  unfold dateKey in Hk. destruct (civil (ms / 86400000)) as [[y m] d]. lia.
Qed.

(** Between two instants with four-digit years the texts compare as the
    numbers their digits spell. *)
Lemma toISOString_stamp (a b : Z) :
  fourDigitYear a -> fourDigitYear b ->
  textLess (toISOString a) (toISOString b) = (stamp a <? stamp b)%Z.
Proof.
  intros Ha Hb.
  pose proof (fourDigitYear_civil a Ha) as Hya.
  pose proof (fourDigitYear_civil b Hb) as Hyb.
  pose proof (civil_ranges (a / 86400000)) as Hra.
  pose proof (civil_ranges (b / 86400000)) as Hrb.
  unfold toISOString, stamp, dateKey, timeKey.
  destruct (civil (a / 86400000)) as [[ya ma] da].
  destruct (civil (b / 86400000)) as [[yb mb] db].
  pose proof (Z.mod_pos_bound a 86400000 ltac:(lia)) as Hta.
  pose proof (Z.mod_pos_bound b 86400000 ltac:(lia)) as Htb.
  set (ta := (a mod 86400000)%Z) in *. set (tb := (b mod 86400000)%Z) in *.
  assert (Hfa : (0 <= ta / 3600000 < 24 /\ 0 <= ta / 60000 mod 60 < 60
                 /\ 0 <= ta / 1000 mod 60 < 60 /\ 0 <= ta mod 1000 < 1000)%Z)
    by ndiv.
  assert (Hfb : (0 <= tb / 3600000 < 24 /\ 0 <= tb / 60000 mod 60 < 60
                 /\ 0 <= tb / 1000 mod 60 < 60 /\ 0 <= tb mod 1000 < 1000)%Z)
    by ndiv.
  set (ha := (ta / 3600000)%Z) in *. set (hb := (tb / 3600000)%Z) in *.
  set (ia := (ta / 60000 mod 60)%Z) in *. set (ib := (tb / 60000 mod 60)%Z) in *.
  set (sa := (ta / 1000 mod 60)%Z) in *. set (sb := (tb / 1000 mod 60)%Z) in *.
  set (fa := (ta mod 1000)%Z) in *. set (fb := (tb mod 1000)%Z) in *.
  clearbody ha hb ia ib sa sb fa fb. clear Hta Htb. clearbody ta tb.
  unfold yearText.
  replace ((0 <=? ya)%Z && (ya <=? 9999)%Z) with true
    by (symmetry; apply andb_true_iff; split; apply Z.leb_le; lia).
  replace ((0 <=? yb)%Z && (yb <=? 9999)%Z) with true
    by (symmetry; apply andb_true_iff; split; apply Z.leb_le; lia).
  change (js "-") with [45]. change (js "T") with [84].
  change (js ":") with [58]. change (js ".") with [46].
  change (js "Z") with [90]. cbn [app].
  rewrite (textLess_digits 4) by (cbn; lia).
  rewrite textLess_same_ascii by lia.
  rewrite (textLess_digits 2) by (cbn; lia).
  rewrite textLess_same_ascii by lia.
  rewrite (textLess_digits 2) by (cbn; lia).
  rewrite textLess_same_ascii by lia.
  rewrite (textLess_digits 2) by (cbn; lia).
  rewrite textLess_same_ascii by lia.
  rewrite (textLess_digits 2) by (cbn; lia).
  rewrite textLess_same_ascii by lia.
  rewrite (textLess_digits 2) by (cbn; lia).
  rewrite textLess_same_ascii by lia.
  rewrite (textLess_digits 3) by (cbn; lia).
  change (textLess [90] [90]) with false.
  apply Bool.eq_iff_eq_true.
  rewrite !orb_true_iff, !andb_true_iff, !Z.ltb_lt, !Z.eqb_eq. lia.
Qed.

(** Between two instants with four-digit years the texts that
    [toISOString] writes compare as the instants do. *)
Lemma toISOString_order (a b : Z) :
  fourDigitYear a -> fourDigitYear b ->
  textLess (toISOString a) (toISOString b) = (a <? b)%Z.
Proof.
  intros Ha Hb. rewrite toISOString_stamp by done.
  destruct (Z.ltb_spec a b) as [Hlt|Hge].
  - apply Z.ltb_lt. by apply stamp_mono.
  - apply Z.ltb_ge. destruct (decide (a = b)) as [->|Hne]; [lia|].
    apply Z.lt_le_incl, stamp_mono. lia.
Qed.

Lemma toISOString_not_empty (ms : Z) : toISOString ms <> [].
Proof.
  unfold toISOString. destruct (civil _) as [[y m] d].
  intros H. apply (f_equal length) in H.
  rewrite !length_app in H. cbn in H. lia.
Qed.

End IsoFacts.


(** ** handlers/clawfiles: the directory *)

Section DirectoryFacts.
Import Http Store Auth Sql Api Iso Directory.

Lemma activeCards_spec (db : DB) (cursor : option Z) (c : Card) :
  c ∈ activeCards db cursor
  <-> exists row,
        Store.clawfiles db !! public_key c = Some row
        /\ Store.status row = js "active"
        /\ olderThan cursor (Store.created_at row) = true
        /\ c = {| public_key := public_key c;
                  mention_name := Store.mention_name row;
                  display_name := Store.display_name row;
                  verification_tier := Store.verification_tier row;
                  status := Store.status row;
                  created_at := Store.created_at row |}.
Proof.
  unfold activeCards. rewrite list_elem_of_omap. split.
  - intros ([k row] & Hin & Hc). apply elem_of_map_to_list in Hin.
    cbn [fst snd] in Hc.
    destruct (bool_decide _) eqn:Hs; cbn [andb] in Hc; [|done].
    destruct (olderThan _ _) eqn:Ho; [|done].
    apply bool_decide_eq_true in Hs. injection Hc as <-. by exists row.
  - intros (row & Hrow & Hs & Ho & Hc). exists (public_key c, row).
    split; [by apply elem_of_map_to_list|]. cbn [fst snd].
    by rewrite (bool_decide_eq_true_2 _ Hs), Ho, Hc.
Qed.

(** The answer of the directory for a limit that is not negative, in
    terms of the sorted rows. *)
Lemma listHandler_sorted {G : Engine} (db : DB) (limit : Z)
    (cursor : option Z) :
  (0 <= limit)%Z ->
  let sorted := orderByDesc created_at (activeCards db cursor) in
  listHandler db limit cursor
  = Answered 200
      {| clawfiles := take (Z.to_nat limit) sorted;
         has_more := negb (Nat.eqb (length (drop (Z.to_nat limit) sorted)) 0);
         next_cursor :=
           if negb (Nat.eqb (length (drop (Z.to_nat limit) sorted)) 0)
           then created_at <$> last (take (Z.to_nat limit) sorted)
           else None |}.
Proof.
  intros Hn. cbn zeta.
  pose proof (page_of_sorted created_at (activeCards db cursor) limit Hn)
    as [Hslice Hmore]. cbn zeta in Hslice, Hmore.
  unfold listHandler. by rewrite Hslice, Hmore.
Qed.

Lemma cardsBefore_spec (db : DB) (cursor : option jsstring) (c : Card) :
  c ∈ cardsBefore db cursor
  <-> exists row,
        Store.clawfiles db !! public_key c = Some row
        /\ Store.status row = js "active"
        /\ sortsBefore cursor (Store.created_at row) = true
        /\ c = {| public_key := public_key c;
                  mention_name := Store.mention_name row;
                  display_name := Store.display_name row;
                  verification_tier := Store.verification_tier row;
                  status := Store.status row;
                  created_at := Store.created_at row |}.
Proof.
  unfold cardsBefore. rewrite list_elem_of_omap. split.
  - intros ([k row] & Hin & Hc). apply elem_of_map_to_list in Hin.
    cbn [fst snd] in Hc.
    destruct (bool_decide _) eqn:Hs; cbn [andb] in Hc; [|done].
    destruct (sortsBefore _ _) eqn:Ho; [|done].
    apply bool_decide_eq_true in Hs. injection Hc as <-. by exists row.
  - intros (row & Hrow & Hs & Ho & Hc). exists (public_key c, row).
    split; [by apply elem_of_map_to_list|]. cbn [fst snd].
    by rewrite (bool_decide_eq_true_2 _ Hs), Ho, Hc.
Qed.

(** The answer of the route for a limit that is not negative, in terms
    of the sorted rows. *)
Lemma listRoute_sorted {G : Engine} (db : DB) (limit : Z)
    (cursor : option jsstring) :
  (0 <= limit)%Z ->
  let sorted := orderByDesc created_at (cardsBefore db cursor) in
  listRoute db limit cursor
  = Answered 200
      {| clawfiles := take (Z.to_nat limit) sorted;
         has_more := negb (Nat.eqb (length (drop (Z.to_nat limit) sorted)) 0);
         next_cursor :=
           if negb (Nat.eqb (length (drop (Z.to_nat limit) sorted)) 0)
           then created_at <$> last (take (Z.to_nat limit) sorted)
           else None |}.
Proof.
  intros Hn. cbn zeta.
  pose proof (page_of_sorted created_at (cardsBefore db cursor) limit Hn)
    as [Hslice Hmore]. cbn zeta in Hslice, Hmore.
  unfold listRoute. by rewrite Hslice, Hmore.
Qed.

Lemma omap_ext_in {A B : Type} (f g : A -> option B) (l : list A) :
  (forall x, x ∈ l -> f x = g x) -> omap f l = omap g l.
Proof.
  induction l as [|a l IH]; intros H; [done|]. cbn.
  rewrite (H a) by by left. rewrite IH; [done|].
  intros x Hx. apply H. by right.
Qed.

(** At a cursor that a page handed out, the text of an instant, the
    route is [listHandler] at that instant, for a store and a cursor
    with four-digit years. *)
Lemma listRoute_handed_out {G : Engine} (db : DB) (limit c : Z) :
  fourDigitYear c ->
  (forall key row, Store.clawfiles db !! key = Some row ->
                   fourDigitYear (Store.created_at row)) ->
  listRoute db limit (Some (toISOString c)) = listHandler db limit (Some c).
Proof.
  intros Hc Hdb.
  assert (Hcards : cardsBefore db (Some (toISOString c))
                   = activeCards db (Some c)).
  { unfold cardsBefore, activeCards. apply omap_ext_in.
    intros [key row] Hin%elem_of_map_to_list. cbn [fst snd].
    unfold sortsBefore, olderThan.
    assert (Ht : truthy (Some (toISOString c)) = Some (toISOString c)).
    { pose proof (toISOString_not_empty c).
      by destruct (toISOString c). }
    rewrite Ht, toISOString_order by eauto. done. }
  unfold listRoute, listHandler. by rewrite Hcards.
Qed.

End DirectoryFacts.

Section DirectoryTheorems.
Import Http Store Auth Sql Api Directory.

(** A page of the directory, for a limit that is not negative and
    every cursor text: at most [limit] identities, all of them active
    and, when a cursor is given, with a [created_at] text that sorts
    before the cursor; newest first and no older than any such identity
    left out; [has_more] is set exactly when identities are left out,
    and [next_cursor] is then the creation time of the last one
    listed. *)
Theorem directory_page (G : Engine) (db : DB) (limit : Z)
    (cursor : option jsstring) :
  EngineSound G -> (0 <= limit)%Z ->
  exists page rest,
    listRoute db limit cursor = Answered 200 page
    /\ cardsBefore db cursor ≡ₚ clawfiles page ++ rest
    /\ (length (clawfiles page) <= Z.to_nat limit)%nat
    /\ descending created_at (clawfiles page)
    /\ (forall y z, y ∈ clawfiles page -> z ∈ rest ->
          (created_at z <= created_at y)%Z)
    /\ (has_more page = true <-> rest <> [])
    /\ next_cursor page
       = (if has_more page then created_at <$> last (clawfiles page)
          else None)
    /\ Forall (fun c =>
         exists row,
           Store.clawfiles db !! public_key c = Some row
           /\ Store.status row = js "active"
           /\ (forall text, truthy cursor = Some text ->
                 textLess (Iso.toISOString (created_at c)) text = true)
           /\ mention_name c = Store.mention_name row
           /\ created_at c = Store.created_at row) (clawfiles page)
    /\ (cursor = None ->
        listRoute db limit cursor = listHandler db limit None).
Proof.
  intros HG Hn.
  pose proof (listRoute_sorted db limit cursor Hn) as Hrun. cbn zeta in Hrun.
  destruct HG as [_ Hord].
  destruct (Hord Card created_at (cardsBefore db cursor)) as [Hperm Hdesc].
  set (sorted := orderByDesc created_at (cardsBefore db cursor)) in *.
  eexists _, (drop (Z.to_nat limit) sorted).
  split; [exact Hrun|].
  cbn [clawfiles has_more next_cursor].
  split; [by rewrite take_drop|].
  split; [rewrite length_take; lia|].
  split; [by apply descending_take|].
  split; [intros y z; by apply descending_split|].
  split.
  { destruct (drop (Z.to_nat limit) sorted); cbn; [by split|by split]. }
  split; [done|]. split.
  - apply Forall_forall. intros c Hc.
    assert (Hin : c ∈ cardsBefore db cursor).
    { rewrite <- Hperm. by eapply elem_of_take_full. }
    apply cardsBefore_spec in Hin as (row & Hrow & Hs & Ho & Heq).
    exists row. rewrite Heq. cbn. split; [done|]. split; [done|].
    split; [|done]. intros text Ht. unfold sortsBefore in Ho.
    by rewrite Ht in Ho.
  - intros ->. reflexivity.
Qed.

(** A cursor written without milliseconds sorts after the text of its
    own instant: the identity created at that instant is listed, where
    the cursor that a page hands out for it passes it over. *)
Example directory_cursor_without_milliseconds :
  listRoute (G := scanEngine) Samples.twoDb 1
    (Some (js "2026-11-02T00:00:00Z"))
  = Answered 200 Samples.firstPage
  /\ public_key
       <$> cardsBefore Samples.twoDb (Some (Iso.toISOString Demo.demoInstant))
     = [Demo.demoPublicKey].
Proof. split; vm_compute; reflexivity. Qed.

(** Following [next_cursor]: the rows of the next page are the active
    identities created strictly before the last one listed.  So no
    identity of the page is listed again, and an identity left out of
    the page is reached by the cursor exactly when its creation time
    differs from the cursor: identities that share the creation time of
    the last one listed are passed over. *)
Theorem directory_cursor (G : Engine) (db : DB) (limit : Z)
    (cursor : option Z) (page : Page) (c : Z) :
  EngineSound G -> (0 <= limit)%Z ->
  listHandler db limit cursor = Answered 200 page ->
  next_cursor page = Some c ->
  (forall card, card ∈ activeCards db (Some c)
                <-> card ∈ activeCards db cursor /\ (created_at card < c)%Z)
  /\ (forall card, card ∈ clawfiles page -> card ∉ activeCards db (Some c))
  /\ (forall card, card ∈ activeCards db cursor -> card ∉ clawfiles page ->
        (card ∈ activeCards db (Some c) <-> created_at card <> c)).
Proof.
  intros HG Hn Hrun Hc. rewrite listHandler_sorted in Hrun by done.
  destruct (proj2 HG Card created_at (activeCards db cursor))
    as [Hperm Hdesc].
  set (sorted := orderByDesc created_at (activeCards db cursor)) in *.
  injection Hrun as <-. cbn [clawfiles next_cursor] in *.
  destruct (negb _); [|done].
  apply fmap_Some in Hc as (lastc & Hlast & ->).
  set (shown := take (Z.to_nat limit) sorted) in *.
  set (rest := drop (Z.to_nat limit) sorted) in *.
  assert (Hlastin : lastc ∈ shown).
  { apply last_Some in Hlast as [l' ->]. apply elem_of_app. right. by left. }
  assert (Hmin : forall y, y ∈ shown -> (created_at lastc <= created_at y)%Z).
  { intros y Hy.
    pose proof (descending_take created_at sorted (Z.to_nat limit) Hdesc)
      as Hd. fold shown in Hd.
    apply last_Some in Hlast as [l' Hl'].
    apply list_elem_of_lookup in Hy as [i Hi].
    destruct (decide (i = length l')) as [->|Hne].
    - rewrite Hl', lookup_app_r, Nat.sub_diag in Hi by lia.
      injection Hi as <-. lia.
    - apply (Hd i (length l') y lastc).
      + apply lookup_lt_Some in Hi. rewrite Hl', length_app in Hi.
        cbn in Hi. lia.
      + done.
      + rewrite Hl', lookup_app_r, Nat.sub_diag by lia. done. }
  assert (Hsplit : forall y z, y ∈ shown -> z ∈ rest ->
                               (created_at z <= created_at y)%Z).
  { intros y z. by apply descending_split. }
  assert (Hall : forall card, card ∈ shown -> card ∈ activeCards db cursor).
  { intros card Hin. rewrite <- Hperm. by eapply elem_of_take_full. }
  assert (Hlastold : olderThan cursor (created_at lastc) = true).
  { pose proof (Hall lastc Hlastin) as Hin.
    apply activeCards_spec in Hin as (row & _ & _ & Ho & Heq).
    rewrite Heq. done. }
  assert (Hnextset : forall card,
    card ∈ activeCards db (Some (created_at lastc))
    <-> card ∈ activeCards db cursor /\ (created_at card < created_at lastc)%Z).
  { intros card. rewrite !activeCards_spec. split.
    - intros (row & Hrow & Hs & Ho & Heq). cbn in Ho.
      apply Z.ltb_lt in Ho. split.
      + exists row. do 2 (split; [done|]). split; [|done].
        destruct cursor as [c0|]; [|done]. cbn in *.
        apply Z.ltb_lt in Hlastold. apply Z.ltb_lt. lia.
      + rewrite Heq. cbn. lia.
    - intros [(row & Hrow & Hs & Ho & Heq) Hlt]. exists row.
      do 2 (split; [done|]). split; [|done]. cbn. apply Z.ltb_lt.
      rewrite Heq in Hlt. cbn in Hlt. lia. }
  split; [exact Hnextset|]. split.
  - intros card Hin Hnextin. apply Hnextset in Hnextin as [_ Hlt].
    specialize (Hmin card Hin). lia.
  - intros card Hin Hout. rewrite Hnextset.
    assert (Hrest : card ∈ rest).
    { rewrite <- Hperm, <- (take_drop (Z.to_nat limit) sorted) in Hin.
      apply elem_of_app in Hin as [?|?]; done. }
    specialize (Hsplit lastc card Hlastin Hrest). split; [lia|].
    intros Hne. split; [done|lia].
Qed.

End DirectoryTheorems.

Section DirectoryNegativeLimit.
Import Http Store Auth Sql Api Directory.

(** The cap of 100 bounds the limit from above only.  For a limit of -2
    or less the LIMIT of the statement is negative, which SQLite reads
    as no limit, and [slice(0, limit)] drops the last [-limit] rows: the
    page holds every active identity except the [-limit] oldest, however
    many there are, and [has_more] is set. *)
Theorem directory_negative_limit (G : Engine) (db : DB) (limit : Z)
    (cursor : option Z) :
  EngineSound G -> (limit <= -2)%Z ->
  exists page,
    listHandler db limit cursor = Answered 200 page
    /\ length (clawfiles page)
       = (length (activeCards db cursor) - Z.to_nat (- limit))%nat
    /\ has_more page = true
    /\ clawfiles page `prefix_of` orderByDesc created_at (activeCards db cursor).
Proof.
  intros [_ Hord] Hn.
  destruct (Hord Card created_at (activeCards db cursor)) as [Hperm _].
  unfold listHandler, Sql.limit, slice0.
  destruct (Z.ltb_spec (limit + 1) 0); [|lia].
  destruct (Z.ltb_spec limit 0); [|lia].
  set (sorted := orderByDesc created_at (activeCards db cursor)) in *.
  destruct (Z.ltb_spec limit (Z.of_nat (length sorted))); [|lia].
  eexists. split; [reflexivity|]. cbn [clawfiles has_more].
  split; [|split; [done|]].
  - rewrite length_take, <- (Permutation_length Hperm). lia.
  - apply prefix_take.
Qed.

End DirectoryNegativeLimit.

(** ** handlers/plaza: the timeline and the single post *)

Section TimelineFacts.
Import Http Store Auth Sql Api Timeline.

Lemma selected_spec (db : DB) (rs : list Reaction) (q : Query) (p : Item) :
  p ∈ selected db rs q ->
  exists pm c,
    pm ∈ plaza_messages db
    /\ clawfiles db !! Store.author_id pm = Some c
    /\ Store.visibility pm = js "public"
    /\ (forall x, truthy (community q) = Some x ->
          Store.community_id pm = Some x)
    /\ (forall a, truthy (author q) = Some a ->
          Store.mention_name c = a \/ Store.author_id pm = a)
    /\ (forall b, truthy (before q) = Some b ->
          textLess (Iso.toISOString (Store.posted_at pm)) b = true)
    /\ id p = Store.id pm /\ content p = Store.content pm
    /\ created_at p = Store.posted_at pm
    /\ is_reacted_by_me p = None.
Proof.
  unfold selected. intros (pm & Hin & Hp)%list_elem_of_omap.
  destruct (clawfiles db !! Store.author_id pm) as [c|] eqn:Hc; [|done].
  cbn [mbind option_bind] in Hp.
  destruct (bool_decide (Store.visibility pm = js "public")) eqn:Hv;
    cbn [andb] in Hp; [|done].
  destruct (match truthy (community q) with Some _ => _ | None => _ end)
    eqn:Hcom; cbn [andb] in Hp; [|done].
  destruct (match truthy (author q) with Some _ => _ | None => _ end)
    eqn:Hau; cbn [andb] in Hp; [|done].
  destruct (olderThan (before q) (Store.posted_at pm)) eqn:Hold; [|done].
  injection Hp as <-. exists pm, c. cbn.
  apply bool_decide_eq_true in Hv.
  split; [done|]. split; [done|]. split; [done|]. split; [|split; [|split]].
  - intros x Hx. rewrite Hx in Hcom. by apply bool_decide_eq_true in Hcom.
  - intros a Ha. rewrite Ha in Hau. by apply bool_decide_eq_true in Hau.
  - intros b Hb. unfold olderThan in Hold. by rewrite Hb in Hold.
  - done.
Qed.

Lemma elem_of_limit {A : Type} (n : Z) (l : list A) (x : A) :
  x ∈ Sql.limit n l -> x ∈ l.
Proof.
  unfold Sql.limit. destruct (n <? 0)%Z; [done|apply elem_of_take_full].
Qed.

Lemma elem_of_slice0 {A : Type} (n : Z) (l : list A) (x : A) :
  x ∈ slice0 n l -> x ∈ l.
Proof. unfold slice0. destruct (n <? 0)%Z; apply elem_of_take_full. Qed.

Lemma length_limit {A : Type} (n : Z) (l : list A) :
  (0 <= n)%Z -> (length (Sql.limit n l) <= Z.to_nat n)%nat.
Proof.
  intros Hn. unfold Sql.limit. destruct (Z.ltb_spec n 0); [lia|].
  rewrite length_take. lia.
Qed.

Lemma NoDup_fmap_eq {A B : Type} (f : A -> B) (l : list A) (x y : A) :
  NoDup (f <$> l) -> x ∈ l -> y ∈ l -> f x = f y -> x = y.
Proof.
  induction l as [|a l IH]; intros Hnd Hx Hy Hf; [by apply elem_of_nil in Hx|].
  rewrite fmap_cons in Hnd. apply NoDup_cons in Hnd as [Ha Hnd].
  apply elem_of_cons in Hx as [->|Hx]; apply elem_of_cons in Hy as [->|Hy].
  - done.
  - destruct Ha. rewrite Hf. by apply list_elem_of_fmap_2.
  - destruct Ha. rewrite <- Hf. by apply list_elem_of_fmap_2.
  - by apply IH.
Qed.

End TimelineFacts.

Section TimelineTheorems.
Import Http Store Auth Sql Api Timeline.

(** The timeline lists public posts only.  Every item of the answer is
    a stored post whose visibility is "public", whose author is a
    registered identity, and which meets each filter that is given:
    the community, the author by mention name or key, and [before], for
    which the [created_at] text of the post sorts before the text of
    the query, whatever that text is.  This holds for every limit and
    with or without an identity.  [is_reacted_by_me] is present exactly
    when the request carries an identity; for a limit that is not
    negative the page has at most [limit] items. *)
Theorem timeline_public_only (G : Engine) (db : DB) (rs : list Reaction)
    (auth : option AuthContext) (q : Query) :
  EngineSound G ->
  exists posts more cursor,
    timelineHandler db rs auth q = Answered 200 (Page posts more cursor)
    /\ Forall (fun p =>
         exists pm c,
           pm ∈ plaza_messages db
           /\ clawfiles db !! Store.author_id pm = Some c
           /\ Store.visibility pm = js "public"
           /\ (forall x, truthy (community q) = Some x ->
                 Store.community_id pm = Some x)
           /\ (forall a, truthy (author q) = Some a ->
                 Store.mention_name c = a \/ Store.author_id pm = a)
           /\ (forall b, truthy (before q) = Some b ->
                 textLess (Iso.toISOString (Store.posted_at pm)) b = true)
           /\ id p = Store.id pm /\ content p = Store.content pm
           /\ (is_Some (is_reacted_by_me p) <-> is_Some auth)) posts
    /\ ((0 <= limit q)%Z -> (length posts <= Z.to_nat (limit q))%nat).
Proof.
  intros [_ Hord].
  destruct (Hord Item created_at (selected db rs q)) as [Hperm _].
  unfold timelineHandler.
  set (results := Sql.limit _ _).
  assert (Hsel : forall p, p ∈ slice0 (limit q) results ->
                           p ∈ selected db rs q).
  { intros p Hp%elem_of_slice0%elem_of_limit. by rewrite <- Hperm. }
  assert (Hlen : (0 <= limit q)%Z ->
                 (length (slice0 (limit q) results) <= Z.to_nat (limit q))%nat).
  { intros Hn. unfold slice0. destruct (Z.ltb_spec (limit q) 0); [lia|].
    rewrite length_take. lia. }
  eexists _, _, _. split; [reflexivity|]. split.
  - destruct auth as [a|]; apply Forall_forall; intros p Hp.
    + apply list_elem_of_fmap in Hp as (p0 & -> & Hp0).
      apply Hsel, selected_spec in Hp0
        as (pm & c & H1 & H2 & H3 & H4 & H5 & H6 & H7 & H8 & _).
      exists pm, c. cbn. do 8 (split; [done|]). by split; eexists.
    + apply Hsel, selected_spec in Hp
        as (pm & c & H1 & H2 & H3 & H4 & H5 & H6 & H7 & H8 & _ & H9).
      exists pm, c. do 8 (split; [done|]). rewrite H9.
      split; by intros [? ?].
  - intros Hn. destruct auth; [rewrite length_fmap|]; by apply Hlen.
Qed.

Context {E : Ed25519} {D : DateParser}.

(** [GET /plaza/:id] does not look at the visibility: for every stored
    post of a registered author, whatever its visibility, a request with
    no signature headers is answered 200 with the whole row, together
    with at most 50 replies, each a stored reply to that post.  The
    replies are in ascending order of time and are the oldest ones: a
    stored reply of a registered author is listed, or 50 replies are
    listed and none of them is newer than it. *)
Theorem thread_ignores_visibility (G : Engine) (db : DB)
    (rs : list Reaction) (nowMs : Z) (req : Request) (pm : PlazaMessage) :
  EngineSound G ->
  NoDup (Store.id <$> plaza_messages db) ->
  pm ∈ plaza_messages db ->
  is_Some (clawfiles db !! Store.author_id pm) ->
  xPublicKey req = None ->
  exists full replies reactions,
    threadRoute db rs nowMs req (Store.id pm)
    = inr (Answered 200 (Thread full replies reactions))
    /\ row full = pm
    /\ (length replies <= 50)%nat
    /\ Forall (fun r => row r ∈ plaza_messages db
                        /\ Store.reply_to (row r) = Some (Store.id pm))
              replies
    /\ ascending (fun r => Store.posted_at (row r)) replies
    /\ (forall reply,
          reply ∈ plaza_messages db ->
          Store.reply_to reply = Some (Store.id pm) ->
          is_Some (clawfiles db !! Store.author_id reply) ->
          (exists r, r ∈ replies /\ row r = reply)
          \/ (length replies = 50%nat
              /\ forall r, r ∈ replies ->
                    (Store.posted_at (row r) <= Store.posted_at reply)%Z)).
Proof.
  intros HG Hnd Hin [c Hc] Hanon.
  unfold threadRoute, optionalAuth, authMiddleware. rewrite Hanon. cbn [truthy].
  unfold threadHandler.
  set (found := omap _ (plaza_messages db)).
  assert (Hfound : forall f, f ∈ found -> row f = pm).
  { intros f (pm' & Hin' & Hf)%list_elem_of_omap.
    destruct (bool_decide (Store.id pm' = Store.id pm)) eqn:Hid; [|done].
    apply bool_decide_eq_true in Hid.
    assert (pm' = pm) as -> by by apply (NoDup_fmap_eq Store.id (plaza_messages db)).
    unfold fullOf in Hf. rewrite Hc in Hf. by injection Hf as <-. }
  destruct (firstRow found) as [full|] eqn:Hfirst.
  2: { apply firstRow_None in Hfirst; [|done].
       assert (Hex : {| row := pm;
                        full_author_mention := Store.mention_name c;
                        full_author_display := Store.display_name c;
                        full_author_tier := Store.verification_tier c;
                        full_author_avatar :=
                          clawfile_profiles db !! Store.author_id pm
                          ≫= Store.avatar_url |} ∈ found).
       { apply list_elem_of_omap. exists pm. split; [done|].
         rewrite bool_decide_eq_true_2 by done. unfold fullOf. by rewrite Hc. }
       rewrite Hfirst in Hex. by apply elem_of_nil in Hex. }
  apply firstRow_elem in Hfirst; [|done].
  set (answers := omap _ (plaza_messages db)).
  destruct (proj2 HG Full (fun f => (- Store.posted_at (row f))%Z) answers)
    as [Hperm Hdesc].
  unfold orderByAsc, Sql.limit. cbn [Z.ltb Z.compare Z.to_nat].
  set (sorted := orderByDesc _ answers) in *.
  eexists full, _, _. split; [reflexivity|]. split; [by apply Hfound|].
  split; [rewrite length_take; lia|].
  split; [|split].
  - apply Forall_forall. intros r Hr%elem_of_take_full.
    rewrite Hperm in Hr.
    apply list_elem_of_omap in Hr as (pm' & Hin' & Hf).
    destruct (bool_decide (Store.reply_to pm' = Some (Store.id pm))) eqn:Hre;
      [|done].
    apply bool_decide_eq_true in Hre. unfold fullOf in Hf.
    destruct (clawfiles db !! Store.author_id pm'); [|done].
    injection Hf as <-. done.
  - intros i j a b Hij Ha Hb.
    pose proof (descending_take _ _ (Pos.to_nat 50) Hdesc i j a b Hij Ha Hb).
    cbn beta in *. lia.
  - intros reply Hreply Hto [c' Hc'].
    set (r' := {| row := reply;
                  full_author_mention := Store.mention_name c';
                  full_author_display := Store.display_name c';
                  full_author_tier := Store.verification_tier c';
                  full_author_avatar :=
                    clawfile_profiles db !! Store.author_id reply
                    ≫= Store.avatar_url |}).
    assert (Hr' : r' ∈ sorted).
    { rewrite Hperm. apply list_elem_of_omap. exists reply. split; [done|].
      rewrite bool_decide_eq_true_2 by done. unfold fullOf. by rewrite Hc'. }
    rewrite <- (take_drop (Pos.to_nat 50) sorted) in Hr'.
    apply elem_of_app in Hr' as [Hshown|Hleft].
    + left. by exists r'.
    + right. split.
      * rewrite length_take. apply list_elem_of_lookup in Hleft as [k Hk].
        apply lookup_lt_Some in Hk. rewrite length_drop in Hk. lia.
      * intros r Hr.
        pose proof (descending_split _ _ _ r r' Hdesc Hr Hleft) as Hle.
        cbn in Hle. lia.
Qed.

End TimelineTheorems.

(** ** handlers/clawfiles: [PATCH /clawfiles/me] *)

Section ProfileTheorems.
Import Http Store Auth Api Profiles Schema.

(** [PATCH /clawfiles/me] writes the caller's own display name and
    profile texts and nothing else: the rows of every other identity,
    the posts, the communities and the ledger are untouched; the
    caller's mention name, verification tier, status, parent, home node,
    lineage and creation time stay as they are; no row is created or
    removed; and the constraints of the identity tables and the lineage
    invariant are kept.  A body with none of the four fields is answered
    400 with nothing written; one whose only field is an empty or null
    display name is answered 200 with nothing written. *)
Theorem patch_writes_own_texts_only (db : DB) (auth : AuthContext)
    (nameMs profileMs : Z) (b : PatchBody) :
  let out := patchHandler db auth nameMs profileMs b in
  (forall key, key <> authPublicKey auth ->
     clawfiles out.2 !! key = clawfiles db !! key
     /\ clawfile_profiles out.2 !! key = clawfile_profiles db !! key)
  /\ (forall key, is_Some (clawfiles out.2 !! key)
                  <-> is_Some (clawfiles db !! key))
  /\ (forall key, is_Some (clawfile_profiles out.2 !! key)
                  <-> is_Some (clawfile_profiles db !! key))
  /\ (forall key row', clawfiles out.2 !! key = Some row' ->
        exists row,
          clawfiles db !! key = Some row
          /\ Store.mention_name row' = Store.mention_name row
          /\ Store.verification_tier row' = Store.verification_tier row
          /\ Store.status row' = Store.status row
          /\ Store.human_parent row' = Store.human_parent row
          /\ Store.home_node row' = Store.home_node row
          /\ Store.rotated_from row' = Store.rotated_from row
          /\ Store.rotated_to row' = Store.rotated_to row
          /\ Store.created_at row' = Store.created_at row
          /\ (Store.display_name row' = Store.display_name row
              \/ (key = authPublicKey auth
                  /\ display_name b = Text (Store.display_name row')
                  /\ Store.display_name row' <> [])))
  /\ plaza_messages out.2 = plaza_messages db
  /\ Store.communities out.2 = Store.communities db
  /\ ledger_entries out.2 = ledger_entries db
  /\ (identityTables db -> identityTables out.2)
  /\ (lineageInvariant db -> lineageInvariant out.2)
  /\ (display_name b = Absent -> bio b = Absent -> principles b = Absent ->
      avatar_url b = Absent ->
      out = (Refused 400 (js "bad_request") (js "No valid fields to update"),
             db))
  /\ (display_name b = Null \/ display_name b = Text [] ->
      bio b = Absent -> principles b = Absent -> avatar_url b = Absent ->
      out = (Answered 200 (js "Profile updated"), db)).
Proof.
  cbn zeta.
  assert (Hrows : forall key row',
    clawfiles (patchHandler db auth nameMs profileMs b).2 !! key = Some row' ->
    exists row,
      clawfiles db !! key = Some row
      /\ Store.mention_name row' = Store.mention_name row
      /\ Store.verification_tier row' = Store.verification_tier row
      /\ Store.status row' = Store.status row
      /\ Store.human_parent row' = Store.human_parent row
      /\ Store.home_node row' = Store.home_node row
      /\ Store.rotated_from row' = Store.rotated_from row
      /\ Store.rotated_to row' = Store.rotated_to row
      /\ Store.created_at row' = Store.created_at row
      /\ (Store.display_name row' = Store.display_name row
          \/ (key = authPublicKey auth
              /\ display_name b = Text (Store.display_name row')
              /\ Store.display_name row' <> []))).
  { intros key row'. unfold patchHandler.
    destruct (negb _); [intros Hr; exists row'; by repeat split; try left|].
    assert (Hc : forall db1,
      clawfiles (if given (bio b) || given (principles b)
                    || given (avatar_url b)
                 then updateProfile db1 (authPublicKey auth) b profileMs
                 else db1) = clawfiles db1) by (intros; by case_match).
    cbn [snd]. rewrite Hc.
    destruct (display_name b) as [| |[|c s]] eqn:Hd;
      try (intros Hr; exists row'; by repeat split; try left).
    cbn [updateDisplayName clawfiles].
    destruct (decide (authPublicKey auth = key)) as [<-|Hne].
    - rewrite lookup_alter_eq.
      destruct (clawfiles db !! authPublicKey auth) as [row|]; [|done].
      cbn. intros [= <-]. exists row. cbn. do 9 (split; [done|]). by right.
    - rewrite lookup_alter_ne by done. intros Hr. exists row'.
      by repeat split; try left. }
  assert (Hdom : forall key,
    is_Some (clawfiles (patchHandler db auth nameMs profileMs b).2 !! key)
    <-> is_Some (clawfiles db !! key)).
  { intros key. unfold patchHandler. destruct (negb _); [done|]. cbn [snd].
    assert (Hc : forall db1,
      clawfiles (if given (bio b) || given (principles b)
                    || given (avatar_url b)
                 then updateProfile db1 (authPublicKey auth) b profileMs
                 else db1) = clawfiles db1) by (intros; by case_match).
    rewrite Hc. destruct (display_name b) as [| |[|c s]]; try done.
    cbn [updateDisplayName clawfiles]. apply lookup_alter_is_Some. }
  split; [|split; [exact Hdom|split; [|split; [exact Hrows|]]]].
  - intros key Hne. unfold patchHandler. destruct (negb _); [done|].
    cbn [snd]. split.
    + assert (Hc : forall db1,
        clawfiles (if given (bio b) || given (principles b)
                      || given (avatar_url b)
                   then updateProfile db1 (authPublicKey auth) b profileMs
                   else db1) = clawfiles db1) by (intros; by case_match).
      rewrite Hc. destruct (display_name b) as [| |[|c s]]; try done.
      cbn [updateDisplayName clawfiles]. by rewrite lookup_alter_ne.
    + assert (Hp : forall db1,
        clawfile_profiles
          (if given (bio b) || given (principles b) || given (avatar_url b)
           then updateProfile db1 (authPublicKey auth) b profileMs
           else db1) !! key = clawfile_profiles db1 !! key).
      { intros db1. case_match; [|done].
        cbn [updateProfile clawfile_profiles]. by rewrite lookup_alter_ne. }
      rewrite Hp. by destruct (display_name b) as [| |[|c s]].
  - intros key. unfold patchHandler. destruct (negb _); [done|]. cbn [snd].
    assert (Hp : forall db1,
      is_Some (clawfile_profiles
        (if given (bio b) || given (principles b) || given (avatar_url b)
         then updateProfile db1 (authPublicKey auth) b profileMs
         else db1) !! key) <-> is_Some (clawfile_profiles db1 !! key)).
    { intros db1. case_match; [|done].
      cbn [updateProfile clawfile_profiles]. apply lookup_alter_is_Some. }
    rewrite Hp. by destruct (display_name b) as [| |[|c s]].
  - assert (Hframe :
      plaza_messages (patchHandler db auth nameMs profileMs b).2
      = plaza_messages db
      /\ Store.communities (patchHandler db auth nameMs profileMs b).2
         = Store.communities db
      /\ ledger_entries (patchHandler db auth nameMs profileMs b).2
         = ledger_entries db).
    { unfold patchHandler. destruct (negb _); [done|]. cbn [snd].
      by destruct (_ || _), (display_name b) as [| |[|c s]]. }
    destruct Hframe as (Hp & Hc & Hl). do 3 (split; [done|]).
    split; [|split; [|split]].
    + intros (Hchk & Huniq & Hown). split; [|split].
      * intros key row' Hr.
        destruct (Hrows key row' Hr)
          as (row & Hrow & Hm & Ht & Hs & _).
        destruct (Hchk key row Hrow) as (H1 & H2 & H3 & H4).
        unfold clawfileChecks. by rewrite Hm, Ht, Hs.
      * intros k1 k2 r1 r2 Hr1 Hr2 Heq.
        destruct (Hrows k1 r1 Hr1) as (row1 & Hrow1 & Hm1 & _).
        destruct (Hrows k2 r2 Hr2) as (row2 & Hrow2 & Hm2 & _).
        apply (Huniq k1 k2 row1 row2); [done..|congruence].
      * intros key p Hp'. apply Hdom.
        assert (Hs : is_Some (clawfile_profiles db !! key)).
        { revert Hp'. unfold patchHandler. destruct (negb _); [by eexists|].
          cbn [snd]. intros Hp'.
          assert (Hq : forall db1,
            is_Some (clawfile_profiles
              (if given (bio b) || given (principles b)
                  || given (avatar_url b)
               then updateProfile db1 (authPublicKey auth) b profileMs
               else db1) !! key) -> is_Some (clawfile_profiles db1 !! key)).
          { intros db1. case_match; [|done].
            cbn [updateProfile clawfile_profiles].
            apply lookup_alter_is_Some. }
          assert (Hs' : is_Some (clawfile_profiles
            (if given (bio b) || given (principles b) || given (avatar_url b)
             then updateProfile
                    match display_name b with
                    | Text (c :: s) =>
                        updateDisplayName db (authPublicKey auth) (c :: s)
                          nameMs
                    | _ => db
                    end (authPublicKey auth) b profileMs
             else match display_name b with
                  | Text (c :: s) =>
                      updateDisplayName db (authPublicKey auth) (c :: s)
                        nameMs
                  | _ => db
                  end) !! key)) by (by eexists).
          apply Hq in Hs'. by destruct (display_name b) as [| |[|c s]]. }
        destruct Hs as [p0 Hp0]. destruct (Hown key p0 Hp0) as [row Hrow].
        by eexists.
    + intros Hlin key row' next Hr Hnext.
      destruct (Hrows key row' Hr)
        as (row & Hrow & _ & _ & Hs & _ & _ & _ & Hto & _).
      rewrite Hto in Hnext. destruct (Hlin key row next Hrow Hnext)
        as (Hst & succ & Hsucc & Hfrom).
      split; [congruence|].
      assert (Hsome : is_Some
        (clawfiles (patchHandler db auth nameMs profileMs b).2 !! next))
        by (apply Hdom; by eexists).
      destruct Hsome as [succ' Hsucc']. exists succ'. split; [done|].
      destruct (Hrows next succ' Hsucc')
        as (succ0 & Hsucc0 & _ & _ & _ & _ & _ & Hfr & _).
      congruence.
    + intros Hd Hb Hpr Ha. unfold patchHandler. by rewrite Hd, Hb, Hpr, Ha.
    + intros Hd Hb Hpr Ha. unfold patchHandler. rewrite Hb, Hpr, Ha.
      by destruct Hd as [-> | ->].
Qed.

End ProfileTheorems.

(** ** The first worker *)

Section LegacyTheorems.
Import Sql Legacy.

Lemma legacy_path_split (i : jsstring) :
  47 ∉ i ->
  split (js "/") (js "/api/v1/clawfile/" ++ i)
  = [[]; js "api"; js "v1"; js "clawfile"; i].
Proof.
  intros Hi. unfold split. change (js "/") with [47].
  change (js "/api/v1/clawfile/" ++ i)
    with ([] ++ 47 :: (js "api" ++ 47 :: (js "v1" ++ 47
            :: (js "clawfile" ++ 47 :: i)))).
  rewrite splitGo_single by (apply not_elem_of_nil).
  rewrite splitGo_single by by_evaluation.
  rewrite splitGo_single by by_evaluation.
  rewrite splitGo_single by by_evaluation.
  by rewrite splitGo_absent.
Qed.

(** One branch of the routing: the five properties of its answer. *)
Ltac legacy_branch :=
  cbn [fst snd status headers jsonResponse listClawfiles andb];
  split; [by_evaluation|];
  split; [first [done | (intros ? ?; by right)]|];
  split; [first [by intros | (intros ?; congruence)]|];
  split; [let H := fresh in intros H; by destruct H|];
  first [ by intros
        | let Hm := fresh in
          let Hp := fresh in
          intros Hm Hp; exfalso;
          first [ apply Hm;
                  match goal with
                  | H : method _ = _ |- _ => rewrite H; by_evaluation
                  end
                | apply Hp;
                  match goal with
                  | H : pathname _ = _ |- _ => rewrite H; by_evaluation
                  end ] ].

(** The routing of the first worker.  Every request is answered with
    one of the statuses 200, 201, 400, 404 and 500 and with the three
    CORS headers; a preflight (OPTIONS) is answered 200 with no body
    whatever the path; the table changes only by a POST to
    /api/v1/clawfile that is answered 201, and then by one row under the
    id that was drawn; and apart from the two status paths a method
    other than OPTIONS, GET and POST is answered 404 (never 405). *)
Theorem legacy_routing (G : Engine) (t : gmap jsstring Row) (nowMs : Z)
    (newId : jsstring) (req : Request) :
  let out := fetch t nowMs newId req in
  status out.1 ∈ [200; 201; 400; 404; 500]%Z
  /\ corsHeaders ⊆ headers out.1
  /\ (method req = js "OPTIONS" ->
      out = ({| status := 200; headers := corsHeaders; payload := None |}, t))
  /\ (out.2 <> t ->
      status out.1 = 201%Z
      /\ method req = js "POST" /\ pathname req = js "/api/v1/clawfile"
      /\ t !! newId = None
      /\ exists row, out.2 = <[newId := row]> t)
  /\ (method req ∉ [js "OPTIONS"; js "GET"; js "POST"] ->
      pathname req ∉ [js "/api/health"; js "/api/v1"] ->
      out = (jsonResponse (Failure (js "Not found")) 404, t)).
Proof.
  cbn zeta. unfold fetch.
  destruct (decide (method req = js "OPTIONS")) as [Hopt|Hopt].
  { rewrite bool_decide_eq_true_2 by done. legacy_branch. }
  rewrite bool_decide_eq_false_2 by done.
  destruct (decide (pathname req = js "/api/health")) as [Hh|Hh].
  { rewrite bool_decide_eq_true_2 by done. legacy_branch. }
  rewrite bool_decide_eq_false_2 by done.
  destruct (decide (pathname req = js "/api/v1")) as [Hv|Hv].
  { rewrite bool_decide_eq_true_2 by done. legacy_branch. }
  rewrite bool_decide_eq_false_2 by done.
  destruct (decide (pathname req = js "/api/v1/clawfile")) as [Hc|Hc].
  - rewrite !(bool_decide_eq_true_2 (pathname req = _)) by done. cbn [andb].
    destruct (decide (method req = js "POST")) as [Hp|Hp].
    + rewrite bool_decide_eq_true_2 by done. unfold createClawfile.
      destruct (json req) as [body|]; [|legacy_branch].
      destruct (Http.truthy (body_name body)) as [name|]; [|legacy_branch].
      destruct (Http.truthy (body_creator body)) as [creator|];
        [|legacy_branch].
      destruct (t !! newId) eqn:Hid; [legacy_branch|].
      cbn [fst snd status headers jsonResponse].
      split; [by_evaluation|]. split; [intros h Hin; by right|].
      split; [done|]. split.
      * intros _. do 4 (split; [done|]). by eexists.
      * intros Hm. exfalso. apply Hm. rewrite Hp. by_evaluation.
    + rewrite (bool_decide_eq_false_2 (method req = js "POST")) by done.
      destruct (decide (method req = js "GET")) as [Hg|Hg].
      * rewrite bool_decide_eq_true_2 by done. legacy_branch.
      * rewrite bool_decide_eq_false_2 by done.
        assert (Hs : startsWith (js "/api/v1/clawfile/") (pathname req) = false)
          by (by rewrite Hc).
        rewrite Hs. legacy_branch.
  - rewrite !(bool_decide_eq_false_2 (pathname req = _)) by done. cbn [andb].
    destruct (startsWith _ _ && bool_decide (method req = js "GET")) eqn:Hget.
    + apply andb_prop in Hget as [_ Hg%bool_decide_eq_true].
      unfold getClawfile. destruct (t !! _); legacy_branch.
    + legacy_branch.
Qed.

(** A clawfile that the first worker has created (201) is served by
    GET /api/v1/clawfile/<id> under the id that was drawn, with the name
    and the creator of the request, provided the id holds no '/' (the
    path is cut at its last '/'). *)
Theorem legacy_create_then_get (G : Engine) (t : gmap jsstring Row)
    (nowMs laterMs : Z) (newId otherId : jsstring) (req : Request) :
  status (fetch t nowMs newId req).1 = 201%Z ->
  47 ∉ newId ->
  let t1 := (fetch t nowMs newId req).2 in
  exists body row,
    json req = Some body
    /\ Http.truthy (body_name body) = Some (name row)
    /\ Http.truthy (body_creator body) = Some (creator row)
    /\ created_at row = nowMs /\ verified row = 0%Z
    /\ fetch t1 laterMs otherId
         {| method := js "GET";
            pathname := js "/api/v1/clawfile/" ++ newId;
            json := None |}
       = (jsonResponse (Found newId row) 200, t1).
Proof.
  intros Hok Hid. cbn zeta.
  assert (Hrun : exists body name creator,
    json req = Some body
    /\ Http.truthy (body_name body) = Some name
    /\ Http.truthy (body_creator body) = Some creator
    /\ (fetch t nowMs newId req).2
       = <[newId := {| Legacy.name := name; creator := creator;
                       values_declared :=
                         Some (default [] (Http.truthy (body_values body)));
                       bio := None; created_at := nowMs; updated_at := nowMs;
                       verified := 0; verification_method := None |}]> t).
  { revert Hok. unfold fetch.
    destruct (bool_decide (method req = js "OPTIONS")); [done|].
    destruct (bool_decide (pathname req = js "/api/health")); [done|].
    destruct (bool_decide (pathname req = js "/api/v1")); [done|].
    destruct (bool_decide (pathname req = js "/api/v1/clawfile")
              && bool_decide (method req = js "POST")).
    2: { destruct (_ && _); [done|]. destruct (_ && _); [|done].
         unfold getClawfile. by destruct (t !! _). }
    unfold createClawfile.
    destruct (json req) as [body|]; [|done].
    destruct (Http.truthy (body_name body)) as [name|] eqn:Hname; [|done].
    destruct (Http.truthy (body_creator body)) as [creator|] eqn:Hcreator;
      [|done].
    destruct (t !! newId); [done|]. intros _. by exists body, name, creator. }
  destruct Hrun as (body & name & creator & Hbody & Hname & Hcreator & ->).
  exists body,
    {| Legacy.name := name; creator := creator;
       values_declared := Some (default [] (Http.truthy (body_values body)));
       bio := None; created_at := nowMs; updated_at := nowMs;
       verified := 0; verification_method := None |}.
  do 5 (split; [done|]).
  unfold fetch. cbn [method pathname].
  rewrite (bool_decide_eq_false_2 (js "GET" = js "OPTIONS")) by done.
  rewrite !(bool_decide_eq_false_2 (js "/api/v1/clawfile/" ++ newId = _))
    by (intros Heq; apply (f_equal length) in Heq;
        rewrite length_app in Heq; cbn in Heq; lia).
  cbn [andb].
  rewrite (startsWith_app _ (js "/api/v1/clawfile/")) by apply startsWith_refl.
  rewrite bool_decide_eq_true_2 by done. cbn [andb].
  rewrite legacy_path_split by done. cbn [last default].
  unfold getClawfile. change (id newId) with newId.
  rewrite lookup_insert_eq. reflexivity.
Qed.

End LegacyTheorems.

(** ** The [limit] parameter *)

Section PagingFacts.
Import Paging.

Example parseInteger_examples :
  parseInteger (js "20") = Some 20%Z
  /\ parseInteger (js "  42px") = Some 42%Z
  /\ parseInteger (js "-7") = Some (-7)%Z
  /\ parseInteger (js "+7") = Some 7%Z
  /\ parseInteger (js "0x1F") = Some 31%Z
  /\ parseInteger (js "-0X10") = Some (-16)%Z
  /\ parseInteger (js "1e3") = Some 1%Z
  /\ parseInteger (js "3.9") = Some 3%Z
  /\ parseInteger (js "0x") = None
  /\ parseInteger (js "abc") = None
  /\ parseInteger (js "-") = None
  /\ parseInteger [] = None.
Proof. repeat split. Qed.









Example toDouble_examples :
  toDouble (2 ^ 53) = Finite (2 ^ 53)
  /\ toDouble (2 ^ 53 + 1) = Finite (2 ^ 53)
  /\ toDouble (2 ^ 53 + 3) = Finite (2 ^ 53 + 4)
  /\ toDouble (2 ^ 54 + 2) = Finite (2 ^ 54)
  /\ toDouble (2 ^ 54 + 6) = Finite (2 ^ 54 + 8)
  /\ toDouble (10 ^ 23) = Finite 99999999999999991611392
  /\ toDouble (2 ^ 1024 - 2 ^ 970 - 1) = Finite (2 ^ 1024 - 2 ^ 971)
  /\ toDouble (2 ^ 1024 - 2 ^ 970) = Infinite false
  /\ toDouble (- 2 ^ 1024) = Infinite true.
Proof. vm_compute. repeat split. Qed.



End PagingFacts.


(** ** Concrete runs of the routes *)

Section SampleRuns.
Import Store Http Auth Sql Api.

Lemma noCommunities_consistent : Communities.consistent Samples.noCommunities.
Proof.
  unfold Communities.consistent, Samples.noCommunities. cbn.
  split; [|split; [|split]].
  - intros i c Hi. by rewrite lookup_empty in Hi.
  - intros m Hm. by apply elem_of_nil in Hm.
  - apply NoDup_nil_2.
  - intros i c Hi. by rewrite lookup_empty in Hi.
Qed.

Lemma lobsters_consistent : Communities.consistent Samples.lobsters.
Proof. apply createHandler_consistent, noCommunities_consistent. Qed.

Lemma lobsters_row :
  Communities.rows Samples.lobsters !! js "lobsters" = Some Samples.lobstersRow.
Proof. vm_compute. reflexivity. Qed.

Lemma noFollows_wellFormed : Follows.wellFormed Samples.twoDb [].
Proof. split; [apply NoDup_nil_2|apply Forall_nil_2]. Qed.

Lemma noWarrens_grounded : Warrens.grounded Samples.noWarrens.
Proof. intros m Hm. by apply elem_of_nil in Hm. Qed.

(** A request without a timestamp is refused the same way whether or
    not its key is registered. *)
Lemma auth_refusal_before_lookup_witness :
  authMiddleware (E := Demo.demoEd) (D := Demo.demoDate) true
    (Demo.demoDb (js "active") 0) Demo.demoInstant Demo.unstampedRequest
  = authMiddleware (E := Demo.demoEd) (D := Demo.demoDate) true
      Demo.emptyDb Demo.demoInstant Demo.unstampedRequest.
Proof.
  apply (auth_refusal_before_lookup Demo.demoEd Demo.demoDate true
           Demo.emptyDb (Demo.demoDb (js "active") 0) Demo.demoInstant
           Demo.unstampedRequest).
  - vm_compute. reflexivity.
  - vm_compute. discriminate.
  - vm_compute. discriminate.
Defined.

(** Creating "lobsters" keeps the community tables consistent. *)
Lemma community_tables_kept_witness :
  Communities.consistent
    (Communities.createHandler Samples.twoDb Samples.noCommunities
       Demo.demoAuth Demo.demoInstant Samples.lobstersBody).2.2.
Proof.
  exact (proj1 (community_tables_kept scanEngine Samples.twoDb
                  Samples.noCommunities Demo.demoAuth Demo.demoInstant
                  scanEngine_sound noCommunities_consistent)
           Samples.lobstersBody).
Defined.

(** Bob, who never joined "lobsters", leaves it. *)
Lemma leave_of_non_member_witness :
  (Communities.leaveHandler (G := scanEngine) Samples.lobsters
     Samples.bobAuth Demo.demoInstant (js "lobsters")).1
  = Answered 200 (Communities.Message (js "Left community")).
Proof.
  refine (proj1 (leave_of_non_member scanEngine
            Samples.lobsters Samples.bobAuth Demo.demoInstant (js "lobsters")
            Samples.lobstersRow scanEngine_sound lobsters_consistent
            lobsters_row _)).
  vm_compute. reflexivity.
Defined.

(** Bob joins "lobsters" and leaves it again. *)
Lemma join_then_leave_witness :
  Communities.members
    (Communities.leaveHandler (G := scanEngine)
       (Communities.joinHandler (G := scanEngine) Samples.twoDb
          Samples.lobsters Samples.bobAuth Demo.demoInstant (js "lobsters")).2
       Samples.bobAuth Demo.demoInstant (js "lobsters")).2
  = Communities.members Samples.lobsters.
Proof.
  refine (proj1 (proj2 (proj2 (join_then_leave scanEngine Samples.twoDb
            Samples.lobsters Samples.bobAuth Demo.demoInstant
            Demo.demoInstant Demo.demoInstant (js "lobsters")
            scanEngine_sound lobsters_consistent _)))).
  vm_compute. reflexivity.
Defined.

(** "lobsters" can be read back after it was created, and its slug is
    then taken. *)
Lemma create_then_get_witness :
  exists slug cf row,
    truthy (Communities.body_slug Samples.lobstersBody) = Some slug
    /\ clawfiles Samples.twoDb !! authPublicKey Demo.demoAuth = Some cf
    /\ Communities.getHandler (G := scanEngine)
         (Communities.createHandler Samples.twoDb Samples.noCommunities
            Demo.demoAuth Demo.demoInstant Samples.lobstersBody).2.1
         Samples.lobsters slug
       = Answered 200
           (Communities.Details slug row (Store.display_name cf)
              (Store.mention_name cf)).
Proof.
  destruct (create_then_get scanEngine Samples.twoDb Samples.noCommunities
              Demo.demoAuth Samples.bobAuth Demo.demoInstant Demo.demoInstant
              Samples.lobstersBody 201
              (Communities.Created (js "lobsters") (js "Lobsters")
                 (js "lobsters") None Demo.demoPublicKey true
                 Demo.demoInstant)
              scanEngine_sound noCommunities_consistent)
    as (slug & cf & row & H1 & H2 & H3 & _).
  - vm_compute. reflexivity.
  - exists slug, cf, row. split; [exact H1|]. split; [exact H2|exact H3].
Defined.

(** Alice follows Bob in a store with no follows. *)
Lemma follow_graph_kept_witness :
  Follows.wellFormed Samples.twoDb
    (Follows.followHandler (G := scanEngine) Samples.twoDb [] Demo.demoAuth
       Demo.demoInstant (Some (js "bob"))).2.
Proof.
  exact (proj1 (follow_graph_kept scanEngine Samples.twoDb [] Demo.demoAuth
                  Demo.demoInstant noFollows_wellFormed)
           (Some (js "bob"))).
Defined.

Lemma follow_then_unfollow_witness :
  exists name key,
    truthy (Some (js "bob")) = Some name
    /\ Lookup.findClawfile (G := scanEngine) Samples.twoDb name = Some key
    /\ key <> authPublicKey Demo.demoAuth.
Proof.
  destruct (follow_then_unfollow scanEngine Samples.twoDb [] Demo.demoAuth
              Demo.demoInstant Demo.demoInstant (Some (js "bob")) 201
              (Follows.Followed Demo.demoPublicKey Demo.successorKey
                 Demo.demoInstant) scanEngine_sound)
    as (name & key & H1 & H2 & H3 & _).
  - vm_compute. reflexivity.
  - exists name, key. split; [exact H1|]. split; [exact H2|exact H3].
Defined.


(** Alice opens a DM with Bob; a second request is answered with the
    first warren. *)
Lemma dm_created_once_witness :
  exists target,
    Lookup.findClawfile (G := scanEngine) Samples.twoDb (js "bob")
    = Some target
    /\ target <> authPublicKey Demo.demoAuth
    /\ Warrens.warrens Samples.noWarrens !! js "warren-1" = None.
Proof.
  destruct (dm_created_once scanEngine Samples.twoDb Samples.noWarrens
              Demo.demoAuth Demo.demoInstant Demo.demoInstant
              (js "warren-1") (js "warren-2") (js "bob")
              (Samples.dmTo (js "bob"))
              (Warrens.Created (js "warren-1") (js "dm") None
                 Demo.demoInstant)
              scanEngine_sound noWarrens_grounded eq_refl eq_refl)
    as (target & H1 & H2 & H3 & _).
  - vm_compute. reflexivity.
  - exists target. split; [exact H1|]. split; [exact H2|exact H3].
Defined.


(** The directory of the two identities, one card a page, at a cursor
    written by hand. *)
Lemma directory_page_witness :
  exists page rest,
    Directory.listRoute (G := scanEngine) Samples.twoDb 1
      (Some (js "2026-11-02T00:00:00Z"))
    = Answered 200 page
    /\ Directory.cardsBefore Samples.twoDb (Some (js "2026-11-02T00:00:00Z"))
       ≡ₚ Directory.clawfiles page ++ rest.
Proof.
  destruct (directory_page scanEngine Samples.twoDb 1
              (Some (js "2026-11-02T00:00:00Z")) scanEngine_sound)
    as (page & rest & H1 & H2 & _).
  - lia.
  - exists page, rest. split; [exact H1|exact H2].
Defined.

Lemma directory_cursor_witness :
  Samples.bobCard ∉ Directory.activeCards Samples.twoDb (Some Demo.demoInstant).
Proof.
  refine (proj1 (proj2 (directory_cursor scanEngine Samples.twoDb 1 None
            Samples.firstPage Demo.demoInstant scanEngine_sound _ _ _))
            Samples.bobCard _).
  - lia.
  - vm_compute. reflexivity.
  - reflexivity.
  - apply list_elem_of_singleton. reflexivity.
Defined.

Lemma directory_negative_limit_witness :
  exists page,
    Directory.listHandler (G := scanEngine) Samples.twoDb (-2) None
    = Answered 200 page
    /\ Directory.has_more page = true.
Proof.
  destruct (directory_negative_limit scanEngine Samples.twoDb (-2) None
              scanEngine_sound)
    as (page & H1 & _ & H2 & _).
  - lia.
  - exists page. split; [exact H1|exact H2].
Defined.

(** The timeline of a store whose only post is for followers. *)
Lemma timeline_public_only_witness :
  exists posts more cursor,
    Timeline.timelineHandler (G := scanEngine) Samples.privateDb [] None
      {| Timeline.limit := 20; Timeline.before := None;
         Timeline.community := None; Timeline.author := None |}
    = Answered 200 (Timeline.Page posts more cursor)
    /\ (length posts <= 20)%nat.
Proof.
  destruct (timeline_public_only scanEngine Samples.privateDb [] None
              {| Timeline.limit := 20; Timeline.before := None;
                 Timeline.community := None; Timeline.author := None |}
              scanEngine_sound)
    as (posts & more & cursor & H1 & _ & H2).
  exists posts, more, cursor. split; [exact H1|]. apply H2. cbn. lia.
Defined.

(** The same post is served in full to a request without credentials. *)
Lemma thread_ignores_visibility_witness :
  exists full replies reactions,
    Timeline.threadRoute (G := scanEngine) (E := Demo.demoEd)
      (D := Demo.demoDate) Samples.privateDb [] Demo.demoInstant
      (Demo.bareRequest Demo.demoUrl) (js "post-2")
    = inr (Answered 200 (Timeline.Thread full replies reactions))
    /\ Timeline.row full = Samples.privatePost.
Proof.
  destruct (thread_ignores_visibility (E := Demo.demoEd)
              (D := Demo.demoDate) scanEngine Samples.privateDb []
              Demo.demoInstant (Demo.bareRequest Demo.demoUrl)
              Samples.privatePost scanEngine_sound)
    as (full & replies & reactions & H1 & H2 & _).
  - apply NoDup_singleton.
  - apply list_elem_of_singleton. reflexivity.
  - vm_compute. eexists. reflexivity.
  - reflexivity.
  - exists full, replies, reactions. split; [exact H1|exact H2].
Defined.

(** The first worker stores a clawfile and serves it back. *)
Lemma legacy_create_then_get_witness :
  exists body row,
    Legacy.json Samples.legacyCreate = Some body
    /\ truthy (Legacy.body_name body) = Some (Legacy.name row)
    /\ Legacy.created_at row = Demo.demoInstant.
Proof.
  destruct (legacy_create_then_get scanEngine ∅ Demo.demoInstant
              Demo.demoInstant (js "id-1") (js "id-2") Samples.legacyCreate)
    as (body & row & H1 & H2 & _ & H3 & _).
  - vm_compute. reflexivity.
  - by_evaluation.
  - exists body, row. split; [exact H1|]. split; [exact H2|exact H3].
Defined.

End SampleRuns.
